(** * ndscan: the generic scanning loop ([ndscan/experiment/scan_runner.py])

    A shallow embedding of [ScanRunner] and [filter_default_analyses], and the
    properties of the scan loop that follow from the code.

    The runner is a coordinator: it pulls points from an iterator, writes
    them to parameter stores, calls the fragment, and pushes coordinates to
    sinks.  Stores, sinks, the fragment, the scheduler and the core device are
    collaborators that live outside the module; every call the runner makes
    on one of them is recorded, in program order, in a [history] of events.
    What a sink contains and what a store holds are read off that history. *)

From stdpp Require Import base tactics option list gmap strings pretty.
From Stdlib Require Import ZArith Lia.

Local Open Scope Z_scope.
Local Open Scope nat_scope.

(** ** Exceptions and outcomes *)

(** The exceptions that can leave a function of the module.  [ScanFinished]
    is the class defined in the module; the others are Python's or ARTIQ's. *)
Inductive Exn :=
  | ScanFinished
  | TerminationRequested
  | NotImplementedError (num_dims : nat)
  | IndexError
  | ValueError
  | KeyError
  | AttributeError.

(** [OutOfFuel] is not a Python outcome: it marks a [while True] loop of the
    model that was cut after the given number of iterations. *)
Inductive Outcome (A : Type) :=
  | Returned (a : A)
  | Raised (e : Exn)
  | OutOfFuel.
Arguments Returned {A} a.
Arguments Raised {A} e.
Arguments OutOfFuel {A}.

(** 64-bit two's complement, the integer type of ARTIQ kernels. *)
Definition wrap64 (z : Z) : Z :=
  ((z + 2 ^ 63) mod 2 ^ 64 - 2 ^ 63)%Z.

Declare Scope run_scope.
Delimit Scope run_scope with run.

Section ScanRunner.

Context {Value ScanGenerator ScanOptions : Type}.

(** A point: one value per axis, in axis order (a Python tuple). *)
Abbreviation Point := (list Value) (only parsing).

(** ** Collaborators *)

(** Modelled from the spec: [ParamStore] is declared in [parameters.py],
    which is not part of the sources.  It is an object (identified by
    [store_id]) with a [set_value] capability and a [coerce] function that
    normalises a value to the representation of the store. *)
Record ParamStore := {
  store_id : nat;
  coerce : Value -> Value }.

Record ScanAxis := {
  param_schema : gmap string string;
  path : string;
  param_store : ParamStore }.

(** Modelled from the spec: [DefaultAnalysis] is declared in
    [default_analysis.py], which is not part of the sources.  The runner
    uses one capability of it, the applicability predicate [has_data]. *)
Record DefaultAnalysis := {
  analysis_id : nat;
  has_data : list (string * string) -> bool }.

(** What the module uses of an [ExpFragment]: whether [run_once] is a kernel
    ([is_kernel(fragment.run_once)]) and its default analyses. The calls of
    [host_setup], [device_setup] and [run_once] are events. *)
Record ExpFragment := {
  run_once_is_kernel : bool;
  get_default_analyses : list DefaultAnalysis }.

Inductive Side := Host | Device.

(** The calls the runner makes on its collaborators. [EvPointCompleted] is
    the arrival of the [_kscan_point_completed] RPC on the host. *)
Inductive Event :=
  | EvSetValue (side : Side) (store : nat) (v : Value)
  | EvPush (sink : nat) (v : Value)
  | EvHostSetup
  | EvDeviceSetup
  | EvRunOnce
  | EvPause
  | EvCommClose
  | EvRtioCounter (t : Z)
  | EvCheckPause (b : bool)
  | EvPointCompleted.

(** The environment answers as a function of everything that happened so
    far: whether [scheduler.pause()] raises [TerminationRequested], what
    [scheduler.check_pause()] returns, what the RTIO counter reads. *)
Record Env := {
  termination_requested : list Event -> bool;
  check_pause : list Event -> bool;
  get_rtio_counter_mu : list Event -> Z }.

(** ** Runner state *)

(** [points] is what is left in the point iterator ([_kscan_points] is an
    alias of the same iterator object). *)
Record Runner := mkRunner {
  points : list Point;
  _kscan_current_chunk : list Point;
  history : list Event }.

Definition M (A : Type) : Type := Runner -> Outcome A * Runner.

Definition ret {A} (a : A) : M A := fun s => (Returned a, s).

Definition raise {A} (e : Exn) : M A := fun s => (Raised e, s).

Definition bind {A B} (m : M A) (k : A -> M B) : M B :=
  fun s =>
    match m s with
    | (Returned a, s') => k a s'
    | (Raised e, s') => (Raised e, s')
    | (OutOfFuel, s') => (OutOfFuel, s')
    end.

Definition emit (e : Event) : M unit :=
  fun s => (Returned tt,
            mkRunner (points s) (_kscan_current_chunk s) (history s ++ [e])).

Definition out_of_fuel {A} : M A := fun s => (OutOfFuel, s).

Notation "x <- m ;; k" := (bind m (fun x => k))
  (at level 100, m at next level, right associativity) : run_scope.
Notation "m ;; k" := (bind m (fun _ => k))
  (at level 100, right associativity) : run_scope.
Local Open Scope run_scope.

(** A Python [for x in l: body]. *)
Fixpoint for_each {A} (l : list A) (body : A -> M unit) : M unit :=
  match l with
  | [] => ret tt
  | x :: l' => body x ;; for_each l' body
  end.

(** ** Calls on the collaborators *)

Definition set_value (side : Side) (store : ParamStore) (v : Value) : M unit :=
  emit (EvSetValue side (store_id store) v).

Definition push (sink : nat) (v : Value) : M unit := emit (EvPush sink v).

Definition host_setup : M unit := emit EvHostSetup.
Definition device_setup : M unit := emit EvDeviceSetup.
Definition run_once : M unit := emit EvRunOnce.
Definition comm_close : M unit := emit EvCommClose.

Section WithEnv.

Variable env : Env.

(** [scheduler.pause()]: returns, or raises [TerminationRequested]. *)
Definition scheduler_pause : M unit :=
  fun s =>
    let s' := mkRunner (points s) (_kscan_current_chunk s) (history s ++ [EvPause]) in
    if termination_requested env (history s)
    then (Raised TerminationRequested, s')
    else (Returned tt, s').

Definition scheduler_check_pause : M bool :=
  fun s =>
    let b := check_pause env (history s) in
    (Returned b,
     mkRunner (points s) (_kscan_current_chunk s) (history s ++ [EvCheckPause b])).

(** [core.get_rtio_counter_mu()], a 64-bit integer. *)
Definition rtio_counter : M Z :=
  fun s =>
    let t := wrap64 (get_rtio_counter_mu env (history s)) in
    (Returned t,
     mkRunner (points s) (_kscan_current_chunk s) (history s ++ [EvRtioCounter t])).

(** ** The host loop *)

(** [next(points, None)] *)
Definition next_point : M (option Point) :=
  fun s =>
    match points s with
    | [] => (Returned None, s)
    | p :: rest => (Returned (Some p), mkRunner rest (_kscan_current_chunk s) (history s))
    end.

Fixpoint _run_scan_on_host (fuel : nat) (axes : list ScanAxis)
    (axis_sinks : list nat) : M unit :=
  match fuel with
  | O => out_of_fuel
  | S fuel' =>
      axis_values <- next_point ;;
      match axis_values with
      | None => ret tt
      | Some axis_values =>
          for_each (zip axes (zip axis_values axis_sinks))
            (fun '(axis, (value, sink)) =>
               set_value Host (param_store axis) value ;;
               push sink value) ;;
          host_setup ;;
          device_setup ;;
          run_once ;;
          scheduler_pause ;;
          _run_scan_on_host fuel' axes axis_sinks
      end
  end.

(** ** The core device loop *)

Section Kscan.

(** Members set once by [_run_scan_on_core_device] and read by the
    [_kscan_*] methods. *)
Variable _kscan_axes : list ScanAxis.
Variable _kscan_axis_sinks : list nat.
Variable _kscan_pause_check_interval_mu : Z.

Definition CHUNK_SIZE : nat := 10.

(** The inner loop of [_kscan_param_values_chunk]:
    [for i, (value, axis) in enumerate(zip(p, axes)): values[i].append(...)] *)
Definition append_coerced (values : list (list Value)) (p : Point)
    : list (list Value) :=
  foldl (fun values '(i, (value, axis)) =>
           alter (fun column => column ++ [coerce (param_store axis) value]) i values)
        values
        (zip (seq 0 (length (zip p _kscan_axes))) (zip p _kscan_axes)).

(** [islice] rejects a negative count with [ValueError]; [values[0]] of
    an empty tuple is an [IndexError]. *)
Definition _kscan_param_values_chunk : M (list (list Value)) :=
  fun s =>
    let chunk := _kscan_current_chunk s in
    if decide (CHUNK_SIZE < length chunk)
    then (Raised ValueError, s)
    else
      let n := CHUNK_SIZE - length chunk in
      let chunk' := chunk ++ take n (points s) in
      let s' := mkRunner (drop n (points s)) chunk' (history s) in
      let values := foldl append_coerced (replicate (length _kscan_axes) []) chunk' in
      match values with
      | [] => (Raised IndexError, s')
      | [] :: _ => (Raised ScanFinished, s')
      | _ => (Returned values, s')
      end.

(** [try: m  except ScanFinished: return], telling whether [m] returned. *)
Definition unless_ScanFinished {A} (m : M A) : M bool :=
  fun s =>
    match m s with
    | (Returned _, s') => (Returned true, s')
    | (Raised ScanFinished, s') => (Returned false, s')
    | (Raised e, s') => (Raised e, s')
    | (OutOfFuel, s') => (OutOfFuel, s')
    end.

Definition current_chunk : M (list Point) :=
  fun s => (Returned (_kscan_current_chunk s), s).

Definition _kscan_update_host_param_stores : M unit :=
  chunk <- current_chunk ;;
  primed <- match chunk with
            | [] => unless_ScanFinished _kscan_param_values_chunk
            | _ => ret true
            end ;;
  if primed : bool then
    chunk <- current_chunk ;;
    match chunk with
    | [] => raise IndexError
    | next_values :: _ =>
        for_each (zip next_values _kscan_axes)
          (fun '(value, axis) => set_value Host (param_store axis) value)
    end
  else ret tt.

(** [self._kscan_current_chunk.pop(0)] *)
Definition pop_chunk : M Point :=
  fun s =>
    match _kscan_current_chunk s with
    | [] => (Raised IndexError, s)
    | values :: rest => (Returned values, mkRunner (points s) rest (history s))
    end.

Definition _kscan_point_completed : M unit :=
  emit EvPointCompleted ;;
  values <- pop_chunk ;;
  for_each (zip values _kscan_axis_sinks) (fun '(value, sink) => push sink value) ;;
  _kscan_update_host_param_stores.

Definition _kscan_run_fragment_once : M unit :=
  device_setup ;;
  run_once.

(** [self._kscan_param_setter_k(param_values_k[i])] for [k] below [n]. *)
Definition kscan_set_params (n : nat) (values : list (list Value)) (i : nat)
    : M unit :=
  for_each (seq 0 n)
    (fun k =>
       match _kscan_axes !! k with
       | None => raise AttributeError
       | Some axis =>
           match values !! k ≫= (.!! i) with
           | None => raise IndexError
           | Some v => set_value Device (param_store axis) v
           end
       end).

(** The body of the [for i in range(len(param_values_0))] loop. The result
    is [None] when the kernel returns, and otherwise the new
    [last_pause_check_mu]. *)
Definition kscan_point (n : nat) (values : list (list Value)) (i : nat)
    (last_pause_check_mu : Z) : M (option Z) :=
  kscan_set_params n values i ;;
  _kscan_run_fragment_once ;;
  _kscan_point_completed ;;
  current_time_mu <- rtio_counter ;;
  if (_kscan_pause_check_interval_mu <?
        wrap64 (current_time_mu - last_pause_check_mu))%Z
  then
    b <- scheduler_check_pause ;;
    if b : bool then ret None else ret (Some current_time_mu)
  else ret (Some last_pause_check_mu).

Fixpoint kscan_for (n : nat) (values : list (list Value)) (range : list nat)
    (last_pause_check_mu : Z) : M (option Z) :=
  match range with
  | [] => ret (Some last_pause_check_mu)
  | i :: range' =>
      r <- kscan_point n values i last_pause_check_mu ;;
      match r with
      | None => ret None
      | Some last => kscan_for n values range' last
      end
  end.

(** The [while True] loop of [_kscan_impl_n]; unpacking the tuple returned
    by the chunk RPC into [n] lists fails unless it has [n] entries. *)
Fixpoint kscan_while (fuel : nat) (n : nat) (last_pause_check_mu : Z) : M unit :=
  match fuel with
  | O => out_of_fuel
  | S fuel' =>
      values <- _kscan_param_values_chunk ;;
      if decide (length values = n) then
        r <- kscan_for n values (seq 0 (length (values !!! 0))) last_pause_check_mu ;;
        match r with
        | None => ret tt
        | Some last => kscan_while fuel' n last
        end
      else raise ValueError
  end.

Definition kscan_impl (fuel : nat) (n : nat) : M unit :=
  last_pause_check_mu <- rtio_counter ;;
  kscan_while fuel n last_pause_check_mu.

Definition _kscan_impl_1 (fuel : nat) : M unit := kscan_impl fuel 1.
Definition _kscan_impl_2 (fuel : nat) : M unit := kscan_impl fuel 2.
Definition _kscan_impl_3 (fuel : nat) : M unit := kscan_impl fuel 3.

(** [getattr(self, "_kscan_impl_{}".format(num_dims), None)] *)
Definition getattr_kscan_impl (fuel : nat) (num_dims : nat) : option (M unit) :=
  match num_dims with
  | 1 => Some (_kscan_impl_1 fuel)
  | 2 => Some (_kscan_impl_2 fuel)
  | 3 => Some (_kscan_impl_3 fuel)
  | _ => None
  end.

(** [with suppress(ScanFinished): m] *)
Definition suppress_ScanFinished (m : M unit) : M unit :=
  fun s =>
    match m s with
    | (Raised ScanFinished, s') => (Returned tt, s')
    | r => r
    end.

Fixpoint kscan_host_loop (fuel : nat) (scan_impl : M unit) : M unit :=
  match fuel with
  | O => out_of_fuel
  | S fuel' =>
      host_setup ;;
      scan_impl ;;
      comm_close ;;
      scheduler_pause ;;
      kscan_host_loop fuel' scan_impl
  end.

Definition reset_chunk : M unit :=
  fun s => (Returned tt, mkRunner (points s) [] (history s)).

End Kscan.

(** [type_string_to_param] is imported from [parameters.py], which is not
    part of the sources; it is a parameter here, giving the compiler type
    for a type string, and [None] where it raises. *)
Variable type_string_to_param : string -> option string.

(** The return annotation synthesised for the chunk RPC:
    [[type_string_to_param(a.param_schema["type"]).CompilerType for a in axes]].
    A schema without the key raises [KeyError]. *)
Fixpoint chunk_annotation (axes : list ScanAxis) : option (list string) :=
  match axes with
  | [] => Some []
  | a :: axes' =>
      match param_schema a !! "type"%string with
      | None => None
      | Some type =>
          match type_string_to_param type with
          | None => None
          | Some compiler_type =>
              match chunk_annotation axes' with
              | None => None
              | Some annotation => Some (compiler_type :: annotation)
              end
          end
      end
  end.

(** [interval_mu] is [core.seconds_to_mu(0.2)]. The kernel and the host
    run in turn: an RPC is served when the kernel issues it, which for the
    asynchronous [_kscan_point_completed] is the order in which the host
    serves the calls. *)
Definition _run_scan_on_core_device (interval_mu : Z) (fuel : nat)
    (axes : list ScanAxis) (axis_sinks : list nat) : M unit :=
  reset_chunk ;;
  match chunk_annotation axes with
  | None => raise KeyError
  | Some _ =>
      let num_dims := length axes in
      match getattr_kscan_impl axes axis_sinks interval_mu fuel num_dims with
      | None => raise (NotImplementedError num_dims)
      | Some scan_impl =>
          suppress_ScanFinished
            (_kscan_update_host_param_stores axes ;;
             kscan_host_loop fuel scan_impl)
      end
  end.

(** ** [ScanRunner.run] *)

Record ScanSpec := {
  axes : list ScanAxis;
  generators : list ScanGenerator;
  options : ScanOptions }.

(** [generate_points] is imported from [scan_generator.py], which is not
    part of the sources; it is a parameter here. [interval_mu] is
    [core.seconds_to_mu(0.2)]. *)
Definition run (generate_points : list ScanGenerator -> ScanOptions -> list Point)
    (interval_mu : Z) (fuel : nat)
    (fragment : ExpFragment) (spec : ScanSpec) (axis_sinks : list nat) : M unit :=
  fun s =>
    let s0 := mkRunner (generate_points (generators spec) (options spec))
                (_kscan_current_chunk s) (history s) in
    if run_once_is_kernel fragment
    then _run_scan_on_core_device interval_mu fuel (axes spec) axis_sinks s0
    else _run_scan_on_host fuel (axes spec) axis_sinks s0.

End WithEnv.

(** ** [filter_default_analyses] *)

(** [[(s.param_schema["fqn"], s.path) for s in spec.axes]]; a schema
    without the key raises [KeyError]. *)
Fixpoint axis_identities (axes : list ScanAxis) : option (list (string * string)) :=
  match axes with
  | [] => Some []
  | s :: axes' =>
      match param_schema s !! "fqn"%string with
      | None => None
      | Some fqn =>
          match axis_identities axes' with
          | None => None
          | Some ids => Some ((fqn, path s) :: ids)
          end
      end
  end.

Definition filter_default_analyses (fragment : ExpFragment) (spec : ScanSpec)
    : Outcome (list DefaultAnalysis) :=
  match axis_identities (axes spec) with
  | None => Raised KeyError
  | Some identities =>
      Returned
        (foldl (fun result analysis =>
                  if has_data analysis identities then result ++ [analysis] else result)
               [] (get_default_analyses fragment))
  end.

End ScanRunner.

Arguments ParamStore Value : clear implicits.
Arguments ScanAxis Value : clear implicits.
Arguments Event Value : clear implicits.
Arguments Env Value : clear implicits.
Arguments Runner Value : clear implicits.
Arguments M Value A : clear implicits.
Arguments ScanSpec Value ScanGenerator ScanOptions : clear implicits.

Abbreviation Point := list (only parsing).
Arguments mkRunner {Value} points _kscan_current_chunk history.
Arguments EvHostSetup {Value}.
Arguments EvDeviceSetup {Value}.
Arguments EvRunOnce {Value}.
Arguments EvPause {Value}.
Arguments EvCommClose {Value}.
Arguments EvRtioCounter {Value} t.
Arguments EvCheckPause {Value} b.
Arguments EvPointCompleted {Value}.

Notation "x <- m ;; k" := (bind m (fun x => k))
  (at level 100, m at next level, right associativity) : run_scope.
Notation "m ;; k" := (bind m (fun _ => k))
  (at level 100, right associativity) : run_scope.


(** ** Reading the history *)

Section Observations.

Context {Value : Type}.

(** What a sink contains: the values pushed to it, in order. *)
Definition pushed_to (sink : nat) (h : list (Event Value)) : list Value :=
  omap (fun e => match e with
                 | EvPush s v => if decide (s = sink) then Some v else None
                 | _ => None
                 end) h.

(** The values written to a store on one side, in order, and the value the
    store holds: the last one written. *)
Definition applied_to (side : Side) (store : nat) (h : list (Event Value))
    : list Value :=
  omap (fun e => match e with
                 | EvSetValue Host s v =>
                     match side with
                     | Host => if decide (s = store) then Some v else None
                     | Device => None
                     end
                 | EvSetValue Device s v =>
                     match side with
                     | Device => if decide (s = store) then Some v else None
                     | Host => None
                     end
                 | _ => None
                 end) h.

Definition store_value (side : Side) (store : nat) (h : list (Event Value))
    : option Value :=
  last (applied_to side store h).

Definition is_run_once (e : Event Value) : bool :=
  match e with EvRunOnce => true | _ => false end.

(** How many times the per-point callback has run. *)
Definition callbacks_run (h : list (Event Value)) : nat :=
  length (List.filter is_run_once h).

(** The values of axis [j] over a sequence of points. *)
Definition column (j : nat) (pts : list (Point Value)) : list Value :=
  omap (fun p : Point Value => p !! j) pts.

(** The events of one point on the host path, as the loop body issues
    them. *)
Definition host_point_events (axes : list (ScanAxis Value)) (axis_sinks : list nat)
    (p : Point Value) : list (Event Value) :=
  concat (map (fun '(axis, (value, sink)) =>
                 [EvSetValue Host (store_id (param_store axis)) value;
                  EvPush sink value])
              (zip axes (zip p axis_sinks)))
  ++ [EvHostSetup; EvDeviceSetup; EvRunOnce; EvPause].

(** The events of one point on the core device path that concern the
    point itself: the kernel applies the coerced values and runs the
    fragment, the completion RPC arrives, the coordinates are pushed. *)
Definition device_point_events (axes : list (ScanAxis Value)) (axis_sinks : list nat)
    (p : Point Value) : list (Event Value) :=
  map (fun '(axis, value) =>
         EvSetValue Device (store_id (param_store axis))
           (coerce (param_store axis) value))
      (zip axes p)
  ++ [EvDeviceSetup; EvRunOnce; EvPointCompleted]
  ++ map (fun '(value, sink) => EvPush sink value) (zip p axis_sinks).

(** The events kept when the core device history is compared with
    [device_point_events]: everything but the host-side bookkeeping
    (look-ahead writes to the host stores, kernel start and stop, the
    clock and the scheduler). *)
Definition is_point_event (e : Event Value) : bool :=
  match e with
  | EvSetValue Device _ _ | EvPush _ _ | EvDeviceSetup | EvRunOnce
  | EvPointCompleted => true
  | _ => false
  end.

Definition point_events (h : list (Event Value)) : list (Event Value) :=
  List.filter is_point_event h.

Definition is_host_set (e : Event Value) : bool :=
  match e with EvSetValue Host _ _ => true | _ => false end.

Definition is_push (e : Event Value) : bool :=
  match e with EvPush _ _ => true | _ => false end.

(** The points not yet delivered: on the core device path the chunk, then
    what is left in the iterator. *)
Definition undelivered (s : Runner Value) : list (Point Value) :=
  _kscan_current_chunk s ++ points s.

(** What is left of the scan: on the host path the iterator, on the core
    device path the chunk and the iterator. *)
Definition remaining (fragment : ExpFragment) (s : Runner Value)
    : list (Point Value) :=
  if run_once_is_kernel fragment then undelivered s else points s.


(** The stores of the axes are distinct objects. *)
Definition distinct_stores (axes : list (ScanAxis Value)) : Prop :=
  NoDup ((fun axis => store_id (param_store axis)) <$> axes).

(** Every point has one value per axis. *)
Definition points_match_axes (axes : list (ScanAxis Value))
    (pts : list (Point Value)) : Prop :=
  Forall (fun p : Point Value => length p = length axes) pts.

(** The state of a runner between two operations of the core device
    path: the chunk is within its bound, every point still to deliver has
    one value per axis, and there is an axis. *)
Definition runner_ok (axes : list (ScanAxis Value)) (s : Runner Value) : Prop :=
  length (_kscan_current_chunk s) ≤ CHUNK_SIZE ∧
  points_match_axes axes (undelivered s) ∧
  0 < length axes.

(** The look-ahead writes of [_kscan_update_host_param_stores]. *)
Definition host_shadow_events (axes : list (ScanAxis Value))
    (chunk : list (Point Value)) : list (Event Value) :=
  match chunk with
  | [] => []
  | next_values :: _ =>
      map (fun '(value, axis) => EvSetValue Host (store_id (param_store axis)) value)
          (zip next_values axes)
  end.

(** The host store of every axis holds the value the point [p] has for
    that axis. *)
Definition shadows (axes : list (ScanAxis Value)) (h : list (Event Value))
    (p : Point Value) : Prop :=
  ∀ j a, axes !! j = Some a →
    store_value Host (store_id (param_store a)) h = p !! j.

(** The point the host stores are to show: the next point to deliver,
    and once nothing is left the point delivered last, [prev]. *)
Definition shadow_point (und : list (Point Value)) (prev : option (Point Value))
    : option (Point Value) :=
  match und with
  | next :: _ => Some next
  | [] => prev
  end.

Definition shadowed (axes : list (ScanAxis Value)) (h : list (Event Value))
    (und : list (Point Value)) (prev : option (Point Value)) : Prop :=
  ∀ q, shadow_point und prev = Some q → shadows axes h q.

(** From the history [h0] to its extension [h] the callback has run for
    the points [delivered], in that order, and every time it was started
    the host stores held the values of its point. *)
Definition callbacks_shadowed (axes : list (ScanAxis Value))
    (h0 h : list (Event Value)) (delivered : list (Point Value)) : Prop :=
  (∃ evs, h = h0 ++ evs) ∧
  callbacks_run h = callbacks_run h0 + length delivered ∧
  ∀ i p, delivered !! i = Some p →
    ∃ before after,
      h = before ++ [EvDeviceSetup; EvRunOnce; EvPointCompleted] ++ after ∧
      callbacks_run before = callbacks_run h0 + i ∧
      shadows axes before p.

(** ** The pause throttle, as a monitor over the history

    Follows the words of the requirement: [check_pause] may be queried only
    right after the clock was read following the completion of a point, and
    only if the clock then read more than the interval past the reference
    time; the reference time is the clock read at kernel entry (the read
    that follows [host_setup]) or at the last query that said not to
    pause. *)

Inductive Phase :=
  | Entering               (* host_setup done, the kernel is about to start *)
  | Running                (* no point completed since the last query *)
  | Completed              (* a point was completed, nothing started since *)
  | ClockRead (t : Z).     (* ... and the clock was read *)

Record Monitor := {
  mon_phase : Phase;
  mon_reference : Z }.

Definition mon_step (interval : Z) (m : Monitor) (e : Event Value)
    : option Monitor :=
  match e with
  | EvHostSetup => Some {| mon_phase := Entering; mon_reference := mon_reference m |}
  | EvRtioCounter t =>
      match mon_phase m with
      | Entering => Some {| mon_phase := Running; mon_reference := t |}
      | Completed | ClockRead _ =>
          Some {| mon_phase := ClockRead t; mon_reference := mon_reference m |}
      | Running => Some m
      end
  | EvCheckPause b =>
      match mon_phase m with
      | ClockRead t =>
          if (interval <? wrap64 (t - mon_reference m))%Z
          then Some {| mon_phase := Running;
                       mon_reference := if b then mon_reference m else t |}
          else None
      | _ => None
      end
  | EvPointCompleted =>
      Some {| mon_phase := Completed; mon_reference := mon_reference m |}
  | EvSetValue Device _ _ | EvDeviceSetup | EvRunOnce | EvPause | EvCommClose =>
      Some {| mon_phase := Running; mon_reference := mon_reference m |}
  | EvSetValue Host _ _ | EvPush _ _ => Some m
  end.

Fixpoint mon_run (interval : Z) (m : Monitor) (h : list (Event Value))
    : option Monitor :=
  match h with
  | [] => Some m
  | e :: h' =>
      match mon_step interval m e with
      | None => None
      | Some m' => mon_run interval m' h'
      end
  end.

Definition throttled (interval : Z) (h : list (Event Value)) : bool :=
  match mon_run interval {| mon_phase := Running; mon_reference := 0 |} h with
  | Some _ => true
  | None => false
  end.

(** The monitor has accepted what was added to the history [h0] to make
    it [h], and is in state [m]. *)
Definition monitored (interval : Z) (h0 h : list (Event Value))
    (m : Monitor) : Prop :=
  ∃ evs,
    h = h0 ++ evs ∧
    mon_run interval {| mon_phase := Running; mon_reference := 0 |} evs = Some m.

End Observations.

(** ** Concrete scans *)

Module Examples.

Definition float_store (id : nat) : ParamStore Z :=
  {| store_id := id; coerce := fun v => v |}.

(** A store for an integer parameter scanned with values in tenths:
    coercion drops the fractional digit. *)
Definition int_store (id : nat) : ParamStore Z :=
  {| store_id := id; coerce := fun v => (Z.quot v 10 * 10)%Z |}.

Definition schema (fqn : string) : gmap string string :=
  {[ "fqn"%string := fqn; "type"%string := "float"%string ]}.

Definition axis_a : ScanAxis Z :=
  {| param_schema := schema "fixtures.AddOneFragment.value";
     path := "child";
     param_store := float_store 0 |}.

Definition axis_b : ScanAxis Z :=
  {| param_schema := schema "fixtures.TwoAnalysisFragment.b";
     path := "child";
     param_store := int_store 1 |}.

(** An axis whose schema lacks the "fqn" key. *)
Definition axis_nameless : ScanAxis Z :=
  {| param_schema := {[ "type"%string := "float"%string ]};
     path := "child";
     param_store := float_store 2 |}.

(** The scheduler never asks to pause and never terminates; the clock
    advances by 100 per event. *)
Definition calm : Env Z :=
  {| termination_requested := fun _ => false;
     check_pause := fun _ => false;
     get_rtio_counter_mu := fun h => (100 * Z.of_nat (length h))%Z |}.

(** The scheduler asks to pause at every query and terminates the run at
    the first [pause()] that follows the completion of [k] points. *)
Definition terminate_after (k : nat) : Env Z :=
  {| termination_requested := fun h => bool_decide (k <= callbacks_run h);
     check_pause := fun _ => true;
     get_rtio_counter_mu := fun h => (100 * Z.of_nat (length h))%Z |}.

(** The scheduler asks to pause at every query, and every [pause()]
    returns. *)
Definition restless : Env Z :=
  {| termination_requested := fun _ => false;
     check_pause := fun _ => true;
     get_rtio_counter_mu := fun h => (100 * Z.of_nat (length h))%Z |}.

Definition start (pts : list (Point Z)) : Runner Z := mkRunner pts [] [].

(** The type strings of ndscan parameters. *)
Definition param_types (type : string) : option string :=
  if bool_decide (type ∈ ["float"; "int"; "string"]%string)
  then Some ("T" +:+ type)%string else None.

Definition host_fragment : ExpFragment :=
  {| run_once_is_kernel := false; get_default_analyses := [] |}.

Definition kernel_fragment : ExpFragment :=
  {| run_once_is_kernel := true; get_default_analyses := [] |}.

(** A generator is its list of values; one axis, or the cross product of
    two, last axis fastest. *)
Definition cross (generators : list (list Z)) (_ : unit) : list (Point Z) :=
  match generators with
  | [xs] => map (fun x => [x]) xs
  | [xs; ys] => x ← xs; map (fun y => [x; y]) ys
  | _ => []
  end.

Definition spec_1d : ScanSpec Z (list Z) unit :=
  {| axes := [axis_a]; generators := [[0; 1; 2; 3]%Z]; options := tt |}.

Definition spec_2d : ScanSpec Z (list Z) unit :=
  {| axes := [axis_a; axis_b];
     generators := [[0; 1]%Z; [17; 25]%Z];
     options := tt |}.

Definition analysis_needs (id : nat) (needed : list (string * string))
    : DefaultAnalysis :=
  {| analysis_id := id;
     has_data := fun identities =>
       forallb (fun x => bool_decide (x ∈ identities)) needed |}.

Definition two_analysis_fragment : ExpFragment :=
  {| run_once_is_kernel := false;
     get_default_analyses :=
       [analysis_needs 0 [("fixtures.AddOneFragment.value", "child")%string];
        analysis_needs 1 [("fixtures.TwoAnalysisFragment.b", "child")%string];
        analysis_needs 2 []] |}.

End Examples.

(** ** [describe_scan] *)

Section DescribeScan.

Context {Value ScanGenerator ScanOptions : Type}.
Context {ResultChannel ChannelDescription Annotation OnlineAnalysis Seed AxisLimit : Type}.

(** What the dictionary that describes an axis can hold: the schema under
    "param", the path under "path", and what [describe_limits] adds. *)
Inductive AxisEntry :=
  | ParamEntry (schema : gmap string string)
  | PathEntry (path : string)
  | LimitEntry (limit : AxisLimit).

(** The methods of other modules that [describe_scan] calls; none of them
    is part of the sources. [describe_limits] updates the dictionary it is
    given. [describe_online_analyses] takes an [AnnotationContext], which is
    built from the axis identities and the short result names and is
    given here as these two; it returns the annotations and the items of
    the dictionary of online analyses (in a dictionary every name occurs
    once). *)
Record Describers := {
  fragment_fqn : ExpFragment -> string;
  describe_limits : ScanGenerator -> gmap string AxisEntry -> gmap string AxisEntry;
  options_seed : ScanOptions -> Seed;
  channel_describe : ResultChannel -> ChannelDescription;
  describe_online_analyses :
    DefaultAnalysis -> list (string * string) -> list (ResultChannel * string) ->
    list Annotation * list (string * OnlineAnalysis) }.

(** The dictionary [desc], with its six keys. *)
Record ScanDescription := {
  desc_fragment_fqn : string;
  desc_axes : list (gmap string AxisEntry);
  desc_seed : Seed;
  desc_channels : gmap string ChannelDescription;
  desc_annotations : list Annotation;
  desc_online_analyses : gmap string OnlineAnalysis }.

Variable D : Describers.

(** [[{"param": ax.param_schema, "path": ax.path} for ax in spec.axes]] *)
Definition axis_spec (ax : ScanAxis Value) : gmap string AxisEntry :=
  <["path"%string := PathEntry (path ax)]>
    (<["param"%string := ParamEntry (param_schema ax)]> ∅).

(** [for ax, gen in zip(axis_specs, spec.generators): gen.describe_limits(ax)] *)
Fixpoint describe_axes (axis_specs : list (gmap string AxisEntry))
    (generators : list ScanGenerator) : list (gmap string AxisEntry) :=
  match axis_specs, generators with
  | ax :: axis_specs', gen :: generators' =>
      describe_limits D gen ax :: describe_axes axis_specs' generators'
  | _, _ => axis_specs
  end.

(** [[{name: channel.describe() for (channel, name) in short_result_names.items()}]] *)
Definition describe_channels (short_result_names : list (ResultChannel * string))
    : gmap string ChannelDescription :=
  foldl (fun channels '(channel, name) =>
           <[name := channel_describe D channel]> channels)
        ∅ short_result_names.

(** The inner loop over [online_analyses.items()]. *)
Fixpoint add_online_analyses (online : gmap string OnlineAnalysis)
    (items : list (string * OnlineAnalysis)) : Outcome (gmap string OnlineAnalysis) :=
  match items with
  | [] => Returned online
  | (name, spec) :: items' =>
      match online !! name with
      | Some _ => Raised ValueError
      | None => add_online_analyses (<[name := spec]> online) items'
      end
  end.

(** The loop over the applicable analyses. *)
Fixpoint describe_analyses (identities : list (string * string))
    (short_result_names : list (ResultChannel * string))
    (analyses : list DefaultAnalysis)
    (annotations : list Annotation) (online : gmap string OnlineAnalysis)
    : Outcome (list Annotation * gmap string OnlineAnalysis) :=
  match analyses with
  | [] => Returned (annotations, online)
  | analysis :: analyses' =>
      let '(new_annotations, online_analyses) :=
        describe_online_analyses D analysis identities short_result_names in
      match add_online_analyses online online_analyses with
      | Returned online' =>
          describe_analyses identities short_result_names analyses'
            (annotations ++ new_annotations) online'
      | Raised e => Raised e
      | OutOfFuel => OutOfFuel
      end
  end.

Definition describe_scan (spec : ScanSpec Value ScanGenerator ScanOptions)
    (fragment : ExpFragment) (short_result_names : list (ResultChannel * string))
    : Outcome ScanDescription :=
  let axis_specs := describe_axes (map axis_spec (axes spec)) (generators spec) in
  let channels := describe_channels short_result_names in
  match axis_identities (axes spec) with
  | None => Raised KeyError
  | Some identities =>
      match filter_default_analyses fragment spec with
      | Returned analyses =>
          match describe_analyses identities short_result_names analyses [] ∅ with
          | Returned (annotations, online) =>
              Returned {| desc_fragment_fqn := fragment_fqn D fragment;
                          desc_axes := axis_specs;
                          desc_seed := options_seed D (options spec);
                          desc_channels := channels;
                          desc_annotations := annotations;
                          desc_online_analyses := online |}
          | Raised e => Raised e
          | OutOfFuel => OutOfFuel
          end
      | Raised e => Raised e
      | OutOfFuel => OutOfFuel
      end
  end.

(** The channel that ends up under a short name: the last one that has
    it. *)
Definition last_channel_named (name : string)
    (short_result_names : list (ResultChannel * string)) : option ResultChannel :=
  last (omap (fun '(channel, name') =>
                if decide (name' = name) then Some channel else None)
             short_result_names).

End DescribeScan.

Arguments AxisEntry AxisLimit : clear implicits.
Arguments Describers : clear implicits.
Arguments ScanDescription : clear implicits.

(** * The scan experiment ([ndscan/experiment.py])

    [FragmentScanExperiment], the experiment that runs a fragment once,
    continuously, or over a scan. It has a scan loop of its own, older than
    the one of [scan_runner.py]. What it does to the datasets, the stores,
    the fragment and the scheduler is recorded in a [log]. *)

Module FragmentScanExperiment.

Declare Scope exp_scope.
Delimit Scope exp_scope with exp.

Section Experiment.

Context {Value : Type}.

Inductive DatasetValue :=
  | DBool (b : bool)
  | DValue (v : Value)
  | DText (text : string).

Inductive Call :=
  | SetDataset (key : string) (value : DatasetValue)
  | AppendToDataset (key : string) (value : Value)
  | SetValue (side : Side) (store : nat) (v : Value)
  | HostSetup
  | DeviceSetup
  | DeviceReset
  | RunOnce
  | Pause
  | CheckPause (b : bool)
  | CommClose
  | CoreReset
  | IssueCcb.

(** The scheduler answers as a function of what happened so far: whether
    [pause()] raises [TerminationRequested], what [check_pause()] returns. *)
Record Scheduler := {
  pause_raises : list Call -> bool;
  should_pause : list Call -> bool }.

(** The values [_broadcast_metadata] publishes; they come from the
    fragment, the scheduler and the scan, outside this file. *)
Record Metadata := {
  meta_fragment_fqn : DatasetValue;
  meta_rid : DatasetValue;
  meta_axes : DatasetValue;
  meta_seed : DatasetValue;
  meta_channels : DatasetValue }.

Record Experiment := mkExperiment {
  _kscan_points : list (list Value);
  _kscan_current_chunk : list (list Value);
  _point_phase : bool;
  log : list Call }.

Definition X (A : Type) : Type := Experiment -> Outcome A * Experiment.

Definition ret {A} (a : A) : X A := fun s => (Returned a, s).

Definition raise {A} (e : Exn) : X A := fun s => (Raised e, s).

Definition out_of_fuel {A} : X A := fun s => (OutOfFuel, s).

Definition bind {A B} (m : X A) (k : A -> X B) : X B :=
  fun s =>
    match m s with
    | (Returned a, s') => k a s'
    | (Raised e, s') => (Raised e, s')
    | (OutOfFuel, s') => (OutOfFuel, s')
    end.

Notation "x <- m ;; k" := (bind m (fun x => k))
  (at level 100, m at next level, right associativity) : exp_scope.
Notation "m ;; k" := (bind m (fun _ => k))
  (at level 100, right associativity) : exp_scope.
Local Open Scope exp_scope.

Definition emit (c : Call) : X unit :=
  fun s => (Returned tt,
            mkExperiment (_kscan_points s) (_kscan_current_chunk s) (_point_phase s)
              (log s ++ [c])).

(** [with suppress(TerminationRequested): m] *)
Definition suppress_TerminationRequested (m : X unit) : X unit :=
  fun s =>
    match m s with
    | (Raised TerminationRequested, s') => (Returned tt, s')
    | r => r
    end.

(** [try: m  finally: final] *)
Definition try_finally (m : X unit) (final : X unit) : X unit :=
  fun s =>
    match m s with
    | (OutOfFuel, s') => (OutOfFuel, s')
    | (o, s') =>
        match final s' with
        | (Returned _, s'') => (o, s'')
        | (Raised e, s'') => (Raised e, s'')
        | (OutOfFuel, s'') => (OutOfFuel, s'')
        end
    end.

Variable scheduler : Scheduler.
Variable fragment : ExpFragment.
Variable metadata : Metadata.

(** [self._scan]: its axes and its [continuous_without_axes] flag. *)
Variable axes : list (ScanAxis Value).
Variable continuous_without_axes : bool.

Definition scheduler_pause : X unit :=
  fun s =>
    let s' := mkExperiment (_kscan_points s) (_kscan_current_chunk s) (_point_phase s)
                (log s ++ [Pause]) in
    if pause_raises scheduler (log s)
    then (Raised TerminationRequested, s')
    else (Returned tt, s').

Definition scheduler_check_pause : X bool :=
  fun s =>
    let b := should_pause scheduler (log s) in
    (Returned b,
     mkExperiment (_kscan_points s) (_kscan_current_chunk s) (_point_phase s)
       (log s ++ [CheckPause b])).

Definition _set_completed : X unit :=
  emit (SetDataset "ndscan.completed" (DBool true)).

Definition _broadcast_metadata : X unit :=
  emit (SetDataset "ndscan.fragment_fqn" (meta_fragment_fqn metadata)) ;;
  emit (SetDataset "ndscan.rid" (meta_rid metadata)) ;;
  emit (SetDataset "ndscan.completed" (DBool false)) ;;
  emit (SetDataset "ndscan.axes" (meta_axes metadata)) ;;
  emit (SetDataset "ndscan.seed" (meta_seed metadata)) ;;
  emit (SetDataset "ndscan.channels" (meta_channels metadata)).

Definition _issue_ccb : X unit := emit IssueCcb.

Definition _broadcast_point_phase : X unit :=
  fun s =>
    let phase := negb (_point_phase s) in
    (Returned tt,
     mkExperiment (_kscan_points s) (_kscan_current_chunk s) phase
       (log s ++ [SetDataset "ndscan.point_phase" (DBool phase)])).

(** [self._point_phase = False] *)
Definition reset_point_phase : X unit :=
  fun s => (Returned tt,
            mkExperiment (_kscan_points s) (_kscan_current_chunk s) false (log s)).

(** ** Running without axes *)

(** The [while not self.scheduler.check_pause()] loop of
    [_continuous_loop], with its local [first]. *)
Fixpoint continuous_while (fuel : nat) (first : bool) : X unit :=
  match fuel with
  | O => out_of_fuel
  | S fuel' =>
      b <- scheduler_check_pause ;;
      if b : bool then ret tt
      else
        (if first then emit DeviceSetup else emit DeviceReset) ;;
        emit RunOnce ;;
        _broadcast_point_phase ;;
        if continuous_without_axes then continuous_while fuel' false
        else ret tt
  end.

Definition _continuous_loop (fuel : nat) : X unit := continuous_while fuel true.

Definition _run_continuous_kernel (fuel : nat) : X unit :=
  emit CoreReset ;;
  _continuous_loop fuel.

(** The [while True] loop of [_run_single]. *)
Fixpoint run_single_while (fuel : nat) (loop_fuel : nat) : X unit :=
  match fuel with
  | O => out_of_fuel
  | S fuel' =>
      emit HostSetup ;;
      reset_point_phase ;;
      (if run_once_is_kernel fragment
       then _run_continuous_kernel loop_fuel ;; emit CommClose
       else _continuous_loop loop_fuel) ;;
      if continuous_without_axes
      then scheduler_pause ;; run_single_while fuel' loop_fuel
      else ret tt
  end.

Definition _run_single (fuel : nat) : X unit :=
  try_finally (suppress_TerminationRequested (run_single_while fuel fuel))
    _set_completed.

(** ** Running a scan *)

(** ["ndscan.points.axis_{}".format(i)] *)
Definition axis_key (i : nat) : string := "ndscan.points.axis_" +:+ pretty i.

Definition next_point : X (option (list Value)) :=
  fun s =>
    match _kscan_points s with
    | [] => (Returned None, s)
    | p :: rest =>
        (Returned (Some p),
         mkExperiment rest (_kscan_current_chunk s) (_point_phase s) (log s))
    end.

(** [for i, (a, p) in enumerate(zip(self._scan.axes, axis_values))] *)
Fixpoint host_set_axes (i : nat) (l : list (ScanAxis Value * Value)) : X unit :=
  match l with
  | [] => ret tt
  | (a, p) :: l' =>
      emit (SetValue Host (store_id (param_store a)) p) ;;
      emit (AppendToDataset (axis_key i) p) ;;
      host_set_axes (S i) l'
  end.

Fixpoint host_scan_while (fuel : nat) : X unit :=
  match fuel with
  | O => out_of_fuel
  | S fuel' =>
      axis_values <- next_point ;;
      match axis_values with
      | None => ret tt
      | Some axis_values =>
          host_set_axes 0 (zip axes axis_values) ;;
          emit DeviceSetup ;;
          emit RunOnce ;;
          scheduler_pause ;;
          host_scan_while fuel'
      end
  end.

Definition _run_scan_on_host (fuel : nat) : X unit :=
  suppress_TerminationRequested
    (host_scan_while fuel ;;
     _set_completed).

(** [values = ([],) * len(self._scan.axes)] is a tuple whose entries all
    refer to one list, [cell] here. [values[i].append(v)] appends to that
    list, whatever [i], and fails if [i] is not an index of the tuple. The
    value is appended to the dataset first. *)
Fixpoint record_point (n : nat) (i : nat) (p : list Value) (cell : list Value)
    : X (list Value) :=
  match p with
  | [] => ret cell
  | v :: p' =>
      emit (AppendToDataset (axis_key i) v) ;;
      if decide (i < n) then record_point n (S i) p' (cell ++ [v])
      else raise IndexError
  end.

Fixpoint record_chunk (n : nat) (chunk : list (list Value)) (cell : list Value)
    : X (list Value) :=
  match chunk with
  | [] => ret cell
  | p :: chunk' =>
      cell' <- record_point n 0 p cell ;;
      record_chunk n chunk' cell'
  end.

(** The tuple that is returned holds the same list at every position. *)
Definition _kscan_param_values_chunk : X (list (list Value)) :=
  fun s =>
    let chunk := _kscan_current_chunk s in
    if decide (CHUNK_SIZE < length chunk)
    then (Raised ValueError, s)
    else
      let n := CHUNK_SIZE - length chunk in
      let chunk' := chunk ++ take n (_kscan_points s) in
      let s' := mkExperiment (drop n (_kscan_points s)) chunk' (_point_phase s) (log s) in
      (cell <- record_chunk (length axes) chunk' [] ;;
       ret (replicate (length axes) cell)) s'.

(** [self._kscan_current_chunk.pop(0)] *)
Definition _kscan_point_completed : X unit :=
  fun s =>
    match _kscan_current_chunk s with
    | [] => (Raised IndexError, s)
    | _ :: rest =>
        (Returned tt, mkExperiment (_kscan_points s) rest (_point_phase s) (log s))
    end.

(** [self._kscan_param_setter_k(param_values_k[i])] for [k] below [n]. *)
Fixpoint kscan_set_params (n : nat) (k : nat) (values : list (list Value)) (i : nat)
    : X unit :=
  match n with
  | O => ret tt
  | S n' =>
      match axes !! k with
      | None => raise AttributeError
      | Some axis =>
          match values !! k ≫= (.!! i) with
          | None => raise IndexError
          | Some v =>
              emit (SetValue Device (store_id (param_store axis)) v) ;;
              kscan_set_params n' (S k) values i
          end
      end
  end.

(** The [for i in range(len(param_values_0))] loop. *)
Fixpoint kscan_for (n : nat) (values : list (list Value)) (range : list nat)
    : X unit :=
  match range with
  | [] => ret tt
  | i :: range' =>
      kscan_set_params n 0 values i ;;
      emit DeviceSetup ;;
      emit RunOnce ;;
      _kscan_point_completed ;;
      kscan_for n values range'
  end.

(** The [while True] loop of [_kscan_impl_n]: a chunk, its points, then
    the question whether to pause. *)
Fixpoint kscan_impl (fuel : nat) (n : nat) : X unit :=
  match fuel with
  | O => out_of_fuel
  | S fuel' =>
      values <- _kscan_param_values_chunk ;;
      if decide (length values = n) then
        kscan_for n values (seq 0 (length (values !!! 0))) ;;
        b <- scheduler_check_pause ;;
        if b : bool then ret tt else kscan_impl fuel' n
      else raise ValueError
  end.

Definition _kscan_impl_1 (fuel : nat) : X unit := kscan_impl fuel 1.
Definition _kscan_impl_2 (fuel : nat) : X unit := kscan_impl fuel 2.

(** [getattr(self, "_kscan_impl_{}".format(num_dims), None)] *)
Definition getattr_kscan_impl (fuel : nat) (num_dims : nat) : option (X unit) :=
  match num_dims with
  | 1 => Some (_kscan_impl_1 fuel)
  | 2 => Some (_kscan_impl_2 fuel)
  | _ => None
  end.

Variable type_string_to_param : string -> option string.

Definition reset_chunk : X unit :=
  fun s => (Returned tt,
            mkExperiment (_kscan_points s) [] (_point_phase s) (log s)).

Definition _run_scan_on_kernel (fuel : nat) : X unit :=
  reset_chunk ;;
  match chunk_annotation type_string_to_param axes with
  | None => raise KeyError
  | Some _ =>
      let num_dims := length axes in
      match getattr_kscan_impl fuel num_dims with
      | None => raise (NotImplementedError num_dims)
      | Some scan_impl => scan_impl
      end
  end.

(** [generate_points(self._scan)] is what [_kscan_points] holds at the
    start. *)
Definition _run_scan (fuel : nat) : X unit :=
  emit HostSetup ;;
  if run_once_is_kernel fragment
  then _run_scan_on_kernel fuel
  else _run_scan_on_host fuel.

Definition run (fuel : nat) : X unit :=
  _broadcast_metadata ;;
  _issue_ccb ;;
  (match axes with
   | [] => _run_single fuel
   | _ => _run_scan fuel
   end) ;;
  _set_completed.

(** ** Reading the log *)

Definition appended_to (key : string) (l : list Call) : list Value :=
  omap (fun c => match c with
                 | AppendToDataset key' v =>
                     if decide (key' = key) then Some v else None
                 | _ => None
                 end) l.

(** The values a dataset was set to, in order; the last is its value. *)
Definition set_to (key : string) (l : list Call) : list DatasetValue :=
  omap (fun c => match c with
                 | SetDataset key' v =>
                     if decide (key' = key) then Some v else None
                 | _ => None
                 end) l.

(** The values written to a store on one side, in order. *)
Definition applied_to (side : Side) (store : nat) (l : list Call) : list Value :=
  omap (fun c => match c with
                 | SetValue Host s v =>
                     match side with
                     | Host => if decide (s = store) then Some v else None
                     | Device => None
                     end
                 | SetValue Device s v =>
                     match side with
                     | Device => if decide (s = store) then Some v else None
                     | Host => None
                     end
                 | _ => None
                 end) l.

Definition is_run_once (c : Call) : bool :=
  match c with RunOnce => true | _ => false end.

Definition callbacks_run (l : list Call) : nat :=
  length (List.filter is_run_once l).

(** The calls of [n] turns of the continuous loop, starting from the
    given point phase: the first turn sets the device up, the others
    reset it; every turn toggles the point phase. *)
Fixpoint continuous_turns (n : nat) (first : bool) (phase : bool) : list Call :=
  match n with
  | O => []
  | S n' =>
      [CheckPause false; (if first then DeviceSetup else DeviceReset); RunOnce;
       SetDataset "ndscan.point_phase" (DBool (negb phase))]
      ++ continuous_turns n' false (negb phase)
  end.

(** The calls of one point of the host scan loop: for each axis, from
    axis number [i] on, the store is written and the value appended to the
    dataset of the axis; then the fragment runs and the scheduler is
    given a chance to pause. *)
Fixpoint host_axis_calls (i : nat) (l : list (ScanAxis Value * Value)) : list Call :=
  match l with
  | [] => []
  | (a, v) :: l' =>
      SetValue Host (store_id (param_store a)) v ::
      AppendToDataset (axis_key i) v ::
      host_axis_calls (S i) l'
  end.

Definition host_point_calls (p : list Value) : list Call :=
  host_axis_calls 0 (zip axes p) ++ [DeviceSetup; RunOnce; Pause].

(** The dataset appends of a chunk request for one point, from value
    number [i] on. *)
Fixpoint point_appends (i : nat) (p : list Value) : list Call :=
  match p with
  | [] => []
  | v :: p' => AppendToDataset (axis_key i) v :: point_appends (S i) p'
  end.

(** What [run] publishes before it starts the fragment. *)
Definition metadata_calls : list Call :=
  [SetDataset "ndscan.fragment_fqn" (meta_fragment_fqn metadata);
   SetDataset "ndscan.rid" (meta_rid metadata);
   SetDataset "ndscan.completed" (DBool false);
   SetDataset "ndscan.axes" (meta_axes metadata);
   SetDataset "ndscan.seed" (meta_seed metadata);
   SetDataset "ndscan.channels" (meta_channels metadata);
   IssueCcb].


End Experiment.

Arguments DatasetValue Value : clear implicits.
Arguments Call Value : clear implicits.
Arguments Scheduler Value : clear implicits.
Arguments Metadata Value : clear implicits.
Arguments Experiment Value : clear implicits.
Arguments X Value A : clear implicits.
Arguments mkExperiment {Value} _kscan_points _kscan_current_chunk _point_phase log.
Arguments HostSetup {Value}.
Arguments DeviceSetup {Value}.
Arguments DeviceReset {Value}.
Arguments RunOnce {Value}.
Arguments Pause {Value}.
Arguments CheckPause {Value} b.
Arguments CommClose {Value}.
Arguments CoreReset {Value}.
Arguments IssueCcb {Value}.
Arguments DBool {Value} b.
Arguments DText {Value} text.

Notation "x <- m ;; k" := (bind m (fun x => k))
  (at level 100, m at next level, right associativity) : exp_scope.
Notation "m ;; k" := (bind m (fun _ => k))
  (at level 100, right associativity) : exp_scope.

End FragmentScanExperiment.

(** * Examples for the description and for the scan experiment *)

Module DescribeExamples.

Import Examples.

(** Generators are lists of values and describe their limits by their
    first and last value; a channel is a number and describes itself by a
    name; every analysis annotates the scan with one line and offers one
    online analysis, named after its number modulo [classes]. *)
Definition describers (classes : nat)
    : Describers (list Z) unit nat string string nat nat Z :=
  {| fragment_fqn := fun _ => "fixtures.TwoAnalysisFragment"%string;
     describe_limits := fun gen ax =>
       <["max"%string := LimitEntry (default 0%Z (last gen))]>
         (<["min"%string := LimitEntry (default 0%Z (head gen))]> ax);
     options_seed := fun _ => 42;
     channel_describe := fun channel => ("channel_" +:+ pretty channel)%string;
     describe_online_analyses := fun analysis _ _ =>
       ([("annotation_" +:+ pretty (analysis_id analysis))%string],
        [(("fit_" +:+ pretty (analysis_id analysis `mod` classes))%string,
          analysis_id analysis)]) |}.

(** Three analyses that are always applicable. *)
Definition three_analysis_fragment : ExpFragment :=
  {| run_once_is_kernel := false;
     get_default_analyses :=
       [analysis_needs 0 []; analysis_needs 1 []; analysis_needs 2 []] |}.

(** Channels 0 and 2 share the short name "result". *)
Definition short_names : list (nat * string) :=
  [(0, "result"); (1, "other"); (2, "result")]%string.

End DescribeExamples.

Module ExperimentExamples.

Import FragmentScanExperiment.

(** The scheduler never asks to pause and never terminates the run. *)
Definition patient : Scheduler Z :=
  {| pause_raises := fun _ => false; should_pause := fun _ => false |}.

(** The scheduler asks to pause once the fragment has run [k] times. *)
Definition pause_after (k : nat) : Scheduler Z :=
  {| pause_raises := fun _ => false;
     should_pause := fun l => bool_decide (k <= callbacks_run l) |}.

(** The scheduler terminates the run at the first [pause()] after the
    fragment has run [k] times. *)
Definition stop_after (k : nat) : Scheduler Z :=
  {| pause_raises := fun l => bool_decide (k <= callbacks_run l);
     should_pause := fun _ => false |}.

(** The scheduler asks to pause once the fragment has run [k] times, and
    the [pause()] that follows terminates the run. *)
Definition stop_when_paused (k : nat) : Scheduler Z :=
  {| pause_raises := fun l => bool_decide (k <= callbacks_run l);
     should_pause := fun l => bool_decide (k <= callbacks_run l) |}.

Definition metadata_of (rid : string) : Metadata Z :=
  {| meta_fragment_fqn := DText "fixtures.AddOneFragment";
     meta_rid := DText rid;
     meta_axes := DText "[value]";
     meta_seed := DText "0";
     meta_channels := DText "{result}" |}.

Definition fresh (pts : list (list Z)) : Experiment Z :=
  mkExperiment pts [] false [].

(** The numbers from 0 on, one point each. *)
Definition ramp (n : nat) : list (list Z) :=
  map (fun i => [Z.of_nat i]) (seq 0 n).

End ExperimentExamples.

(** * Properties *)

Section Properties.

Context {Value ScanGenerator ScanOptions : Type}.

Implicit Types (s : Runner Value) (h : list (Event Value))
  (p : Point Value) (pts : list (Point Value))
  (axes : list (ScanAxis Value)) (sinks : list nat).

Local Open Scope run_scope.

(** ** Loops that only issue events *)

Lemma for_each_events {A} (l : list A) (body : A -> M Value unit)
    (f : A -> list (Event Value)) :
  (∀ x s, body x s =
     (Returned tt, mkRunner (points s) (_kscan_current_chunk s) (history s ++ f x))) →
  ∀ s, for_each l body s =
    (Returned tt,
     mkRunner (points s) (_kscan_current_chunk s) (history s ++ concat (map f l))).
Proof.
  intros Hbody. induction l as [|x l IH]; intros s; simpl.
  - unfold ret. rewrite app_nil_r. by destruct s.
  - unfold bind. rewrite Hbody, IH. simpl. by rewrite <- app_assoc.
Qed.

(** ** The host loop *)

Lemma host_axis_loop axes sinks p s :
  for_each (zip axes (zip p sinks))
    (fun '(axis, (value, sink)) =>
       set_value Host (param_store axis) value ;; push sink value) s =
  (Returned tt,
   mkRunner (points s) (_kscan_current_chunk s)
     (history s ++
      concat (map (fun '(axis, (value, sink)) =>
                     [EvSetValue Host (store_id (param_store axis)) value;
                      EvPush sink value])
                  (zip axes (zip p sinks))))).
Proof.
  apply for_each_events.
  intros [axis [value sink]] s0. unfold bind, set_value, push, emit. simpl.
  by rewrite <- app_assoc.
Qed.

Lemma run_scan_on_host_spec env fuel axes sinks s o s' :
  _run_scan_on_host env fuel axes sinks s = (o, s') →
  ∃ delivered,
    points s = delivered ++ points s' ∧
    _kscan_current_chunk s' = _kscan_current_chunk s ∧
    history s' =
      history s ++ concat (map (host_point_events axes sinks) delivered) ∧
    match o with
    | Returned _ => points s' = []
    | Raised e =>
        e = TerminationRequested ∧ delivered ≠ [] ∧
        ∃ h, termination_requested env h = true
    | OutOfFuel => length delivered = fuel
    end.
Proof.
  revert s. induction fuel as [|fuel IH]; intros s Hrun; simpl in Hrun.
  - inversion Hrun; subst. exists []. simpl. by rewrite app_nil_r.
  - unfold bind at 1 in Hrun. unfold next_point in Hrun.
    destruct (points s) as [|p rest] eqn:Hpts.
    + inversion Hrun; subst. exists []. simpl. by rewrite app_nil_r.
    + unfold bind at 1 in Hrun. rewrite host_axis_loop in Hrun.
      unfold bind, host_setup, device_setup, run_once, emit, scheduler_pause in Hrun.
      simpl in Hrun.
      destruct (termination_requested env _) eqn:Hterm.
      * inversion Hrun; subst. exists [p]. simpl.
        unfold host_point_events. rewrite app_nil_r, <- !app_assoc.
        split_and!; try done. eauto.
      * apply IH in Hrun as (dl & Hd & Hc & Hh & Ho). simpl in *.
        exists (p :: dl). rewrite Hd, Hc, Hh. simpl.
        unfold host_point_events at 2. rewrite <- !app_assoc. simpl.
        repeat split; try done.
        destruct o; try done. { destruct Ho as (? & ? & ?). done. } { by rewrite Ho. }
Qed.

(** ** Reading pushes and writes off a history *)

Lemma pushed_to_app sink h1 h2 :
  pushed_to sink (h1 ++ h2) = pushed_to sink h1 ++ pushed_to sink h2.
Proof. apply omap_app. Qed.

Lemma applied_to_app side store h1 h2 :
  applied_to side store (h1 ++ h2) =
  applied_to side store h1 ++ applied_to side store h2.
Proof. apply omap_app. Qed.

Lemma point_events_app h1 h2 :
  point_events (h1 ++ h2) = point_events h1 ++ point_events h2.
Proof. apply List.filter_app. Qed.

Lemma callbacks_run_app h1 h2 :
  callbacks_run (h1 ++ h2) = callbacks_run h1 + callbacks_run h2.
Proof. unfold callbacks_run. by rewrite List.filter_app, length_app. Qed.

Lemma pushed_to_point_events sink h :
  pushed_to sink (point_events h) = pushed_to sink h.
Proof.
  induction h as [|e h IH]; [done|].
  unfold point_events in *. simpl.
  destruct e as [[] ? ?| | | | | | | | |]; simpl; by rewrite ?IH.
Qed.

Lemma applied_to_device_point_events store h :
  applied_to Device store (point_events h) = applied_to Device store h.
Proof.
  induction h as [|e h IH]; [done|].
  unfold point_events in *. simpl.
  destruct e as [[] ? ?| | | | | | | | |]; simpl; by rewrite ?IH.
Qed.

Lemma callbacks_run_point_events h :
  callbacks_run (point_events h) = callbacks_run h.
Proof.
  induction h as [|e h IH]; [done|].
  unfold callbacks_run, point_events in *. simpl.
  destruct e as [[] ? ?| | | | | | | | |]; simpl; by rewrite ?IH.
Qed.

(** Pushing a row of values to a row of distinct sinks leaves, in sink
    [j], the value at position [j]. *)
Lemma pushed_zip_absent sink p sinks :
  sink ∉ sinks →
  omap (fun '(v, s0) => if decide (s0 = sink) then Some v else None)
       (zip p sinks) = @nil Value.
Proof.
  revert p. induction sinks as [|s0 sinks IH]; intros p Hnot.
  - by destruct p.
  - destruct p as [|v p]; [done|]. simpl.
    apply not_elem_of_cons in Hnot as [Hne Hnot].
    destruct (decide (s0 = sink)); [congruence|]. by apply IH.
Qed.

Lemma pushed_zip sink j p sinks :
  NoDup sinks → sinks !! j = Some sink →
  omap (fun '(v, s0) => if decide (s0 = sink) then Some v else None)
       (zip p sinks) = option_list (p !! j).
Proof.
  revert p j. induction sinks as [|s0 sinks IH]; intros p j Hnd Hj; [done|].
  apply NoDup_cons in Hnd as [Hnot Hnd].
  destruct p as [|v p]; [by destruct j|].
  destruct j as [|j]; simpl in *.
  - inversion Hj; subst. destruct (decide (sink = sink)); [|done].
    by rewrite pushed_zip_absent.
  - destruct (decide (s0 = sink)) as [->|Hne].
    + exfalso. apply Hnot. by eapply list_elem_of_lookup_2.
    + by apply IH.
Qed.

Lemma pushed_to_pushes sink (l : list (Value * nat)) :
  pushed_to sink (map (fun '(value, sink0) => EvPush sink0 value) l) =
  omap (fun '(v, s0) => if decide (s0 = sink) then Some v else None) l.
Proof.
  induction l as [|[v s0] l IH]; [done|]. simpl.
  destruct (decide (s0 = sink)); by rewrite IH.
Qed.

Lemma pushed_to_host_sets sink (l : list (ScanAxis Value * (Value * nat))) :
  pushed_to sink
    (concat (map (fun '(axis, (value, sink0)) =>
                    [EvSetValue Host (store_id (param_store axis)) value;
                     EvPush sink0 value]) l)) =
  omap (fun '(v, s0) => if decide (s0 = sink) then Some v else None) (l.*2).
Proof.
  induction l as [|[a [v s0]] l IH]; [done|]. simpl.
  destruct (decide (s0 = sink)); by rewrite IH.
Qed.

Lemma column_cons j p pts :
  column j (p :: pts) = option_list (p !! j) ++ column j pts.
Proof. unfold column. simpl. by destruct (p !! j). Qed.

Lemma column_app j pts1 pts2 :
  column j (pts1 ++ pts2) = column j pts1 ++ column j pts2.
Proof. apply omap_app. Qed.

Lemma column_length axes j pts :
  points_match_axes axes pts → j < length axes →
  length (column j pts) = length pts.
Proof.
  intros Hwf Hj. induction Hwf as [|p pts Hp _ IH]; [done|].
  rewrite column_cons, length_app, IH.
  destruct (lookup_lt_is_Some_2 p j) as [v ->]; [lia|done].
Qed.

Lemma column_lookup axes j pts i :
  points_match_axes axes pts → j < length axes →
  column j pts !! i = pts !! i ≫= (.!! j).
Proof.
  intros Hwf Hj. revert i. induction Hwf as [|p pts Hp _ IH]; intros i; [done|].
  rewrite column_cons.
  destruct (lookup_lt_is_Some_2 p j) as [v Hv]; [lia|]. rewrite Hv. simpl.
  destruct i as [|i]; simpl; [done|apply IH].
Qed.

Lemma host_point_pushed axes sinks sink j p :
  NoDup sinks → sinks !! j = Some sink →
  length sinks = length axes → length p = length axes →
  pushed_to sink (host_point_events axes sinks p) = option_list (p !! j).
Proof.
  intros Hnd Hj Hls Hlp. unfold host_point_events.
  rewrite pushed_to_app, pushed_to_host_sets. simpl. rewrite app_nil_r.
  rewrite snd_zip; [by apply pushed_zip|].
  rewrite length_zip_with. lia.
Qed.

Lemma host_points_pushed axes sinks sink j pts :
  NoDup sinks → sinks !! j = Some sink →
  length sinks = length axes → points_match_axes axes pts →
  pushed_to sink (concat (map (host_point_events axes sinks) pts)) = column j pts.
Proof.
  intros Hnd Hj Hls Hwf. induction Hwf as [|p pts Hp _ IH]; [done|].
  rewrite column_cons. simpl. rewrite pushed_to_app, IH.
  by erewrite host_point_pushed.
Qed.

Lemma pushed_to_device_sets sink (l : list (ScanAxis Value * Value)) :
  pushed_to sink
    (map (fun '(axis, value) =>
            EvSetValue Device (store_id (param_store axis))
              (coerce (param_store axis) value)) l) = [].
Proof. induction l as [|[a v] l IH]; [done|]. simpl. apply IH. Qed.

Lemma device_point_pushed axes sinks sink j p :
  NoDup sinks → sinks !! j = Some sink →
  pushed_to sink (device_point_events axes sinks p) = option_list (p !! j).
Proof.
  intros Hnd Hj. unfold device_point_events.
  rewrite !pushed_to_app, pushed_to_device_sets, pushed_to_pushes. simpl.
  by apply pushed_zip.
Qed.

Lemma device_points_pushed axes sinks sink j pts :
  NoDup sinks → sinks !! j = Some sink →
  pushed_to sink (concat (map (device_point_events axes sinks) pts)) = column j pts.
Proof.
  intros Hnd Hj. induction pts as [|p pts IH]; [done|].
  rewrite column_cons. simpl. rewrite pushed_to_app, IH.
  by erewrite device_point_pushed.
Qed.

(** ** The values sent to the kernel *)

Lemma append_step_lookup (l : list (Value * ScanAxis Value)) j
    (acc : list (list Value)) k :
  foldl (fun values '(i, (value, axis)) =>
           alter (fun column => column ++ [coerce (param_store axis) value]) i values)
        acc (zip (seq j (length l)) l) !! k =
  (fun col => col ++ match (if decide (j ≤ k) then l !! (k - j) else None) with
                     | Some (v, a) => [coerce (param_store a) v]
                     | None => []
                     end) <$> acc !! k.
Proof.
  revert j acc. induction l as [|[v a] l IH]; intros j acc.
  - simpl. destruct (decide (j ≤ k)); destruct (acc !! k); simpl;
      by rewrite ?app_nil_r.
  - simpl. rewrite IH. destruct (decide (k = j)) as [->|Hne].
    + rewrite list_lookup_alter_eq.
      destruct (decide (S j ≤ j)); [lia|].
      destruct (decide (j ≤ j)); [|lia].
      replace (j - j) with 0 by lia. simpl.
      destruct (acc !! j); simpl; by rewrite ?app_nil_r.
    + rewrite list_lookup_alter_ne by done.
      destruct (decide (S j ≤ k)), (decide (j ≤ k)); try lia; [|done].
      replace (k - j) with (S (k - S j)) by lia. done.
Qed.

Lemma append_coerced_lookup axes (acc : list (list Value)) p k :
  append_coerced axes acc p !! k =
  (fun col => col ++ match axes !! k with
                     | Some a => coerce (param_store a) <$> option_list (p !! k)
                     | None => []
                     end) <$> acc !! k.
Proof.
  unfold append_coerced. rewrite append_step_lookup.
  destruct (decide (0 ≤ k)); [|lia]. replace (k - 0) with k by lia.
  assert (zip p axes !! k = v ← p !! k; a ← axes !! k; Some (v, a)) as ->
    by apply lookup_zip_with.
  destruct (p !! k), (axes !! k); done.
Qed.

Lemma chunk_values_lookup axes (acc : list (list Value)) chunk k :
  foldl (append_coerced axes) acc chunk !! k =
  (fun col => col ++ match axes !! k with
                     | Some a => coerce (param_store a) <$> column k chunk
                     | None => []
                     end) <$> acc !! k.
Proof.
  revert acc. induction chunk as [|p chunk IH]; intros acc.
  - simpl. destruct (axes !! k), (acc !! k); simpl; by rewrite ?app_nil_r.
  - cbn [foldl]. rewrite IH, append_coerced_lookup, column_cons.
    destruct (acc !! k); [|done]. simpl. f_equal.
    destruct (axes !! k); [|by rewrite !app_nil_r].
    by rewrite fmap_app, app_assoc.
Qed.

Lemma append_coerced_length axes (acc : list (list Value)) p :
  length (append_coerced axes acc p) = length acc.
Proof.
  unfold append_coerced.
  generalize (zip (seq 0 (length (zip p axes))) (zip p axes)).
  intros l. revert acc. induction l as [|[i [v a]] l IH]; intros acc; [done|].
  simpl. rewrite IH. apply length_alter.
Qed.

Lemma chunk_values_length axes (acc : list (list Value)) chunk :
  length (foldl (append_coerced axes) acc chunk) = length acc.
Proof.
  revert acc. induction chunk as [|p chunk IH]; intros acc; [done|].
  simpl. by rewrite IH, append_coerced_length.
Qed.

(** The tuple returned to the kernel has one list per axis; the list of
    axis [k] holds the coerced values of axis [k] over the chunk. *)
Lemma chunk_values_column axes chunk k a :
  axes !! k = Some a →
  foldl (append_coerced axes) (replicate (length axes) []) chunk !! k =
  Some (coerce (param_store a) <$> column k chunk).
Proof.
  intros Ha. rewrite chunk_values_lookup, Ha.
  rewrite lookup_replicate_2; [done|]. by eapply lookup_lt_Some.
Qed.

(** ** Operations of the core device path *)

Lemma param_values_chunk_frame axes s o s' :
  _kscan_param_values_chunk axes s = (o, s') →
  ∃ new,
    _kscan_current_chunk s' = _kscan_current_chunk s ++ new ∧
    points s = new ++ points s' ∧
    history s' = history s.
Proof.
  unfold _kscan_param_values_chunk. intros Hrun.
  destruct (decide (CHUNK_SIZE < length (_kscan_current_chunk s))).
  - inversion Hrun; subst. exists []. by rewrite app_nil_r.
  - exists (take (CHUNK_SIZE - length (_kscan_current_chunk s)) (points s)).
    destruct (foldl _ _ _) as [|[|??] ?]; inversion Hrun; subst; simpl;
      by rewrite take_drop.
Qed.

Lemma param_values_chunk_ok axes s :
  runner_ok axes s →
  let n := CHUNK_SIZE - length (_kscan_current_chunk s) in
  let chunk' := _kscan_current_chunk s ++ take n (points s) in
  _kscan_param_values_chunk axes s =
  (match chunk' with
   | [] => Raised ScanFinished
   | _ => Returned (foldl (append_coerced axes) (replicate (length axes) []) chunk')
   end,
   mkRunner (drop n (points s)) chunk' (history s)).
Proof.
  intros (Hlen & Hwf & Hax) n chunk'. unfold _kscan_param_values_chunk.
  destruct (decide (CHUNK_SIZE < length (_kscan_current_chunk s))); [lia|].
  fold n. fold chunk'.
  destruct (lookup_lt_is_Some_2 axes 0 Hax) as [a Ha].
  pose proof (chunk_values_column axes chunk' 0 a Ha) as Hcol.
  assert (points_match_axes axes chunk') as Hwf'.
  { unfold points_match_axes, undelivered in *.
    apply Forall_app in Hwf as [H1 H2]. apply Forall_app. split; [done|].
    by apply Forall_take. }
  pose proof (column_length axes 0 chunk' Hwf' Hax) as Hcl.
  clearbody chunk'. destruct chunk' as [|p c].
  - simpl. destruct (length axes); [lia|done].
  - destruct (foldl _ _ (p :: c)) as [|v0 values] eqn:Hv; [done|].
    assert (v0 = coerce (param_store a) <$> column 0 (p :: c)) as ->
      by (by injection Hcol).
    destruct (column 0 (p :: c)); [simpl in Hcl; lia|done].
Qed.

Lemma runner_ok_primed axes s :
  runner_ok axes s →
  let n := CHUNK_SIZE - length (_kscan_current_chunk s) in
  runner_ok axes
    (mkRunner (drop n (points s)) (_kscan_current_chunk s ++ take n (points s))
       (history s)).
Proof.
  intros (Hlen & Hwf & Hax) n. unfold runner_ok, undelivered in *. simpl.
  rewrite <- app_assoc, take_drop. split_and!; [|done..].
  rewrite length_app, length_take. lia.
Qed.

Lemma host_shadow_loop axes (next_values : Point Value) s :
  for_each (zip next_values axes)
    (fun '(value, axis) => set_value Host (param_store axis) value) s =
  (Returned tt,
   mkRunner (points s) (_kscan_current_chunk s)
     (history s ++
      map (fun '(value, axis) => EvSetValue Host (store_id (param_store axis)) value)
          (zip next_values axes))).
Proof.
  rewrite (for_each_events _ _
    (fun '(value, axis) => [EvSetValue Host (store_id (param_store axis)) value])).
  - do 3 f_equal. induction (zip next_values axes) as [|[v a] l IH]; [done|].
    simpl. by rewrite IH.
  - by intros [v a] s0.
Qed.

(** Whatever the state, updating the host stores only extends the chunk
    at its tail, from the iterator, and only writes host stores. *)
Lemma update_host_param_stores_frame axes s o s' :
  _kscan_update_host_param_stores axes s = (o, s') →
  ∃ new,
    _kscan_current_chunk s' = _kscan_current_chunk s ++ new ∧
    points s = new ++ points s' ∧
    (history s' = history s ∨
     history s' = history s ++ host_shadow_events axes (_kscan_current_chunk s')).
Proof.
  unfold _kscan_update_host_param_stores, bind, current_chunk. intros Hrun.
  destruct (_kscan_current_chunk s) as [|p c] eqn:Hc.
  - unfold unless_ScanFinished in Hrun.
    destruct (_kscan_param_values_chunk axes s) as [o1 s1] eqn:Hchunk.
    apply param_values_chunk_frame in Hchunk as (new & Hc1 & Hp1 & Hh1).
    rewrite Hc in Hc1. exists new.
    destruct o1 as [values|e|].
    + destruct (_kscan_current_chunk s1) as [|p1 c1] eqn:Hc1'.
      * inversion Hrun; subst. rewrite Hc1'. eauto.
      * rewrite host_shadow_loop in Hrun. inversion Hrun; subst. simpl.
        rewrite Hc1'. split_and!; [done..|]. right. by rewrite Hh1.
    + destruct e; inversion Hrun; subst; eauto.
    + inversion Hrun; subst; eauto.
  - unfold ret in Hrun. rewrite Hc in Hrun.
    rewrite host_shadow_loop in Hrun. inversion Hrun; subst. simpl.
    exists []. rewrite Hc, app_nil_r. eauto.
Qed.

Lemma update_host_param_stores_ok axes s :
  runner_ok axes s →
  ∃ s',
    _kscan_update_host_param_stores axes s = (Returned tt, s') ∧
    runner_ok axes s' ∧
    undelivered s' = undelivered s ∧
    (_kscan_current_chunk s ≠ [] →
     _kscan_current_chunk s' = _kscan_current_chunk s ∧ points s' = points s) ∧
    (_kscan_current_chunk s = [] →
     _kscan_current_chunk s' = take CHUNK_SIZE (points s) ∧
     points s' = drop CHUNK_SIZE (points s)) ∧
    history s' = history s ++ host_shadow_events axes (_kscan_current_chunk s').
Proof.
  intros Hok. unfold _kscan_update_host_param_stores, bind, current_chunk.
  destruct (_kscan_current_chunk s) as [|p c] eqn:Hc.
  - unfold unless_ScanFinished. rewrite param_values_chunk_ok by done.
    pose proof (runner_ok_primed axes s Hok) as Hok'.
    cbv zeta in Hok'. rewrite Hc in *. cbn [length app] in *.
    rewrite Nat.sub_0_r in *.
    assert (undelivered s = take CHUNK_SIZE (points s) ++ drop CHUNK_SIZE (points s))
      as Hund by (unfold undelivered; by rewrite Hc, take_drop).
    destruct (take CHUNK_SIZE (points s)) as [|p1 c1] eqn:Htake.
    + eexists. split; [done|]. simpl. rewrite app_nil_r.
      split_and!; try done.
    + cbn [_kscan_current_chunk]. rewrite host_shadow_loop. simpl.
      eexists. split; [done|]. simpl. split_and!; try done.
  - unfold ret. cbn [_kscan_current_chunk]. rewrite Hc, host_shadow_loop.
    eexists. split; [done|]. simpl. rewrite Hc.
    unfold runner_ok, undelivered in *. simpl. rewrite Hc in *.
    split_and!; try done; tauto.
Qed.

Lemma point_completed_unfold axes sinks s :
  _kscan_point_completed axes sinks s =
  match _kscan_current_chunk s with
  | [] => (Raised IndexError,
           mkRunner (points s) [] (history s ++ [EvPointCompleted]))
  | values :: rest =>
      _kscan_update_host_param_stores axes
        (mkRunner (points s) rest
           (history s ++ EvPointCompleted ::
              map (fun '(value, sink) => EvPush sink value) (zip values sinks)))
  end.
Proof.
  unfold _kscan_point_completed, bind at 1, emit. simpl.
  unfold bind at 1, pop_chunk. simpl.
  destruct (_kscan_current_chunk s) as [|values rest]; [done|].
  unfold bind.
  rewrite (for_each_events _ _ (fun '(value, sink) => [EvPush sink value])).
  - simpl. do 2 f_equal. rewrite <- app_assoc. simpl. do 2 f_equal.
    induction (zip values sinks) as [|[v k] l IH]; [done|]. simpl. by rewrite IH.
  - by intros [v k] s0.
Qed.

Lemma point_events_device_point axes sinks p :
  point_events (device_point_events axes sinks p) =
  device_point_events axes sinks p.
Proof.
  unfold device_point_events. rewrite !point_events_app. f_equal; [|f_equal].
  - induction (zip axes p) as [|[a v] l IH]; [done|].
    unfold point_events in *. simpl. by rewrite IH.
  - induction (zip p sinks) as [|[v k] l IH]; [done|].
    unfold point_events in *. simpl. by rewrite IH.
Qed.

Lemma point_events_host_shadow axes chunk :
  point_events (host_shadow_events axes chunk) = [].
Proof.
  destruct chunk as [|p c]; [done|]. simpl.
  induction (zip p axes) as [|[v a] l IH]; [done|]. apply IH.
Qed.

Lemma kscan_set_params_from axes (values : list (list Value)) i p :
  ∀ (axes' : list (ScanAxis Value)) (p' : list Value) j s,
    length p' = length axes' →
    (∀ k a, axes' !! k = Some a → axes !! (j + k) = Some a) →
    (∀ k v, p' !! k = Some v → p !! (j + k) = Some v) →
    (∀ k a, axes !! k = Some a →
       values !! k ≫= (.!! i) = coerce (param_store a) <$> p !! k) →
    for_each (seq j (length axes'))
      (fun k =>
         match axes !! k with
         | None => raise AttributeError
         | Some axis =>
             match values !! k ≫= (.!! i) with
             | None => raise IndexError
             | Some v => set_value Device (param_store axis) v
             end
         end) s =
    (Returned tt,
     mkRunner (points s) (_kscan_current_chunk s)
       (history s ++
        map (fun '(axis, value) =>
               EvSetValue Device (store_id (param_store axis))
                 (coerce (param_store axis) value))
            (zip axes' p'))).
Proof.
  induction axes' as [|a axes' IH]; intros p' j s Hlen Hax Hp Hrow.
  - simpl. unfold ret. rewrite app_nil_r. by destruct s.
  - destruct p' as [|v p']; [done|]. cbn [length seq for_each].
    unfold bind at 1.
    pose proof (Hax 0 a eq_refl) as Ha. pose proof (Hp 0 v eq_refl) as Hv.
    rewrite Nat.add_0_r in Ha, Hv.
    rewrite Ha, (Hrow j a Ha), Hv. simpl.
    rewrite (IH p' (S j)).
    + simpl. by rewrite <- app_assoc.
    + simpl in Hlen. lia.
    + intros k a' Hk. replace (S j + k) with (j + S k) by lia. by apply Hax.
    + intros k v' Hk. replace (S j + k) with (j + S k) by lia. by apply Hp.
    + done.
Qed.

Lemma kscan_set_params_ok axes (values : list (list Value)) i p s :
  length p = length axes →
  (∀ k a, axes !! k = Some a →
     values !! k ≫= (.!! i) = coerce (param_store a) <$> p !! k) →
  kscan_set_params axes (length axes) values i s =
  (Returned tt,
   mkRunner (points s) (_kscan_current_chunk s)
     (history s ++
      map (fun '(axis, value) =>
             EvSetValue Device (store_id (param_store axis))
               (coerce (param_store axis) value))
          (zip axes p))).
Proof.
  intros Hlen Hrow. unfold kscan_set_params.
  by apply (kscan_set_params_from axes values i p axes p 0 s).
Qed.

Lemma kscan_point_ok env axes sinks interval values i last s p rest :
  runner_ok axes s →
  _kscan_current_chunk s = p :: rest →
  (∀ k a, axes !! k = Some a →
     values !! k ≫= (.!! i) = coerce (param_store a) <$> p !! k) →
  ∃ r s',
    kscan_point env axes sinks interval (length axes) values i last s =
      (Returned r, s') ∧
    runner_ok axes s' ∧
    undelivered s' = rest ++ points s ∧
    (rest ≠ [] → _kscan_current_chunk s' = rest ∧ points s' = points s) ∧
    point_events (history s') =
      point_events (history s) ++ device_point_events axes sinks p.
Proof.
  intros Hok Hc Hrow.
  assert (length p = length axes) as Hlen.
  { destruct Hok as (_ & Hwf & _). unfold points_match_axes, undelivered in Hwf.
    rewrite Hc in Hwf. by inversion Hwf. }
  unfold kscan_point. unfold bind at 1. rewrite (kscan_set_params_ok axes values i p) by done.
  unfold bind at 1, _kscan_run_fragment_once, bind at 1, device_setup, run_once, emit.
  cbn [points _kscan_current_chunk history].
  unfold bind at 1. rewrite point_completed_unfold.
  cbn [points _kscan_current_chunk history]. rewrite Hc.
  match goal with
  | |- context [_kscan_update_host_param_stores axes ?s1] =>
      destruct (update_host_param_stores_ok axes s1) as (s2 & -> & Hok2 & Hu2 & Hne2 & _ & Hh2)
  end.
  { destruct Hok as (Hl & Hwf & Hax). unfold runner_ok, undelivered in *. simpl.
    rewrite Hc in *. simpl in Hl. split_and!; [lia| |done].
    by inversion Hwf. }
  cbn [points _kscan_current_chunk history] in *.
  assert (point_events (history s2) =
          point_events (history s) ++ device_point_events axes sinks p) as Hpe.
  { rewrite Hh2, !point_events_app, point_events_host_shadow, app_nil_r.
    rewrite <- (point_events_device_point axes sinks p).
    rewrite <- !point_events_app. f_equal. unfold device_point_events.
    rewrite <- !app_assoc. done. }
  unfold bind, rtio_counter. cbn [points _kscan_current_chunk history].
  destruct (_ <? _)%Z.
  - unfold scheduler_check_pause. cbn [points _kscan_current_chunk history].
    destruct (check_pause env _); unfold ret; eexists _, _; (split; [done|]);
      unfold runner_ok, undelivered in *; simpl;
      rewrite !point_events_app, Hpe, !app_nil_r; done.
  - unfold ret. eexists _, _. split; [done|].
    unfold runner_ok, undelivered in *; simpl.
    rewrite !point_events_app, Hpe, !app_nil_r; done.
Qed.

Lemma kscan_for_ok env axes sinks interval values :
  ∀ todo i last s,
    runner_ok axes s →
    _kscan_current_chunk s = todo →
    (∀ j p, todo !! j = Some p → ∀ k a, axes !! k = Some a →
       values !! k ≫= (.!! (i + j)) = coerce (param_store a) <$> p !! k) →
    ∃ r s' delivered,
      kscan_for env axes sinks interval (length axes) values
        (seq i (length todo)) last s = (Returned r, s') ∧
      runner_ok axes s' ∧
      undelivered s = delivered ++ undelivered s' ∧
      point_events (history s') =
        point_events (history s) ++
        concat (map (device_point_events axes sinks) delivered) ∧
      (todo ≠ [] → delivered ≠ []).
Proof.
  induction todo as [|p todo IH]; intros i last s Hok Hc Hrows.
  - simpl. unfold ret. exists (Some last), s, []. simpl.
    by rewrite app_nil_r.
  - cbn [length seq kscan_for]. unfold bind at 1.
    destruct (kscan_point_ok env axes sinks interval values i last s p todo)
      as (r & s1 & -> & Hok1 & Hu1 & Hrest & Hpe1); [done..| |].
    { intros k a Ha. rewrite <- (Hrows 0 p eq_refl k a Ha). by rewrite Nat.add_0_r. }
    assert (undelivered s = [p] ++ undelivered s1) as Hund.
    { rewrite Hu1. unfold undelivered. by rewrite Hc. }
    destruct r as [last1|].
    + destruct todo as [|p' todo'].
      * simpl. unfold ret. exists (Some last1), s1, [p]. simpl.
        rewrite app_nil_r. done.
      * destruct Hrest as [Hc1 Hp1]; [done|].
        destruct (IH (S i) last1 s1) as (r & s2 & dl & -> & Hok2 & Hu2 & Hpe2 & _);
          [done..| |].
        { intros j q Hq k a Ha. replace (S i + j) with (i + S j) by lia.
          by apply (Hrows (S j) q). }
        exists r, s2, (p :: dl). split_and!; [done..| | |done].
        -- by rewrite Hund, Hu2.
        -- rewrite Hpe2, Hpe1. simpl. by rewrite <- app_assoc.
    + unfold ret. exists None, s1, [p]. simpl. rewrite app_nil_r. done.
Qed.

Lemma kscan_while_ok env axes sinks interval :
  ∀ fuel last s,
    runner_ok axes s →
    ∃ o s' delivered,
      kscan_while env axes sinks interval fuel (length axes) last s = (o, s') ∧
      runner_ok axes s' ∧
      undelivered s = delivered ++ undelivered s' ∧
      point_events (history s') =
        point_events (history s) ++
        concat (map (device_point_events axes sinks) delivered) ∧
      match o with
      | Returned _ => delivered ≠ []
      | Raised e => e = ScanFinished ∧ undelivered s' = []
      | OutOfFuel => fuel ≤ length delivered
      end.
Proof.
  induction fuel as [|fuel IH]; intros last s Hok.
  - simpl. exists OutOfFuel, s, []. simpl. rewrite app_nil_r.
    split_and!; try done.
  - cbn [kscan_while]. unfold bind at 1.
    rewrite param_values_chunk_ok by done.
    pose proof (runner_ok_primed axes s Hok) as Hok1. cbv zeta in Hok1.
    set (n := CHUNK_SIZE - length (_kscan_current_chunk s)) in *.
    set (todo := _kscan_current_chunk s ++ take n (points s)) in *.
    set (s1 := mkRunner (drop n (points s)) todo (history s)) in *.
    assert (undelivered s1 = undelivered s) as Hu1.
    { unfold undelivered, s1, todo. simpl. by rewrite <- app_assoc, take_drop. }
    assert (points_match_axes axes todo) as Hwf.
    { destruct Hok1 as (_ & Hwf & _). unfold points_match_axes, undelivered in Hwf.
      simpl in Hwf. by apply Forall_app in Hwf as [? _]. }
    assert (0 < length axes) as Hax by apply Hok.
    destruct todo as [|p todo'] eqn:Htodo.
    + exists (Raised ScanFinished), s1, []. simpl. rewrite app_nil_r.
      split_and!; try done.
      unfold todo in Htodo. apply app_eq_nil in Htodo as [Hc Htake].
      unfold undelivered, s1. simpl.
      assert (n = CHUNK_SIZE) as Hn by (unfold n; rewrite Hc; done).
      rewrite Hn in *. by destruct (points s).
    + rewrite <- Htodo in *.
      set (values := foldl (append_coerced axes) (replicate (length axes) []) todo).
      assert (length values = length axes) as Hlv.
      { unfold values. by rewrite chunk_values_length, length_replicate. }
      destruct (decide (length values = length axes)); [|done].
      destruct (lookup_lt_is_Some_2 axes 0 Hax) as [a0 Ha0].
      assert (length (values !!! 0) = length todo) as Hl0.
      { rewrite (list_lookup_total_correct values 0 _
                   (chunk_values_column axes todo 0 a0 Ha0)).
        rewrite length_fmap. by eapply column_length. }
      rewrite Hl0.
      destruct (kscan_for_ok env axes sinks interval values todo 0 last s1)
        as (r & s2 & dl & Hfor & Hok2 & Hu2 & Hpe2 & Hne); [done|done| |].
      { intros j q Hq k a Ha. simpl. unfold values.
        rewrite (chunk_values_column axes todo k a Ha). simpl.
        rewrite list_lookup_fmap.
        rewrite (column_lookup axes k todo j Hwf) by (by eapply lookup_lt_Some).
        rewrite Hq. done. }
      unfold bind at 1. rewrite Hfor.
      assert (dl ≠ []) as Hdone by (apply Hne; by rewrite Htodo).
      destruct r as [last1|].
      * destruct (IH last1 s2 Hok2) as (o & s3 & dl' & -> & Hok3 & Hu3 & Hpe3 & Ho).
        exists o, s3, (dl ++ dl'). split_and!; [done..| | |].
        -- by rewrite <- app_assoc, <- Hu3, <- Hu2.
        -- rewrite Hpe3, Hpe2. simpl. by rewrite map_app, concat_app, <- app_assoc.
        -- destruct o; [|done|].
           ++ by destruct dl.
           ++ rewrite length_app. destruct dl; [done|]. simpl. lia.
      * unfold ret. exists (Returned tt), s2, dl. split_and!; try done.
        by rewrite <- Hu2.
Qed.

Lemma kscan_impl_ok env axes sinks interval fuel s :
  runner_ok axes s →
  ∃ o s' delivered,
    kscan_impl env axes sinks interval fuel (length axes) s = (o, s') ∧
    runner_ok axes s' ∧
    undelivered s = delivered ++ undelivered s' ∧
    point_events (history s') =
      point_events (history s) ++
      concat (map (device_point_events axes sinks) delivered) ∧
    match o with
    | Returned _ => delivered ≠ []
    | Raised e => e = ScanFinished ∧ undelivered s' = []
    | OutOfFuel => fuel ≤ length delivered
    end.
Proof.
  intros Hok. unfold kscan_impl, bind, rtio_counter.
  match goal with
  | |- context [kscan_while _ _ _ _ _ _ ?last ?s1] =>
      destruct (kscan_while_ok env axes sinks interval fuel last s1)
        as (o & s' & dl & -> & Hok' & Hu & Hpe & Ho)
  end.
  { unfold runner_ok, undelivered in *. simpl. done. }
  exists o, s', dl. split_and!; try done.
  rewrite Hpe. simpl. by rewrite point_events_app, app_nil_r.
Qed.

Lemma getattr_kscan_impl_Some env axes sinks interval fuel n impl :
  getattr_kscan_impl env axes sinks interval fuel n = Some impl →
  impl = kscan_impl env axes sinks interval fuel n ∧ 1 ≤ n ≤ 3.
Proof.
  destruct n as [|[|[|[|n]]]]; simpl; intros Himpl; inversion Himpl;
    (split; [done|lia]).
Qed.

Lemma getattr_kscan_impl_None env axes sinks interval fuel n :
  getattr_kscan_impl env axes sinks interval fuel n = None ↔ ¬ (1 ≤ n ≤ 3).
Proof.
  destruct n as [|[|[|[|n]]]]; simpl; split; intros H; try done; try lia.
Qed.

Lemma kscan_host_loop_ok env axes sinks interval kfuel :
  ∀ fuel s,
    runner_ok axes s →
    ∃ o s' delivered,
      kscan_host_loop env fuel
        (kscan_impl env axes sinks interval kfuel (length axes)) s = (o, s') ∧
      runner_ok axes s' ∧
      undelivered s = delivered ++ undelivered s' ∧
      point_events (history s') =
        point_events (history s) ++
        concat (map (device_point_events axes sinks) delivered) ∧
      match o with
      | Returned _ => False
      | Raised e =>
          (e = ScanFinished ∧ undelivered s' = []) ∨
          (e = TerminationRequested ∧ delivered ≠ [] ∧
           ∃ h, termination_requested env h = true)
      | OutOfFuel => fuel ≤ length delivered ∨ kfuel ≤ length delivered
      end.
Proof.
  induction fuel as [|fuel IH]; intros s Hok.
  - simpl. exists OutOfFuel, s, []. simpl. rewrite app_nil_r.
    split_and!; try done. left. lia.
  - cbn [kscan_host_loop]. unfold bind at 1, host_setup, emit.
    unfold bind at 1.
    match goal with
    | |- context [kscan_impl _ _ _ _ _ _ ?s1] =>
        destruct (kscan_impl_ok env axes sinks interval kfuel s1)
          as (o1 & s2 & dl & -> & Hok2 & Hu2 & Hpe2 & Ho1)
    end.
    { unfold runner_ok, undelivered in *. simpl. done. }
    assert (undelivered s = dl ++ undelivered s2) as Hu by done.
    assert (point_events (history s2) =
            point_events (history s) ++
            concat (map (device_point_events axes sinks) dl)) as Hpe.
    { rewrite Hpe2. simpl. by rewrite point_events_app, app_nil_r. }
    clear Hu2 Hpe2.
    destruct o1 as [[]|e|].
    + unfold bind at 1, comm_close, emit. unfold bind at 1, scheduler_pause.
      cbn [points _kscan_current_chunk history].
      destruct (termination_requested env _) eqn:Hterm.
      * eexists _, _, dl. split; [done|]. simpl.
        rewrite !point_events_app, Hpe. simpl. rewrite !app_nil_r.
        split_and!; try done. right. eauto.
      * match goal with
        | |- context [kscan_host_loop _ _ _ ?s3] =>
            destruct (IH s3) as (o & s4 & dl' & -> & Hok4 & Hu4 & Hpe4 & Ho)
        end.
        { unfold runner_ok, undelivered in *. simpl. done. }
        exists o, s4, (dl ++ dl'). split_and!; [done..| | |].
        -- rewrite Hu. unfold undelivered in *. simpl in Hu4.
           by rewrite Hu4, app_assoc.
        -- rewrite Hpe4. simpl. rewrite !point_events_app, Hpe. simpl.
           by rewrite !app_nil_r, map_app, concat_app, app_assoc.
        -- destruct o as [|e|]; [done| |].
           ++ destruct Ho as [|(? & ? & ?)]; [by left|right].
              split_and!; try done. by destruct dl.
           ++ rewrite length_app. destruct dl; [done|]. simpl. lia.
    + destruct Ho1 as [-> Hu']. exists (Raised ScanFinished), s2, dl.
      split_and!; try done. by left.
    + exists OutOfFuel, s2, dl. split_and!; try done. by right.
Qed.

(** The core device path, from start to end: the points are delivered in
    iterator order, each as one block of [device_point_events]. *)
Lemma run_scan_on_core_device_ok env types interval fuel axes sinks s :
  is_Some (chunk_annotation types axes) →
  points_match_axes axes (points s) →
  1 ≤ length axes ≤ 3 →
  ∃ o s' delivered,
    _run_scan_on_core_device env types interval fuel axes sinks s = (o, s') ∧
    points s = delivered ++ undelivered s' ∧
    point_events (history s') =
      point_events (history s) ++
      concat (map (device_point_events axes sinks) delivered) ∧
    match o with
    | Returned _ => undelivered s' = []
    | Raised e =>
        e = TerminationRequested ∧ delivered ≠ [] ∧
        ∃ h, termination_requested env h = true
    | OutOfFuel => fuel ≤ length delivered
    end.
Proof.
  intros [annotation Hann] Hwf Hdims.
  unfold _run_scan_on_core_device, bind at 1, reset_chunk. rewrite Hann.
  destruct (getattr_kscan_impl env axes sinks interval fuel (length axes))
    as [impl|] eqn:Himpl.
  2: { apply getattr_kscan_impl_None in Himpl. lia. }
  apply getattr_kscan_impl_Some in Himpl as [-> _].
  unfold suppress_ScanFinished, bind.
  match goal with
  | |- context [_kscan_update_host_param_stores axes ?s0] =>
      destruct (update_host_param_stores_ok axes s0)
        as (s1 & -> & Hok1 & Hu1 & _ & _ & Hh1)
  end.
  { unfold runner_ok, undelivered. simpl. split_and!; [lia|done|lia]. }
  destruct (kscan_host_loop_ok env axes sinks interval fuel fuel s1 Hok1)
    as (o & s2 & dl & -> & Hok2 & Hu2 & Hpe2 & Ho).
  unfold undelivered at 2 in Hu1. simpl in Hu1, Hh1.
  assert (point_events (history s1) = point_events (history s)) as Hpe1.
  { by rewrite Hh1, point_events_app, point_events_host_shadow, app_nil_r. }
  destruct o as [[]|e|]; [done| |].
  - destruct Ho as [[-> Hu]|(-> & Hne & Hterm)].
    + exists (Returned tt), s2, dl. split_and!; try done; congruence.
    + exists (Raised TerminationRequested), s2, dl. split_and!; try done; congruence.
  - exists OutOfFuel, s2, dl. split_and!; try done; try congruence. lia.
Qed.

(** ** The pause throttle *)

Lemma mon_run_app interval m h1 h2 :
  mon_run interval m (h1 ++ h2) =
  mon_run interval m h1 ≫= fun m' => mon_run interval m' h2.
Proof.
  revert m. induction h1 as [|e h1 IH]; intros m; [done|].
  simpl. destruct (mon_step interval m e); [apply IH|done].
Qed.

Lemma mon_run_quiet interval m h :
  Forall (fun e => is_host_set e = true ∨ is_push e = true) h →
  mon_run interval m h = Some m.
Proof.
  induction 1 as [|e h He _ IH]; [done|].
  simpl. destruct e as [[] ? ?| | | | | | | | |]; simpl in *;
    try (destruct He; discriminate); apply IH.
Qed.

Lemma monitored_events interval h0 h m evs m' :
  monitored interval h0 h m →
  mon_run interval m evs = Some m' →
  monitored interval h0 (h ++ evs) m'.
Proof.
  intros (evs0 & Hh & Hm) Hstep. exists (evs0 ++ evs). split.
  - by rewrite Hh, app_assoc.
  - by rewrite mon_run_app, Hm.
Qed.

Lemma host_shadow_quiet axes chunk :
  Forall (fun e : Event Value => is_host_set e = true ∨ is_push e = true)
    (host_shadow_events axes chunk).
Proof.
  destruct chunk as [|p c]; [done|]. simpl.
  induction (zip p axes) as [|[v a] l IH]; [done|].
  simpl. constructor; [by left|done].
Qed.

Lemma pushes_quiet (l : list (Value * nat)) :
  Forall (fun e : Event Value => is_host_set e = true ∨ is_push e = true)
    (map (fun '(value, sink) => EvPush sink value) l).
Proof.
  induction l as [|[v k] l IH]; [done|]. simpl. constructor; [by right|done].
Qed.

Lemma update_host_param_stores_monitored interval h0 axes s o s' m :
  _kscan_update_host_param_stores axes s = (o, s') →
  monitored interval h0 (history s) m → monitored interval h0 (history s') m.
Proof.
  intros Hrun Hm.
  apply update_host_param_stores_frame in Hrun as (new & _ & _ & [Hh|Hh]).
  - by rewrite Hh.
  - rewrite Hh. eapply monitored_events; [done|].
    apply mon_run_quiet, host_shadow_quiet.
Qed.

Lemma point_completed_monitored interval h0 axes sinks s o s' m :
  _kscan_point_completed axes sinks s = (o, s') →
  monitored interval h0 (history s) m →
  monitored interval h0 (history s')
    {| mon_phase := Completed; mon_reference := mon_reference m |}.
Proof.
  rewrite point_completed_unfold. intros Hrun Hm.
  destruct (_kscan_current_chunk s) as [|values rest].
  - inversion Hrun; subst. simpl. by eapply monitored_events.
  - eapply update_host_param_stores_monitored; [done|]. simpl.
    eapply monitored_events; [done|].
    change (EvPointCompleted :: ?l) with ([@EvPointCompleted Value] ++ l).
    rewrite mon_run_app. simpl. apply mon_run_quiet, pushes_quiet.
Qed.

Lemma for_each_invariant {A} (I : Runner Value → Prop) (l : list A)
    (body : A → M Value unit) :
  (∀ x s o s', body x s = (o, s') → I s → I s') →
  ∀ s o s', for_each l body s = (o, s') → I s → I s'.
Proof.
  intros Hbody. induction l as [|x l IH]; intros s o s' Hrun Hs.
  - inversion Hrun; by subst.
  - simpl in Hrun. unfold bind in Hrun.
    destruct (body x s) as [o1 s1] eqn:Hb.
    pose proof (Hbody x s o1 s1 Hb Hs) as Hs1.
    destruct o1; [by eapply IH|inversion Hrun; by subst..].
Qed.

Lemma kscan_set_params_monitored interval h0 axes n values i s o s' m :
  kscan_set_params axes n values i s = (o, s') →
  monitored interval h0 (history s) m →
  ∃ m', monitored interval h0 (history s') m' ∧ mon_reference m' = mon_reference m.
Proof.
  intros Hrun Hm. unfold kscan_set_params in Hrun.
  eapply (for_each_invariant
    (fun s => ∃ m', monitored interval h0 (history s) m' ∧ mon_reference m' = mon_reference m))
    in Hrun; [done| |by eauto].
  intros k s0 o0 s0' Hbody (m0 & Hm0 & Href).
  destruct (axes !! k) as [axis|]; [|inversion Hbody; subst; eauto].
  destruct (values !! k ≫= (.!! i)) as [v|]; [|inversion Hbody; subst; eauto].
  inversion Hbody; subst. simpl.
  eexists. split; [by eapply monitored_events|done].
Qed.

Lemma kscan_point_monitored env interval h0 axes sinks n values i last s o s' m :
  kscan_point env axes sinks interval n values i last s = (o, s') →
  monitored interval h0 (history s) m →
  mon_reference m = last →
  ∃ m', monitored interval h0 (history s') m' ∧
        ∀ last', o = Returned (Some last') → mon_reference m' = last'.
Proof.
  intros Hrun Hm Href. unfold kscan_point in Hrun. unfold bind at 1 in Hrun.
  destruct (kscan_set_params axes n values i s) as [o1 s1] eqn:Hset.
  destruct (kscan_set_params_monitored interval h0 _ _ _ _ _ _ _ _ Hset Hm)
    as (m1 & Hm1 & Href1).
  destruct o1 as [[]|e|];
    [|inversion Hrun; subst; exists m1; (split; [done|intros ? ?; discriminate])..].
  unfold bind at 1, _kscan_run_fragment_once, bind at 1, device_setup, run_once, emit
    in Hrun.
  cbn [points _kscan_current_chunk history] in Hrun.
  unfold bind at 1 in Hrun.
  match type of Hrun with
  | context [_kscan_point_completed axes sinks ?s2] =>
      destruct (_kscan_point_completed axes sinks s2) as [o3 s3] eqn:Hack;
      assert (monitored interval h0 (history s2)
                {| mon_phase := Running; mon_reference := last |}) as Hm2
  end.
  { rewrite <- app_assoc. eapply monitored_events; [done|]. simpl. by rewrite Href1, Href. }
  pose proof (point_completed_monitored interval h0 _ _ _ _ _ _ Hack Hm2) as Hm3.
  simpl in Hm3.
  destruct o3 as [[]|e|];
    [|inversion Hrun; subst; eexists; (split; [done|intros ? ?; discriminate])..].
  unfold bind at 1, rtio_counter in Hrun.
  set (t := wrap64 (get_rtio_counter_mu env (history s3))) in *.
  assert (monitored interval h0 (history s3 ++ [EvRtioCounter t])
            {| mon_phase := ClockRead t; mon_reference := last |}) as Hm4.
  { by eapply monitored_events. }
  destruct (interval <? wrap64 (t - last))%Z eqn:Hlate.
  - unfold bind, scheduler_check_pause in Hrun.
    cbn [points _kscan_current_chunk history] in Hrun.
    set (b := check_pause env (history s3 ++ [EvRtioCounter t])) in *.
    assert (monitored interval h0
              ((history s3 ++ [EvRtioCounter t]) ++ [EvCheckPause b])
              {| mon_phase := Running;
                 mon_reference := if b then last else t |}) as Hm5.
    { eapply monitored_events; [done|]. simpl. by rewrite Hlate. }
    destruct b; inversion Hrun; subst; eexists; (split; [done|]);
      intros last' Heq; by inversion Heq.
  - inversion Hrun; subst. eexists. split; [done|].
    intros last' Heq. by inversion Heq.
Qed.

Lemma kscan_for_monitored env interval h0 axes sinks n values :
  ∀ range last s o s' m,
    kscan_for env axes sinks interval n values range last s = (o, s') →
    monitored interval h0 (history s) m →
    mon_reference m = last →
    ∃ m', monitored interval h0 (history s') m' ∧
          ∀ last', o = Returned (Some last') → mon_reference m' = last'.
Proof.
  induction range as [|i range IH]; intros last s o s' m Hrun Hm Href.
  - inversion Hrun; subst. exists m. split; [done|].
    intros last' Heq. by inversion Heq.
  - simpl in Hrun. unfold bind at 1 in Hrun.
    destruct (kscan_point env axes sinks interval n values i last s)
      as [o1 s1] eqn:Hpoint.
    destruct (kscan_point_monitored env interval h0 _ _ _ _ _ _ _ _ _ _ Hpoint Hm Href)
      as (m1 & Hm1 & Href1).
    destruct o1 as [[last1|]|e|].
    + eapply IH; [done..|]. by apply Href1.
    + inversion Hrun; subst. exists m1. split; [done|]. intros last' Heq. done.
    + inversion Hrun; subst. exists m1. split; [done|]. intros last' Heq. done.
    + inversion Hrun; subst. exists m1. split; [done|]. intros last' Heq. done.
Qed.

Lemma kscan_while_monitored env interval h0 axes sinks n :
  ∀ fuel last s o s' m,
    kscan_while env axes sinks interval fuel n last s = (o, s') →
    monitored interval h0 (history s) m →
    mon_reference m = last →
    ∃ m', monitored interval h0 (history s') m'.
Proof.
  induction fuel as [|fuel IH]; intros last s o s' m Hrun Hm Href.
  - inversion Hrun; subst. eauto.
  - simpl in Hrun. unfold bind at 1 in Hrun.
    destruct (_kscan_param_values_chunk axes s) as [o1 s1] eqn:Hchunk.
    apply param_values_chunk_frame in Hchunk as (_ & _ & _ & Hh).
    assert (monitored interval h0 (history s1) m) as Hm1 by (by rewrite Hh).
    destruct o1 as [values|e|]; [|inversion Hrun; subst; by eauto..].
    destruct (decide (length values = n)) as [Hlv|Hlv];
      [|inversion Hrun; subst; by eauto].
    unfold bind at 1 in Hrun.
    destruct (kscan_for env axes sinks interval n values _ last s1)
      as [o2 s2] eqn:Hfor.
    destruct (kscan_for_monitored env interval h0 _ _ _ _ _ _ _ _ _ _ Hfor Hm1 Href)
      as (m2 & Hm2 & Href2).
    destruct o2 as [[last2|]|e|]; [|inversion Hrun; subst; by eauto..].
    eapply IH; [done..|]. by apply Href2.
Qed.

Lemma kscan_impl_monitored env interval h0 axes sinks fuel n s o s' m :
  kscan_impl env axes sinks interval fuel n s = (o, s') →
  monitored interval h0 (history s) m →
  mon_phase m = Entering →
  ∃ m', monitored interval h0 (history s') m'.
Proof.
  intros Hrun Hm Hphase. unfold kscan_impl, bind, rtio_counter in Hrun.
  eapply kscan_while_monitored; [done| |].
  - eapply monitored_events; [done|]. simpl. by rewrite Hphase.
  - done.
Qed.

Lemma kscan_host_loop_monitored env interval h0 axes sinks kfuel n :
  ∀ fuel s o s' m,
    kscan_host_loop env fuel (kscan_impl env axes sinks interval kfuel n) s = (o, s') →
    monitored interval h0 (history s) m →
    ∃ m', monitored interval h0 (history s') m'.
Proof.
  induction fuel as [|fuel IH]; intros s o s' m Hrun Hm.
  - inversion Hrun; subst. eauto.
  - simpl in Hrun. unfold bind at 1, host_setup, emit in Hrun.
    unfold bind at 1 in Hrun.
    match type of Hrun with
    | context [kscan_impl _ _ _ _ _ _ ?s1] =>
        destruct (kscan_impl env axes sinks interval kfuel n s1) as [o2 s2] eqn:Himpl;
        assert (monitored interval h0 (history s1)
                  {| mon_phase := Entering; mon_reference := mon_reference m |}) as Hm1
    end.
    { by eapply monitored_events. }
    destruct (kscan_impl_monitored env interval h0 _ _ _ _ _ _ _ _ Himpl Hm1 eq_refl)
      as (m2 & Hm2).
    destruct o2 as [[]|e|]; [|inversion Hrun; subst; by eauto..].
    unfold bind at 1, comm_close, emit in Hrun.
    unfold bind at 1, scheduler_pause in Hrun.
    cbn [points _kscan_current_chunk history] in Hrun.
    assert (monitored interval h0
              ((history s2 ++ [EvCommClose]) ++ [EvPause])
              {| mon_phase := Running; mon_reference := mon_reference m2 |}) as Hm3.
    { rewrite <- app_assoc. by eapply monitored_events. }
    destruct (termination_requested env _).
    + inversion Hrun; subst. eauto.
    + by eapply IH.
Qed.

(** ** Unsupported dimensionality *)

Lemma run_scan_on_core_device_untyped env types interval fuel axes sinks s :
  chunk_annotation types axes = None →
  _run_scan_on_core_device env types interval fuel axes sinks s =
  (Raised KeyError, mkRunner (points s) [] (history s)).
Proof.
  intros Hann. unfold _run_scan_on_core_device, bind, reset_chunk.
  by rewrite Hann.
Qed.

Lemma run_scan_on_core_device_unsupported env types interval fuel axes sinks s :
  is_Some (chunk_annotation types axes) →
  ¬ (1 ≤ length axes ≤ 3) →
  _run_scan_on_core_device env types interval fuel axes sinks s =
  (Raised (NotImplementedError (length axes)),
   mkRunner (points s) [] (history s)).
Proof.
  intros [annotation Hann] Hdims.
  unfold _run_scan_on_core_device, bind, reset_chunk. rewrite Hann.
  apply (getattr_kscan_impl_None env axes sinks interval fuel) in Hdims.
  by rewrite Hdims.
Qed.

(** ** Callbacks *)

Lemma callbacks_run_host_point axes sinks p :
  callbacks_run (host_point_events axes sinks p) = 1.
Proof.
  unfold host_point_events. rewrite callbacks_run_app. simpl.
  induction (zip axes (zip p sinks)) as [|[a [v k]] l IH]; [done|]. apply IH.
Qed.

Lemma callbacks_run_host_points axes sinks pts :
  callbacks_run (concat (map (host_point_events axes sinks) pts)) = length pts.
Proof.
  induction pts as [|p pts IH]; [done|]. simpl.
  by rewrite callbacks_run_app, callbacks_run_host_point, IH.
Qed.

Lemma callbacks_run_device_point axes sinks p :
  callbacks_run (device_point_events axes sinks p) = 1.
Proof.
  unfold device_point_events. rewrite !callbacks_run_app.
  assert (callbacks_run
            (map (fun '(axis, value) =>
                    EvSetValue Device (store_id (param_store axis))
                      (coerce (param_store axis) value)) (zip axes p)) = 0) as ->.
  { induction (zip axes p) as [|[a v] l IH]; [done|]. apply IH. }
  assert (callbacks_run
            (map (fun '(value, sink) => EvPush sink value) (zip p sinks)) = 0) as ->.
  { induction (zip p sinks) as [|[v k] l IH]; [done|]. apply IH. }
  done.
Qed.

Lemma callbacks_run_device_points axes sinks pts :
  callbacks_run (concat (map (device_point_events axes sinks) pts)) = length pts.
Proof.
  induction pts as [|p pts IH]; [done|]. simpl.
  by rewrite callbacks_run_app, callbacks_run_device_point, IH.
Qed.

(** ** The run as a whole *)

(** Both paths deliver a prefix of the generated points, in order: the
    sinks receive the columns of that prefix, and the callback has run once
    for each of its points. *)
Lemma run_delivers env types (generate_points : list ScanGenerator → ScanOptions → list (Point Value))
    interval fuel fragment (spec : ScanSpec Value ScanGenerator ScanOptions)
    sinks s o s' :
  points_match_axes (axes spec) (generate_points (generators spec) (options spec)) →
  NoDup sinks →
  length sinks = length (axes spec) →
  run env types generate_points interval fuel fragment spec sinks s = (o, s') →
  (∃ e, o = Raised e ∧ e ≠ TerminationRequested ∧ history s' = history s ∧
        run_once_is_kernel fragment = true ∧
        (chunk_annotation types (axes spec) = None ∨
         ¬ (1 ≤ length (axes spec) ≤ 3))) ∨
  ∃ delivered,
    generate_points (generators spec) (options spec) =
      delivered ++ remaining fragment s' ∧
    callbacks_run (history s') = callbacks_run (history s) + length delivered ∧
    (∀ j sink, sinks !! j = Some sink →
       pushed_to sink (history s') = pushed_to sink (history s) ++ column j delivered) ∧
    match o with
    | Returned _ => remaining fragment s' = []
    | Raised e =>
        e = TerminationRequested ∧ delivered ≠ [] ∧
        ∃ h, termination_requested env h = true
    | OutOfFuel => fuel ≤ length delivered
    end.
Proof.
  intros Hwf Hnd Hls Hrun. unfold run, remaining in *.
  set (pts := generate_points (generators spec) (options spec)) in *.
  destruct (run_once_is_kernel fragment).
  - destruct (chunk_annotation types (axes spec)) as [annotation|] eqn:Hann.
    2: { left. rewrite run_scan_on_core_device_untyped in Hrun by done.
         inversion Hrun; subst. eexists. split_and!; eauto. }
    destruct (decide (1 ≤ length (axes spec) ≤ 3)) as [Hdims|Hdims].
    + right.
      destruct (run_scan_on_core_device_ok env types interval fuel (axes spec) sinks
                  (mkRunner pts (_kscan_current_chunk s) (history s))
                  (mk_is_Some _ _ Hann) Hwf Hdims)
        as (o1 & s1 & dl & Hrun1 & Hpts & Hpe & Ho).
      rewrite Hrun in Hrun1. inversion Hrun1; subst o1 s1. simpl in *.
      exists dl. split_and!; [done| | |done].
      * rewrite <- (callbacks_run_point_events (history s')), Hpe.
        by rewrite callbacks_run_app, callbacks_run_point_events,
          callbacks_run_device_points.
      * intros j sink Hj.
        rewrite <- (pushed_to_point_events sink (history s')), Hpe.
        rewrite pushed_to_app, pushed_to_point_events.
        by erewrite device_points_pushed.
    + left. rewrite run_scan_on_core_device_unsupported in Hrun by eauto.
      inversion Hrun; subst. eexists. split_and!; eauto.
  - right. apply run_scan_on_host_spec in Hrun as (dl & Hpts & _ & Hh & Ho).
    simpl in *. exists dl. split_and!; [done| | |].
    + by rewrite Hh, callbacks_run_app, callbacks_run_host_points.
    + intros j sink Hj. rewrite Hh, pushed_to_app.
      erewrite host_points_pushed; [done..|].
      unfold points_match_axes in *. rewrite Hpts in Hwf.
      by apply Forall_app in Hwf as [? _].
    + destruct o; [done|done|lia].
Qed.

Lemma completed_run_sinks env types
    (generate_points : list ScanGenerator → ScanOptions → list (Point Value))
    interval fuel fragment (spec : ScanSpec Value ScanGenerator ScanOptions)
    sinks s s' :
  points_match_axes (axes spec) (generate_points (generators spec) (options spec)) →
  NoDup sinks →
  length sinks = length (axes spec) →
  run env types generate_points interval fuel fragment spec sinks s = (Returned tt, s') →
  ∀ j sink, sinks !! j = Some sink →
    pushed_to sink (history s') =
    pushed_to sink (history s) ++
    column j (generate_points (generators spec) (options spec)).
Proof.
  intros Hwf Hnd Hls Hrun j sink Hj.
  destruct (run_delivers _ _ _ _ _ _ _ _ _ _ _ Hwf Hnd Hls Hrun)
    as [(e & Ho & _)|(dl & Hpts & _ & Hpush & Hrem)]; [done|].
  rewrite Hrem, app_nil_r in Hpts. rewrite Hpts. by apply Hpush.
Qed.

(** C1. For every completed scan run, on the host path or on the chunked
    core device path, the coordinate sink of each axis receives exactly one
    push per point, in the order of the generated points: what the run adds
    to sink [j] is the column [j] of the point sequence, no more, no less,
    and in that order. A run that is given enough fuel and is never told to
    terminate does complete (on the core device path, when the schemas have
    known types and there are one to three axes). *)
Theorem C1_completed_run_pushes_each_point_once env types
    (generate_points : list ScanGenerator → ScanOptions → list (Point Value))
    interval fuel fragment (spec : ScanSpec Value ScanGenerator ScanOptions)
    sinks s :
  points_match_axes (axes spec) (generate_points (generators spec) (options spec)) →
  NoDup sinks →
  length sinks = length (axes spec) →
  (∀ s',
     run env types generate_points interval fuel fragment spec sinks s = (Returned tt, s') →
     ∀ j sink, sinks !! j = Some sink →
       pushed_to sink (history s') =
       pushed_to sink (history s) ++
       column j (generate_points (generators spec) (options spec))) ∧
  ((∀ h, termination_requested env h = false) →
   length (generate_points (generators spec) (options spec)) < fuel →
   (run_once_is_kernel fragment = true →
    is_Some (chunk_annotation types (axes spec)) ∧ 1 ≤ length (axes spec) ≤ 3) →
   ∃ s', run env types generate_points interval fuel fragment spec sinks s = (Returned tt, s')).
Proof.
  intros Hwf Hnd Hls. split.
  - intros s' Hrun. by eapply completed_run_sinks.
  - intros Hcalm Hfuel Hdims.
    destruct (run env types generate_points interval fuel fragment spec sinks s)
      as [o s'] eqn:Hrun.
    destruct (run_delivers _ _ _ _ _ _ _ _ _ _ _ Hwf Hnd Hls Hrun)
      as [(e & _ & _ & _ & Hk & Hbad)|(dl & Hpts & _ & _ & Ho)].
    { destruct (Hdims Hk) as [[annotation Hann] Hd].
      destruct Hbad; [congruence|tauto]. }
    destruct o as [[]|e|].
    + by exists s'.
    + destruct Ho as (_ & _ & h & Hterm). by rewrite Hcalm in Hterm.
    + rewrite Hpts, length_app in Hfuel. lia.
Qed.

(** C2. A run that is cancelled (the scheduler raises
    [TerminationRequested] at a suspension boundary) has delivered a
    prefix of the points, whole point by whole point: the callback has run
    for exactly the delivered points, every sink holds exactly their
    coordinates, nothing is skipped or repeated. When points were still
    outstanding at the cancellation, every sink holds strictly less than
    what an uninterrupted run of the same spec leaves in it. *)
Theorem C2_cancelled_run_leaves_a_prefix env env' types
    (generate_points : list ScanGenerator → ScanOptions → list (Point Value))
    interval fuel fuel' fragment (spec : ScanSpec Value ScanGenerator ScanOptions)
    sinks s s1 :
  points_match_axes (axes spec) (generate_points (generators spec) (options spec)) →
  NoDup sinks →
  length sinks = length (axes spec) →
  run env types generate_points interval fuel fragment spec sinks s =
    (Raised TerminationRequested, s1) →
  ∃ delivered,
    generate_points (generators spec) (options spec) =
      delivered ++ remaining fragment s1 ∧
    delivered ≠ [] ∧
    callbacks_run (history s1) = callbacks_run (history s) + length delivered ∧
    (∀ j sink, sinks !! j = Some sink →
       pushed_to sink (history s1) =
       pushed_to sink (history s) ++ column j delivered) ∧
    (remaining fragment s1 ≠ [] →
     ∀ s2,
       run env' types generate_points interval fuel' fragment spec sinks s =
         (Returned tt, s2) →
       ∀ j sink, sinks !! j = Some sink →
         ∃ rest, rest ≠ [] ∧
           pushed_to sink (history s2) = pushed_to sink (history s1) ++ rest).
Proof.
  intros Hwf Hnd Hls Hrun.
  destruct (run_delivers _ _ _ _ _ _ _ _ _ _ _ Hwf Hnd Hls Hrun)
    as [(e & Ho & He & _)|(dl & Hpts & Hcb & Hpush & _ & Hne & _)];
    [congruence|].
  exists dl. split_and!; [done..|].
  intros Hrem s2 Hrun2 j sink Hj.
  pose proof (completed_run_sinks env' types generate_points interval fuel'
                fragment spec sinks s s2 Hwf Hnd Hls Hrun2) as Hfull.
  exists (column j (remaining fragment s1)). split.
  - assert (length (column j (remaining fragment s1)) =
            length (remaining fragment s1)) as Hlen.
    { apply (column_length (axes spec)).
      - unfold points_match_axes in *. rewrite Hpts in Hwf.
        by apply Forall_app in Hwf as [_ ?].
      - rewrite <- Hls. by eapply lookup_lt_Some. }
    intros Hnil. rewrite Hnil in Hlen. simpl in Hlen.
    by destruct (remaining fragment s1).
  - rewrite (Hfull j sink Hj), (Hpush j sink Hj).
    by rewrite Hpts at 1; rewrite column_app, app_assoc.
Qed.

(** ** Writes to the stores *)

Lemma host_shadow_host_sets axes chunk :
  Forall (fun e : Event Value => is_host_set e = true)
    (host_shadow_events axes chunk).
Proof.
  destruct chunk as [|p c]; [done|]. simpl.
  induction (zip p axes) as [|[v a] l IH]; [done|].
  simpl. by constructor.
Qed.

Lemma pushed_to_host_set_events sink h :
  Forall (fun e : Event Value => is_host_set e = true) h → pushed_to sink h = [].
Proof.
  induction 1 as [|e h He _ IH]; [done|].
  destruct e as [[] ? ?| | | | | | | | |]; try discriminate. apply IH.
Qed.

Lemma device_sets_absent axes p store :
  store ∉ (fun axis => store_id (param_store axis)) <$> axes →
  applied_to Device store
    (map (fun '(axis, value) =>
            EvSetValue Device (store_id (param_store axis))
              (coerce (param_store axis) value)) (zip axes p)) = @nil Value.
Proof.
  revert p. induction axes as [|a0 axes IH]; intros p Hnot; [done|].
  destruct p as [|v p]; [done|]. simpl in *.
  apply not_elem_of_cons in Hnot as [Hne Hnot].
  destruct (decide (store_id (param_store a0) = store)); [congruence|].
  by apply IH.
Qed.

Lemma device_sets_applied axes p j a :
  distinct_stores axes → axes !! j = Some a →
  applied_to Device (store_id (param_store a))
    (map (fun '(axis, value) =>
            EvSetValue Device (store_id (param_store axis))
              (coerce (param_store axis) value)) (zip axes p)) =
  option_list (coerce (param_store a) <$> p !! j).
Proof.
  unfold distinct_stores. revert p j.
  induction axes as [|a0 axes IH]; intros p j Hnd Hj; [done|].
  rewrite fmap_cons in Hnd. apply NoDup_cons in Hnd as [Hnot Hnd].
  destruct p as [|v p]; [by destruct j|].
  destruct j as [|j]; simpl in *.
  - inversion Hj; subst.
    destruct (decide (store_id (param_store a) = store_id (param_store a))); [|done].
    by rewrite device_sets_absent.
  - destruct (decide (store_id (param_store a0) = store_id (param_store a)))
      as [Heq|Hne].
    + exfalso. apply Hnot. rewrite Heq.
      apply list_elem_of_fmap. exists a. split; [done|].
      by eapply list_elem_of_lookup_2.
    + by apply IH.
Qed.

Lemma host_sets_absent axes p store :
  store ∉ (fun axis => store_id (param_store axis)) <$> axes →
  applied_to Host store
    (map (fun '(value, axis) => EvSetValue Host (store_id (param_store axis)) value)
         (zip p axes)) = @nil Value.
Proof.
  revert p. induction axes as [|a0 axes IH]; intros p Hnot; [by destruct p|].
  destruct p as [|v p]; [done|]. simpl in *.
  apply not_elem_of_cons in Hnot as [Hne Hnot].
  destruct (decide (store_id (param_store a0) = store)); [congruence|].
  by apply IH.
Qed.

Lemma host_sets_applied axes p j a :
  distinct_stores axes → axes !! j = Some a →
  applied_to Host (store_id (param_store a))
    (map (fun '(value, axis) => EvSetValue Host (store_id (param_store axis)) value)
         (zip p axes)) =
  option_list (p !! j).
Proof.
  unfold distinct_stores. revert p j.
  induction axes as [|a0 axes IH]; intros p j Hnd Hj; [done|].
  rewrite fmap_cons in Hnd. apply NoDup_cons in Hnd as [Hnot Hnd].
  destruct p as [|v p]; [by destruct j|].
  destruct j as [|j]; simpl in *.
  - inversion Hj; subst.
    destruct (decide (store_id (param_store a) = store_id (param_store a))); [|done].
    by rewrite host_sets_absent.
  - destruct (decide (store_id (param_store a0) = store_id (param_store a)))
      as [Heq|Hne].
    + exfalso. apply Hnot. rewrite Heq.
      apply list_elem_of_fmap. exists a. split; [done|].
      by eapply list_elem_of_lookup_2.
    + by apply IH.
Qed.

Lemma applied_to_device_pushes store (l : list (Value * nat)) :
  applied_to Device store (map (fun '(value, sink) => EvPush sink value) l) = [].
Proof. induction l as [|[v k] l IH]; [done|]. apply IH. Qed.

Lemma device_points_applied axes sinks pts j a :
  distinct_stores axes → axes !! j = Some a →
  applied_to Device (store_id (param_store a))
    (concat (map (device_point_events axes sinks) pts)) =
  coerce (param_store a) <$> column j pts.
Proof.
  intros Hnd Hj. induction pts as [|p pts IH]; [done|].
  rewrite column_cons, fmap_app. simpl. rewrite applied_to_app, IH. f_equal.
  unfold device_point_events.
  rewrite !applied_to_app, (device_sets_applied axes p j a Hnd Hj),
    applied_to_device_pushes.
  simpl. rewrite app_nil_r. by destruct (p !! j).
Qed.

(** After the look-ahead writes, the host store of each axis holds the
    value the next point has for that axis. *)
Lemma host_shadow_holds axes h next chunk j a :
  distinct_stores axes → axes !! j = Some a →
  length next = length axes →
  store_value Host (store_id (param_store a))
    (h ++ host_shadow_events axes (next :: chunk)) = next !! j.
Proof.
  intros Hnd Hj Hlen. unfold store_value. simpl.
  rewrite applied_to_app, (host_sets_applied axes next j a Hnd Hj).
  destruct (lookup_lt_is_Some_2 next j) as [v Hv].
  { rewrite Hlen. by eapply lookup_lt_Some. }
  rewrite Hv. simpl. apply last_snoc.
Qed.

(** C3. The chunk of the core device path is a FIFO. A chunk request and
    the update of the host stores only append, at the tail, points taken
    from the front of the iterator, and push nothing. The completion RPC
    removes the head, pushes exactly the values of that head after the
    acknowledgment has arrived, and then only refills at the tail; with an
    empty chunk it fails and pushes nothing. Over a whole run the points
    are delivered in the order of the iterator, each delivery after the
    callback and the acknowledgment of its point. *)
Theorem C3_chunk_is_a_fifo axes sinks :
  (∀ s o s',
     _kscan_param_values_chunk axes s = (o, s') →
     ∃ new,
       _kscan_current_chunk s' = _kscan_current_chunk s ++ new ∧
       points s = new ++ points s' ∧
       history s' = history s) ∧
  (∀ s o s',
     _kscan_update_host_param_stores axes s = (o, s') →
     ∃ new,
       _kscan_current_chunk s' = _kscan_current_chunk s ++ new ∧
       points s = new ++ points s' ∧
       ∀ sink, pushed_to sink (history s') = pushed_to sink (history s)) ∧
  (∀ s o s' head rest,
     _kscan_current_chunk s = head :: rest →
     _kscan_point_completed axes sinks s = (o, s') →
     ∃ new shadow,
       _kscan_current_chunk s' = rest ++ new ∧
       points s = new ++ points s' ∧
       history s' =
         history s ++
         EvPointCompleted ::
         map (fun '(value, sink) => EvPush sink value) (zip head sinks) ++ shadow ∧
       Forall (fun e => is_host_set e = true) shadow) ∧
  (∀ s o s',
     _kscan_current_chunk s = [] →
     _kscan_point_completed axes sinks s = (o, s') →
     o = Raised IndexError ∧
     _kscan_current_chunk s' = [] ∧
     points s' = points s ∧
     history s' = history s ++ [EvPointCompleted]) ∧
  (∀ env types interval fuel s o s',
     is_Some (chunk_annotation types axes) →
     points_match_axes axes (points s) →
     1 ≤ length axes ≤ 3 →
     _run_scan_on_core_device env types interval fuel axes sinks s = (o, s') →
     ∃ delivered,
       points s = delivered ++ undelivered s' ∧
       point_events (history s') =
         point_events (history s) ++
         concat (map (device_point_events axes sinks) delivered)).
Proof.
  split_and!.
  - apply param_values_chunk_frame.
  - intros s o s' Hrun.
    apply update_host_param_stores_frame in Hrun as (new & Hc & Hp & Hh).
    exists new. split_and!; [done..|]. intros sink.
    destruct Hh as [->| ->]; [done|].
    rewrite pushed_to_app.
    rewrite (pushed_to_host_set_events sink (host_shadow_events axes _))
      by apply host_shadow_host_sets.
    by rewrite app_nil_r.
  - intros s o s' head rest Hc Hrun.
    rewrite point_completed_unfold, Hc in Hrun.
    apply update_host_param_stores_frame in Hrun as (new & Hc' & Hp & Hh).
    simpl in *. exists new.
    destruct Hh as [Hh|Hh].
    + exists []. rewrite Hh, app_nil_r. by split_and!.
    + exists (host_shadow_events axes (_kscan_current_chunk s')).
      rewrite Hh, <- app_assoc. split_and!; [done..|].
      apply host_shadow_host_sets.
  - intros s o s' Hc Hrun. rewrite point_completed_unfold, Hc in Hrun.
    by inversion Hrun.
  - intros env types interval fuel s o s' Hann Hwf Hdims Hrun.
    destruct (run_scan_on_core_device_ok env types interval fuel axes sinks s
                Hann Hwf Hdims)
      as (o1 & s1 & dl & Hrun1 & Hpts & Hpe & _).
    rewrite Hrun in Hrun1. inversion Hrun1; subst. eauto.
Qed.


Lemma applied_to_host_pushes store (l : list (Value * nat)) :
  applied_to Host store (map (fun '(value, sink) => EvPush sink value) l) = [].
Proof. induction l as [|[v k] l IH]; [done|]. apply IH. Qed.

Lemma update_host_param_stores_shadow axes s :
  runner_ok axes s → distinct_stores axes →
  ∃ s',
    _kscan_update_host_param_stores axes s = (Returned tt, s') ∧
    undelivered s' = undelivered s ∧
    (_kscan_current_chunk s = [] →
     _kscan_current_chunk s' = take CHUNK_SIZE (points s) ∧
     points s' = drop CHUNK_SIZE (points s)) ∧
    (_kscan_current_chunk s ≠ [] →
     _kscan_current_chunk s' = _kscan_current_chunk s ∧ points s' = points s) ∧
    (undelivered s = [] → history s' = history s) ∧
    (∀ next later, undelivered s = next :: later →
       (∃ c, _kscan_current_chunk s' = next :: c) ∧
       ∀ j a, axes !! j = Some a →
         store_value Host (store_id (param_store a)) (history s') = next !! j).
Proof.
  intros Hok Hnd.
  destruct (update_host_param_stores_ok axes s Hok)
    as (s' & Hrun & Hok' & Hu & Hne & Hem & Hh).
  exists s'. split_and!; [done..| |].
  - intros Hnil. unfold undelivered in Hnil.
    apply app_eq_nil in Hnil as [Hc Hp].
    destruct (Hem Hc) as [Hc' _]. rewrite Hp in Hc'.
    rewrite Hh, Hc'. simpl. by rewrite app_nil_r.
  - intros next later Hnext.
    assert (∃ c, _kscan_current_chunk s' = next :: c) as [c Hc'].
    { unfold undelivered in Hnext.
      destruct (_kscan_current_chunk s) as [|p c0] eqn:Hc.
      - destruct (Hem eq_refl) as [-> _]. simpl in Hnext. rewrite Hnext.
        simpl. eauto.
      - destruct Hne as [-> _]; [done|]. inversion Hnext; subst. eauto. }
    split; [eauto|]. intros j a Hj. rewrite Hh, Hc'.
    apply host_shadow_holds; [done..|].
    destruct Hok as (_ & Hwf & _). unfold points_match_axes in Hwf.
    rewrite Hnext in Hwf. by inversion Hwf.
Qed.

(** ** The host stores over a run on the core device *)

Lemma applied_to_host_quiet store (evs : list (Event Value)) :
  Forall (fun e => is_host_set e = false) evs → applied_to Host store evs = [].
Proof.
  induction 1 as [|e evs He _ IH]; [done|].
  destruct e as [[] ? ?| | | | | | | | |]; try discriminate; apply IH.
Qed.

Lemma shadows_quiet axes h (evs : list (Event Value)) p :
  Forall (fun e => is_host_set e = false) evs →
  shadows axes h p → shadows axes (h ++ evs) p.
Proof.
  intros Hq Hs j a Hj. unfold store_value.
  rewrite applied_to_app, (applied_to_host_quiet _ evs Hq), app_nil_r. by apply Hs.
Qed.

Lemma shadowed_quiet axes h (evs : list (Event Value)) und prev :
  Forall (fun e => is_host_set e = false) evs →
  shadowed axes h und prev → shadowed axes (h ++ evs) und prev.
Proof. intros Hq Hs q Hpoint. apply shadows_quiet; [done|]. by apply Hs. Qed.

Lemma device_point_not_host axes sinks (p : Point Value) :
  Forall (fun e => is_host_set e = false) (device_point_events axes sinks p).
Proof.
  unfold device_point_events. apply Forall_app. split; [|apply Forall_app; split].
  - induction (zip axes p) as [|[a v] l IH]; [done|]. simpl. by constructor.
  - by repeat constructor.
  - induction (zip p sinks) as [|[v k] l IH]; [done|]. simpl. by constructor.
Qed.

Lemma device_sets_not_host axes (p : Point Value) :
  Forall (fun e => is_host_set e = false)
    (map (fun '(axis, value) =>
            EvSetValue Device (store_id (param_store axis))
              (coerce (param_store axis) value))
         (zip axes p)).
Proof. induction (zip axes p) as [|[a v] l IH]; [done|]. simpl. by constructor. Qed.

Lemma callbacks_run_device_sets axes (p : Point Value) :
  callbacks_run
    (map (fun '(axis, value) =>
            EvSetValue Device (store_id (param_store axis))
              (coerce (param_store axis) value))
         (zip axes p)) = 0.
Proof. induction (zip axes p) as [|[a v] l IH]; [done|]. apply IH. Qed.

Lemma callbacks_run_host_sets (evs : list (Event Value)) :
  Forall (fun e => is_host_set e = true) evs → callbacks_run evs = 0.
Proof.
  induction 1 as [|e evs He _ IH]; [done|].
  destruct e as [[] ? ?| | | | | | | | |]; try discriminate. apply IH.
Qed.

Lemma callbacks_shadowed_refl axes (h : list (Event Value)) :
  callbacks_shadowed axes h h [].
Proof.
  split_and!.
  - exists []. by rewrite app_nil_r.
  - simpl. lia.
  - intros i p Hi. by rewrite lookup_nil in Hi.
Qed.

Lemma callbacks_shadowed_trans axes (h0 h1 h2 : list (Event Value)) dl1 dl2 :
  callbacks_shadowed axes h0 h1 dl1 → callbacks_shadowed axes h1 h2 dl2 →
  callbacks_shadowed axes h0 h2 (dl1 ++ dl2).
Proof.
  intros ([ev1 He1] & Hc1 & Hs1) ([ev2 He2] & Hc2 & Hs2). split_and!.
  - exists (ev1 ++ ev2). by rewrite He2, He1, app_assoc.
  - rewrite Hc2, Hc1, length_app. lia.
  - intros i p Hi. apply lookup_app_Some in Hi as [Hi|[Hge Hi]].
    + destruct (Hs1 i p Hi) as (before & after & Hh & Hcb & Hsh).
      exists before, (after ++ ev2). split_and!; [|done..].
      rewrite He2, Hh. by rewrite <- !app_assoc.
    + destruct (Hs2 _ p Hi) as (before & after & Hh & Hcb & Hsh).
      exists before, after. split_and!; [done| |done]. rewrite Hcb, Hc1. lia.
Qed.

Lemma callbacks_shadowed_quiet axes (h0 h evs : list (Event Value)) dl :
  callbacks_shadowed axes h0 h dl → callbacks_run evs = 0 →
  callbacks_shadowed axes h0 (h ++ evs) dl.
Proof.
  intros Hcs Hq. rewrite <- (app_nil_r dl).
  eapply callbacks_shadowed_trans; [done|]. split_and!.
  - by exists evs.
  - rewrite callbacks_run_app, Hq. simpl. lia.
  - intros i p Hi. by rewrite lookup_nil in Hi.
Qed.

Lemma callbacks_shadowed_from axes (h0 evs h : list (Event Value)) dl :
  callbacks_run evs = 0 → callbacks_shadowed axes (h0 ++ evs) h dl →
  callbacks_shadowed axes h0 h dl.
Proof.
  intros Hq Hcs. change dl with ([] ++ dl).
  eapply callbacks_shadowed_trans; [|done].
  apply callbacks_shadowed_quiet; [apply callbacks_shadowed_refl|done].
Qed.

Lemma shadow_prev_app (prev : option (Point Value)) dl1 dl2 :
  from_option Some prev (last (dl1 ++ dl2)) =
  from_option Some (from_option Some prev (last dl1)) (last dl2).
Proof. rewrite last_app. by destruct (last dl2). Qed.

(** Updating the host stores writes the values of the next point to
    deliver, if there is one. *)
Lemma update_host_param_stores_primed axes s :
  runner_ok axes s →
  ∃ s',
    _kscan_update_host_param_stores axes s = (Returned tt, s') ∧
    runner_ok axes s' ∧
    undelivered s' = undelivered s ∧
    (_kscan_current_chunk s ≠ [] →
     _kscan_current_chunk s' = _kscan_current_chunk s ∧ points s' = points s) ∧
    history s' = history s ++ host_shadow_events axes (undelivered s).
Proof.
  intros Hok.
  destruct (update_host_param_stores_ok axes s Hok)
    as (s' & Hrun & Hok' & Hu & Hne & Hem & Hh).
  exists s'. split_and!; [done..|]. rewrite Hh, <- Hu. f_equal.
  unfold undelivered.
  destruct (_kscan_current_chunk s') as [|p c] eqn:Hc'; [|done].
  destruct (_kscan_current_chunk s) as [|p0 c0] eqn:Hc.
  - destruct (Hem eq_refl) as [Htake Hdrop]. rewrite Hdrop.
    destruct (points s) as [|p1 pts]; [done|].
    unfold CHUNK_SIZE in Htake. simpl in Htake. done.
  - destruct Hne as [Heq _]; done.
Qed.

Lemma primed_shadowed axes (h : list (Event Value)) und prev :
  distinct_stores axes → points_match_axes axes und →
  (und = [] → shadowed axes h [] prev) →
  shadowed axes (h ++ host_shadow_events axes und) und prev.
Proof.
  intros Hnd Hwf Hprev. destruct und as [|next later].
  - simpl. rewrite app_nil_r. by apply Hprev.
  - intros q Hq. simpl in Hq. inversion Hq; subst q. intros j a Hj.
    apply host_shadow_holds; [done..|]. by inversion Hwf.
Qed.

Lemma kscan_point_shadow env axes sinks interval values i last s p rest prev :
  runner_ok axes s → distinct_stores axes →
  _kscan_current_chunk s = p :: rest →
  (∀ k a, axes !! k = Some a →
     values !! k ≫= (.!! i) = coerce (param_store a) <$> p !! k) →
  shadowed axes (history s) (undelivered s) prev →
  ∃ r s',
    kscan_point env axes sinks interval (length axes) values i last s =
      (Returned r, s') ∧
    runner_ok axes s' ∧
    undelivered s' = rest ++ points s ∧
    (rest ≠ [] → _kscan_current_chunk s' = rest ∧ points s' = points s) ∧
    callbacks_shadowed axes (history s) (history s') [p] ∧
    shadowed axes (history s') (undelivered s') (Some p).
Proof.
  intros Hok Hnd Hc Hrow Hinv.
  assert (length p = length axes) as Hlen.
  { destruct Hok as (_ & Hwf & _). unfold points_match_axes, undelivered in Hwf.
    rewrite Hc in Hwf. by inversion Hwf. }
  assert (shadows axes (history s) p) as Hp.
  { apply Hinv. unfold undelivered. by rewrite Hc. }
  unfold kscan_point. unfold bind at 1. rewrite (kscan_set_params_ok axes values i p) by done.
  unfold bind at 1, _kscan_run_fragment_once, bind at 1, device_setup, run_once, emit.
  cbn [points _kscan_current_chunk history].
  unfold bind at 1. rewrite point_completed_unfold.
  cbn [points _kscan_current_chunk history]. rewrite Hc.
  match goal with
  | |- context [_kscan_update_host_param_stores axes ?s1] =>
      destruct (update_host_param_stores_primed axes s1)
        as (s2 & -> & Hok2 & Hu2 & Hne2 & Hh2)
  end.
  { destruct Hok as (Hl & Hwf & Hax). unfold runner_ok, undelivered in *. simpl.
    rewrite Hc in *. simpl in Hl. split_and!; [lia| |done].
    by inversion Hwf. }
  unfold undelivered at 2 in Hu2. unfold undelivered at 1 in Hh2.
  cbn [points _kscan_current_chunk history] in *.
  assert (history s2 =
          (history s ++ device_point_events axes sinks p) ++
          host_shadow_events axes (undelivered s2)) as Hform.
  { rewrite Hh2, Hu2. unfold device_point_events. by rewrite <- !app_assoc. }
  assert (callbacks_shadowed axes (history s) (history s2) [p]) as Hcs.
  { split_and!.
    - exists (device_point_events axes sinks p ++
              host_shadow_events axes (undelivered s2)).
      by rewrite Hform, <- app_assoc.
    - rewrite Hform, !callbacks_run_app, callbacks_run_device_point.
      rewrite (callbacks_run_host_sets _ (host_shadow_host_sets axes _)).
      simpl. lia.
    - intros [|n] q Hq; [|done]. inversion Hq; subst q.
      exists (history s ++
              map (fun '(axis, value) =>
                     EvSetValue Device (store_id (param_store axis))
                       (coerce (param_store axis) value))
                  (zip axes p)),
             (map (fun '(value, sink) => EvPush sink value) (zip p sinks) ++
              host_shadow_events axes (undelivered s2)).
      split_and!.
      + rewrite Hform. unfold device_point_events. by rewrite <- !app_assoc.
      + rewrite callbacks_run_app, callbacks_run_device_sets. lia.
      + apply shadows_quiet; [apply device_sets_not_host|done]. }
  assert (shadowed axes (history s2) (undelivered s2) (Some p)) as Hsh.
  { rewrite Hform. apply primed_shadowed; [done|apply Hok2|].
    intros _ q Hq. inversion Hq; subst q.
    apply shadows_quiet; [apply device_point_not_host|done]. }
  unfold bind, rtio_counter. cbn [points _kscan_current_chunk history].
  destruct (_ <? _)%Z.
  - unfold scheduler_check_pause. cbn [points _kscan_current_chunk history].
    destruct (check_pause env _); unfold ret; eexists _, _; (split; [done|]);
      cbn [history]; (split_and!; [done|done|done| |]);
      repeat first [apply callbacks_shadowed_quiet; [|done]
                   |apply shadowed_quiet; [by repeat constructor|]]; done.
  - unfold ret. eexists _, _. split; [done|]. cbn [history].
    split_and!; [done|done|done| |].
    + by apply callbacks_shadowed_quiet.
    + apply shadowed_quiet; [by repeat constructor|done].
Qed.

Lemma kscan_for_shadow env axes sinks interval values :
  distinct_stores axes →
  ∀ todo i last_mu s prev,
    runner_ok axes s →
    _kscan_current_chunk s = todo →
    (∀ j p, todo !! j = Some p → ∀ k a, axes !! k = Some a →
       values !! k ≫= (.!! (i + j)) = coerce (param_store a) <$> p !! k) →
    shadowed axes (history s) (undelivered s) prev →
    ∃ r s' delivered,
      kscan_for env axes sinks interval (length axes) values
        (seq i (length todo)) last_mu s = (Returned r, s') ∧
      runner_ok axes s' ∧
      undelivered s = delivered ++ undelivered s' ∧
      callbacks_shadowed axes (history s) (history s') delivered ∧
      shadowed axes (history s') (undelivered s')
        (from_option Some prev (last delivered)) ∧
      (todo ≠ [] → delivered ≠ []).
Proof.
  intros Hnd. induction todo as [|p todo IH]; intros i last_mu s prev Hok Hc Hrows Hinv.
  - simpl. unfold ret. exists (Some last_mu), s, []. simpl.
    split_and!; [done..|apply callbacks_shadowed_refl|done|done].
  - cbn [length seq kscan_for]. unfold bind at 1.
    destruct (kscan_point_shadow env axes sinks interval values i last_mu s p todo prev)
      as (r & s1 & -> & Hok1 & Hu1 & Hrest & Hcs1 & Hsh1); [done..| |done|].
    { intros k a Ha. rewrite <- (Hrows 0 p eq_refl k a Ha). by rewrite Nat.add_0_r. }
    assert (undelivered s = [p] ++ undelivered s1) as Hund.
    { rewrite Hu1. unfold undelivered. by rewrite Hc. }
    destruct r as [last1|].
    + destruct todo as [|p' todo'].
      * simpl. unfold ret. exists (Some last1), s1, [p]. by split_and!.
      * destruct Hrest as [Hc1 Hp1]; [done|].
        destruct (IH (S i) last1 s1 (Some p))
          as (r & s2 & dl & -> & Hok2 & Hu2 & Hcs2 & Hsh2 & _); [done..| |done|].
        { intros j q Hq k a Ha. replace (S i + j) with (i + S j) by lia.
          by apply (Hrows (S j) q). }
        exists r, s2, ([p] ++ dl). split_and!; [done|done| | | |done].
        -- by rewrite Hund, Hu2.
        -- by eapply callbacks_shadowed_trans.
        -- by rewrite shadow_prev_app.
    + unfold ret. exists None, s1, [p]. by split_and!.
Qed.

Lemma kscan_while_shadow env axes sinks interval :
  distinct_stores axes →
  ∀ fuel last_mu s prev,
    runner_ok axes s →
    shadowed axes (history s) (undelivered s) prev →
    ∃ o s' delivered,
      kscan_while env axes sinks interval fuel (length axes) last_mu s = (o, s') ∧
      runner_ok axes s' ∧
      undelivered s = delivered ++ undelivered s' ∧
      callbacks_shadowed axes (history s) (history s') delivered ∧
      shadowed axes (history s') (undelivered s')
        (from_option Some prev (last delivered)) ∧
      match o with
      | Returned _ => delivered ≠ []
      | Raised e => e = ScanFinished ∧ undelivered s' = []
      | OutOfFuel => fuel ≤ length delivered
      end.
Proof.
  intros Hnd. induction fuel as [|fuel IH]; intros last_mu s prev Hok Hinv.
  - simpl. exists OutOfFuel, s, []. simpl.
    split_and!; [done..|apply callbacks_shadowed_refl|done|done].
  - cbn [kscan_while]. unfold bind at 1.
    rewrite param_values_chunk_ok by done.
    pose proof (runner_ok_primed axes s Hok) as Hok1. cbv zeta in Hok1.
    set (n := CHUNK_SIZE - length (_kscan_current_chunk s)) in *.
    set (todo := _kscan_current_chunk s ++ take n (points s)) in *.
    set (s1 := mkRunner (drop n (points s)) todo (history s)) in *.
    assert (undelivered s1 = undelivered s) as Hu1.
    { unfold undelivered, s1, todo. simpl. by rewrite <- app_assoc, take_drop. }
    assert (shadowed axes (history s1) (undelivered s1) prev) as Hinv1
      by (by rewrite Hu1).
    assert (points_match_axes axes todo) as Hwf.
    { destruct Hok1 as (_ & Hwf & _). unfold points_match_axes, undelivered in Hwf.
      simpl in Hwf. by apply Forall_app in Hwf as [? _]. }
    assert (0 < length axes) as Hax by apply Hok.
    destruct todo as [|p todo'] eqn:Htodo.
    + exists (Raised ScanFinished), s1, []. simpl.
      split_and!; [done|done|done|apply callbacks_shadowed_refl|done|done|].
      unfold todo in Htodo. apply app_eq_nil in Htodo as [Hc Htake].
      unfold undelivered, s1. simpl.
      assert (n = CHUNK_SIZE) as Hn by (unfold n; rewrite Hc; done).
      rewrite Hn in *. by destruct (points s).
    + rewrite <- Htodo in *.
      set (values := foldl (append_coerced axes) (replicate (length axes) []) todo).
      assert (length values = length axes) as Hlv.
      { unfold values. by rewrite chunk_values_length, length_replicate. }
      destruct (decide (length values = length axes)); [|done].
      destruct (lookup_lt_is_Some_2 axes 0 Hax) as [a0 Ha0].
      assert (length (values !!! 0) = length todo) as Hl0.
      { rewrite (list_lookup_total_correct values 0 _
                   (chunk_values_column axes todo 0 a0 Ha0)).
        rewrite length_fmap. by eapply column_length. }
      rewrite Hl0.
      destruct (kscan_for_shadow env axes sinks interval values Hnd todo 0 last_mu s1 prev)
        as (r & s2 & dl & Hfor & Hok2 & Hu2 & Hcs2 & Hsh2 & Hne); [done|done| |done|].
      { intros j q Hq k a Ha. simpl. unfold values.
        rewrite (chunk_values_column axes todo k a Ha). simpl.
        rewrite list_lookup_fmap.
        rewrite (column_lookup axes k todo j Hwf) by (by eapply lookup_lt_Some).
        rewrite Hq. done. }
      unfold bind at 1. rewrite Hfor.
      assert (dl ≠ []) as Hdone by (apply Hne; by rewrite Htodo).
      destruct r as [last1|].
      * destruct (IH last1 s2 (from_option Some prev (last dl)) Hok2 Hsh2)
          as (o & s3 & dl' & -> & Hok3 & Hu3 & Hcs3 & Hsh3 & Ho).
        exists o, s3, (dl ++ dl'). split_and!; [done|done| | | |].
        -- by rewrite <- app_assoc, <- Hu3, <- Hu2.
        -- by eapply callbacks_shadowed_trans.
        -- by rewrite shadow_prev_app.
        -- destruct o; [|done|].
           ++ by destruct dl.
           ++ rewrite length_app. destruct dl; [done|]. simpl. lia.
      * unfold ret. exists (Returned tt), s2, dl. split_and!; try done.
        by rewrite <- Hu2.
Qed.

Lemma kscan_impl_shadow env axes sinks interval fuel s prev :
  distinct_stores axes →
  runner_ok axes s →
  shadowed axes (history s) (undelivered s) prev →
  ∃ o s' delivered,
    kscan_impl env axes sinks interval fuel (length axes) s = (o, s') ∧
    runner_ok axes s' ∧
    undelivered s = delivered ++ undelivered s' ∧
    callbacks_shadowed axes (history s) (history s') delivered ∧
    shadowed axes (history s') (undelivered s')
      (from_option Some prev (last delivered)) ∧
    match o with
    | Returned _ => delivered ≠ []
    | Raised e => e = ScanFinished ∧ undelivered s' = []
    | OutOfFuel => fuel ≤ length delivered
    end.
Proof.
  intros Hnd Hok Hinv. unfold kscan_impl, bind, rtio_counter.
  match goal with
  | |- context [kscan_while _ _ _ _ _ _ ?last ?s1] =>
      destruct (kscan_while_shadow env axes sinks interval Hnd fuel last s1 prev)
        as (o & s' & dl & -> & Hok' & Hu & Hcs & Hsh & Ho)
  end.
  { unfold runner_ok, undelivered in *. simpl. done. }
  { cbn [history]. apply shadowed_quiet; [by repeat constructor|done]. }
  exists o, s', dl. split_and!; try done.
  cbn [history] in Hcs. by eapply callbacks_shadowed_from; [|done].
Qed.

Lemma kscan_host_loop_shadow env axes sinks interval kfuel :
  distinct_stores axes →
  ∀ fuel s prev,
    runner_ok axes s →
    shadowed axes (history s) (undelivered s) prev →
    ∃ o s' delivered,
      kscan_host_loop env fuel
        (kscan_impl env axes sinks interval kfuel (length axes)) s = (o, s') ∧
      undelivered s = delivered ++ undelivered s' ∧
      callbacks_shadowed axes (history s) (history s') delivered ∧
      shadowed axes (history s') (undelivered s')
        (from_option Some prev (last delivered)) ∧
      (0 < fuel → ∃ after, history s' = history s ++ EvHostSetup :: after) ∧
      match o with
      | Returned _ => False
      | Raised e =>
          (e = ScanFinished ∧ undelivered s' = []) ∨
          (e = TerminationRequested ∧ delivered ≠ [])
      | OutOfFuel => fuel ≤ length delivered ∨ kfuel ≤ length delivered
      end.
Proof.
  intros Hnd. induction fuel as [|fuel IH]; intros s prev Hok Hinv.
  - simpl. exists OutOfFuel, s, []. simpl.
    split_and!; [done|done|apply callbacks_shadowed_refl|done|lia|left; lia].
  - cbn [kscan_host_loop]. unfold bind at 1, host_setup, emit.
    unfold bind at 1.
    match goal with
    | |- context [kscan_impl _ _ _ _ _ _ ?s1] =>
        destruct (kscan_impl_shadow env axes sinks interval kfuel s1 prev)
          as (o1 & s2 & dl & -> & Hok2 & Hu2 & Hcs2 & Hsh2 & Ho1)
    end.
    { done. }
    { unfold runner_ok, undelivered in *. simpl. done. }
    { cbn [history]. apply shadowed_quiet; [by repeat constructor|done]. }
    assert (undelivered s = dl ++ undelivered s2) as Hu by done.
    cbn [history] in Hcs2. clear Hu2.
    assert (∀ h (dl' : list (Point Value)),
              callbacks_shadowed axes (history s ++ [EvHostSetup]) h dl' →
              callbacks_shadowed axes (history s) h dl' ∧
              (0 < S fuel → ∃ after, h = history s ++ EvHostSetup :: after))
      as Hstart.
    { intros h dl' Hcs. split.
      - by eapply callbacks_shadowed_from; [|done].
      - intros _. destruct Hcs as ([evs ->] & _). exists evs.
        by rewrite <- app_assoc. }
    destruct o1 as [[]|e|].
    + unfold bind at 1, comm_close, emit. unfold bind at 1, scheduler_pause.
      cbn [points _kscan_current_chunk history].
      assert (callbacks_shadowed axes (history s ++ [EvHostSetup])
                ((history s2 ++ [EvCommClose]) ++ [EvPause]) dl) as Hcs3
        by (by repeat apply callbacks_shadowed_quiet).
      assert (shadowed axes ((history s2 ++ [EvCommClose]) ++ [EvPause])
                (undelivered s2) (from_option Some prev (last dl))) as Hsh3
        by (repeat (apply shadowed_quiet; [by repeat constructor|]); done).
      destruct (termination_requested env _) eqn:Hterm.
      * destruct (Hstart _ _ Hcs3) as [Hcs Hafter].
        eexists _, _, dl. split; [done|]. cbn [history].
        split_and!; [done|done|done|done|]. right. by eauto.
      * match goal with
        | |- context [kscan_host_loop _ _ _ ?s3] =>
            destruct (IH s3 (from_option Some prev (last dl)))
              as (o & s4 & dl' & -> & Hu4 & Hcs4 & Hsh4 & _ & Ho)
        end.
        { unfold runner_ok, undelivered in *. simpl. done. }
        { done. }
        cbn [history] in Hcs4.
        destruct (Hstart (history s4) (dl ++ dl')) as [Hcs Hafter];
          [by eapply callbacks_shadowed_trans|].
        exists o, s4, (dl ++ dl'). split_and!; [done| |done| |done|].
        -- rewrite Hu. unfold undelivered in *. simpl in Hu4.
           by rewrite Hu4, app_assoc.
        -- by rewrite shadow_prev_app.
        -- destruct o as [|e|]; [done| |].
           ++ destruct Ho as [|(? & ?)]; [by left|right].
              split_and!; try done. by destruct dl.
           ++ rewrite length_app. destruct dl; [done|]. simpl. lia.
    + destruct Ho1 as [-> Hu']. destruct (Hstart _ _ Hcs2) as [Hcs Hafter].
      exists (Raised ScanFinished), s2, dl.
      split_and!; try done. by left.
    + destruct (Hstart _ _ Hcs2) as [Hcs Hafter].
      exists OutOfFuel, s2, dl. split_and!; try done. by right.
Qed.

(** The core device path, from start to end, seen from the host stores. *)
Lemma run_scan_on_core_device_shadow env types interval fuel axes sinks s :
  is_Some (chunk_annotation types axes) →
  points_match_axes axes (points s) →
  1 ≤ length axes ≤ 3 →
  distinct_stores axes →
  ∃ o s' delivered,
    _run_scan_on_core_device env types interval fuel axes sinks s = (o, s') ∧
    points s = delivered ++ undelivered s' ∧
    (∀ first later, points s = first :: later → 0 < fuel →
       ∃ after,
         history s' =
           history s ++ host_shadow_events axes [first] ++ EvHostSetup :: after ∧
         shadows axes (history s ++ host_shadow_events axes [first]) first) ∧
    callbacks_shadowed axes (history s) (history s') delivered ∧
    shadowed axes (history s') (undelivered s') (last delivered) ∧
    match o with
    | Returned _ => undelivered s' = []
    | Raised e => e = TerminationRequested ∧ delivered ≠ []
    | OutOfFuel => fuel ≤ length delivered
    end.
Proof.
  intros [annotation Hann] Hwf Hdims Hnd.
  unfold _run_scan_on_core_device, bind at 1, reset_chunk. rewrite Hann.
  destruct (getattr_kscan_impl env axes sinks interval fuel (length axes))
    as [impl|] eqn:Himpl.
  2: { apply getattr_kscan_impl_None in Himpl. lia. }
  apply getattr_kscan_impl_Some in Himpl as [-> _].
  unfold suppress_ScanFinished, bind.
  match goal with
  | |- context [_kscan_update_host_param_stores axes ?s0] =>
      destruct (update_host_param_stores_primed axes s0)
        as (s1 & -> & Hok1 & Hu1 & _ & Hh1)
  end.
  { unfold runner_ok, undelivered. simpl. split_and!; [lia|done|lia]. }
  unfold undelivered at 2 in Hu1. unfold undelivered at 1 in Hh1.
  cbn [points _kscan_current_chunk history app] in Hu1, Hh1.
  assert (shadowed axes (history s1) (undelivered s1) None) as Hinv1.
  { rewrite Hh1, Hu1. apply primed_shadowed; [done|done|]. by intros _ q Hq. }
  destruct (kscan_host_loop_shadow env axes sinks interval fuel Hnd fuel s1 None
              Hok1 Hinv1)
    as (o & s2 & dl & -> & Hu2 & Hcs2 & Hsh2 & Hstart & Ho).
  assert (callbacks_shadowed axes (history s) (history s2) dl) as Hcs.
  { rewrite Hh1 in Hcs2. eapply callbacks_shadowed_from; [|done].
    apply callbacks_run_host_sets, host_shadow_host_sets. }
  assert (∀ first later, points s = first :: later → 0 < fuel →
            ∃ after,
              history s2 =
                history s ++ host_shadow_events axes [first] ++ EvHostSetup :: after ∧
              shadows axes (history s ++ host_shadow_events axes [first]) first)
    as Hfirst.
  { intros first later Hpts Hfuel. destruct (Hstart Hfuel) as [after Hafter].
    exists after. split.
    - rewrite Hafter, Hh1, Hpts. by rewrite <- app_assoc.
    - intros j a Hj. apply host_shadow_holds; [done..|].
      rewrite Hpts in Hwf. by inversion Hwf. }
  assert (from_option Some None (last dl) = last dl) as Hlast
    by (by destruct (last dl)).
  rewrite Hlast in Hsh2. rewrite Hu1 in Hu2.
  destruct o as [[]|e|]; [done| |].
  - destruct Ho as [[-> Hu]|(-> & Hne)].
    + exists (Returned tt), s2, dl. by split_and!.
    + exists (Raised TerminationRequested), s2, dl. by split_and!.
  - exists OutOfFuel, s2, dl. split_and!; [done..|]. lia.
Qed.

(** C5. On the core device path the host stores shadow the next point.
    Updating the host stores (at the start of the run, where the chunk is
    empty, and at the end of every completion RPC) and the completion RPC
    itself both return with the chunk primed from the iterator if it was
    empty, and, when a point is still to be delivered, with that point at
    the head of the chunk and the host store of every axis holding its
    value for that axis. When the scan is exhausted nothing is written.
    Over a run of [_run_scan_on_core_device]: the values of the first
    point are written to the host stores before the first [host_setup]
    and kernel launch; whenever the callback is started for a point, the
    host stores hold the values of that point; when the run ends with
    points left, they hold the values of the next of them, and when it
    ends with none left they still hold those of the last point. The run
    returns only with all points delivered. *)
Theorem C5_host_stores_hold_the_next_point axes sinks s :
  runner_ok axes s → distinct_stores axes →
  (∃ s',
     _kscan_update_host_param_stores axes s = (Returned tt, s') ∧
     undelivered s' = undelivered s ∧
     (_kscan_current_chunk s = [] →
      _kscan_current_chunk s' = take CHUNK_SIZE (points s) ∧
      points s' = drop CHUNK_SIZE (points s)) ∧
     (_kscan_current_chunk s ≠ [] →
      _kscan_current_chunk s' = _kscan_current_chunk s ∧ points s' = points s) ∧
     (undelivered s = [] → history s' = history s) ∧
     (∀ next later, undelivered s = next :: later →
        (∃ c, _kscan_current_chunk s' = next :: c) ∧
        ∀ j a, axes !! j = Some a →
          store_value Host (store_id (param_store a)) (history s') = next !! j)) ∧
  (∀ head rest,
     _kscan_current_chunk s = head :: rest →
     ∃ s',
       _kscan_point_completed axes sinks s = (Returned tt, s') ∧
       undelivered s' = rest ++ points s ∧
       (rest ++ points s = [] →
        ∀ store, store_value Host store (history s') =
                 store_value Host store (history s)) ∧
       (∀ next later, rest ++ points s = next :: later →
          (∃ c, _kscan_current_chunk s' = next :: c) ∧
          ∀ j a, axes !! j = Some a →
            store_value Host (store_id (param_store a)) (history s') = next !! j)) ∧
  (∀ env types interval fuel o s',
     is_Some (chunk_annotation types axes) →
     length axes ≤ 3 →
     _run_scan_on_core_device env types interval fuel axes sinks s = (o, s') →
     ∃ delivered,
       points s = delivered ++ undelivered s' ∧
       (∀ first later, points s = first :: later → 0 < fuel →
          ∃ after,
            history s' =
              history s ++ host_shadow_events axes [first] ++ EvHostSetup :: after ∧
            shadows axes (history s ++ host_shadow_events axes [first]) first) ∧
       (∀ i p, delivered !! i = Some p →
          ∃ before after,
            history s' =
              before ++ [EvDeviceSetup; EvRunOnce; EvPointCompleted] ++ after ∧
            callbacks_run before = callbacks_run (history s) + i ∧
            shadows axes before p) ∧
       (∀ next later, undelivered s' = next :: later →
          shadows axes (history s') next) ∧
       (∀ earlier last_point,
          undelivered s' = [] → delivered = earlier ++ [last_point] →
          shadows axes (history s') last_point) ∧
       match o with
       | Returned _ => undelivered s' = []
       | Raised e => e = TerminationRequested ∧ delivered ≠ []
       | OutOfFuel => fuel ≤ length delivered
       end).
Proof.
  intros Hok Hnd. split_and!.
  - by apply update_host_param_stores_shadow.
  - intros head rest Hc. rewrite point_completed_unfold, Hc.
    match goal with
    | |- context [_kscan_update_host_param_stores axes ?s1] =>
        destruct (update_host_param_stores_shadow axes s1)
          as (s' & Hrun & Hu & _ & _ & Hex & Hnext); [|done|]
    end.
    { destruct Hok as (Hl & Hwf & Hax). unfold runner_ok, undelivered in *.
      simpl. rewrite Hc in *. simpl in Hl. split_and!; [lia| |done].
      by inversion Hwf. }
    exists s'. unfold undelivered in *. simpl in *.
    split_and!; [done..| |done].
    intros Hnil store. rewrite (Hex Hnil). unfold store_value.
    rewrite applied_to_app. simpl. by rewrite applied_to_host_pushes, app_nil_r.
  - intros env types interval fuel o s' Hann Hdims Hrun.
    destruct Hok as (_ & Hwf & Hax).
    assert (points_match_axes axes (points s)) as Hpts.
    { unfold points_match_axes, undelivered in Hwf.
      by apply Forall_app in Hwf as [_ ?]. }
    destruct (run_scan_on_core_device_shadow env types interval fuel axes sinks s)
      as (o1 & s1 & dl & Hrun1 & Hsplit & Hfirst & Hcs & Hsh & Ho);
      [done|done|lia|done|].
    rewrite Hrun in Hrun1. inversion Hrun1; subst o1 s1.
    exists dl. split_and!; [done|done| | | |done].
    + apply Hcs.
    + intros next later Hnext. apply Hsh. by rewrite Hnext.
    + intros earlier last_point Hnil ->. apply Hsh.
      by rewrite Hnil, last_snoc.
Qed.

(** ** Exhaustion *)

Lemma update_host_param_stores_not_ScanFinished axes s o s' :
  _kscan_update_host_param_stores axes s = (o, s') → o ≠ Raised ScanFinished.
Proof.
  unfold _kscan_update_host_param_stores, bind, current_chunk. intros Hrun.
  destruct (_kscan_current_chunk s) as [|p c] eqn:Hc.
  - unfold unless_ScanFinished in Hrun.
    destruct (_kscan_param_values_chunk axes s) as [[values|e|] s1].
    + destruct (_kscan_current_chunk s1) as [|p1 c1].
      * by inversion Hrun.
      * rewrite host_shadow_loop in Hrun. by inversion Hrun.
    + destruct e; by inversion Hrun.
    + by inversion Hrun.
  - unfold ret in Hrun. rewrite Hc, host_shadow_loop in Hrun. by inversion Hrun.
Qed.

Lemma run_scan_on_core_device_not_ScanFinished env types interval fuel axes sinks
    s o s' :
  _run_scan_on_core_device env types interval fuel axes sinks s = (o, s') →
  o ≠ Raised ScanFinished.
Proof.
  unfold _run_scan_on_core_device, bind at 1, reset_chunk. intros Hrun.
  destruct (chunk_annotation types axes); [|by inversion Hrun].
  destruct (getattr_kscan_impl _ _ _ _ _ _) as [impl|]; [|by inversion Hrun].
  unfold suppress_ScanFinished in Hrun.
  destruct (bind _ _ _) as [[[]|e|] s1]; [by inversion Hrun| |by inversion Hrun].
  destruct e; by inversion Hrun.
Qed.

Lemma run_scan_on_core_device_completes env types interval fuel axes sinks s :
  is_Some (chunk_annotation types axes) →
  points_match_axes axes (points s) →
  1 ≤ length axes ≤ 3 →
  (∀ h, termination_requested env h = false) →
  length (points s) < fuel →
  ∃ s',
    _run_scan_on_core_device env types interval fuel axes sinks s = (Returned tt, s') ∧
    undelivered s' = [].
Proof.
  intros Hann Hwf Hdims Hcalm Hfuel.
  destruct (run_scan_on_core_device_ok env types interval fuel axes sinks s
              Hann Hwf Hdims)
    as (o & s' & dl & Hrun & Hpts & _ & Ho).
  destruct o as [[]|e|].
  - eauto.
  - destruct Ho as (_ & _ & h & Hterm). by rewrite Hcalm in Hterm.
  - rewrite Hpts, length_app in Hfuel. lia.
Qed.

(** C6. A chunk request with an empty chunk and an exhausted iterator
    raises [ScanFinished]. The signal never leaves the runner: the update
    of the host stores catches it, [run] never raises it on either path,
    and a core device run that is not told to terminate returns normally
    once every point is delivered. *)
Theorem C6_scan_finished_stays_inside_the_runner :
  (∀ (axes : list (ScanAxis Value)) s,
     axes ≠ [] → _kscan_current_chunk s = [] → points s = [] →
     _kscan_param_values_chunk axes s = (Raised ScanFinished, s)) ∧
  (∀ (axes : list (ScanAxis Value)) s o s',
     _kscan_update_host_param_stores axes s = (o, s') → o ≠ Raised ScanFinished) ∧
  (∀ env types
     (generate_points : list ScanGenerator → ScanOptions → list (Point Value))
     interval fuel fragment (spec : ScanSpec Value ScanGenerator ScanOptions)
     sinks s o s',
     run env types generate_points interval fuel fragment spec sinks s = (o, s') →
     o ≠ Raised ScanFinished) ∧
  (∀ env types interval fuel (axes : list (ScanAxis Value)) sinks s,
     is_Some (chunk_annotation types axes) →
     points_match_axes axes (points s) →
     1 ≤ length axes ≤ 3 →
     (∀ h, termination_requested env h = false) →
     length (points s) < fuel →
     ∃ s',
       _run_scan_on_core_device env types interval fuel axes sinks s = (Returned tt, s') ∧
       undelivered s' = []).
Proof.
  split_and!.
  - intros axes s Hax Hc Hp. unfold _kscan_param_values_chunk.
    rewrite Hc, Hp. simpl. destruct axes as [|a axes]; [done|]. simpl.
    destruct s; simpl in *; by subst.
  - apply update_host_param_stores_not_ScanFinished.
  - intros env types generate_points interval fuel fragment spec sinks s o s' Hrun.
    unfold run in Hrun. destruct (run_once_is_kernel fragment).
    + by eapply run_scan_on_core_device_not_ScanFinished.
    + apply run_scan_on_host_spec in Hrun as (dl & _ & _ & _ & Ho).
      destruct o as [|e|]; [done| |done]. destruct Ho as [-> _]. done.
  - apply run_scan_on_core_device_completes.
Qed.

(** C7. A scan whose number of axes is not 1, 2 or 3 makes the core
    device path fail at the start, with [NotImplementedError] (or, when
    the schema of an axis has no known type, with the [KeyError] of the
    annotation that is built just before): nothing has been taken from the
    iterator and nothing has happened (no store written, no callback run,
    no sink pushed). *)
Theorem C7_unsupported_dimensionality_fails_at_start env types interval fuel
    (axes : list (ScanAxis Value)) sinks s :
  ¬ (1 ≤ length axes ≤ 3) →
  ∃ e s',
    _run_scan_on_core_device env types interval fuel axes sinks s = (Raised e, s') ∧
    points s' = points s ∧
    history s' = history s ∧
    (e = NotImplementedError (length axes) ∨ e = KeyError) ∧
    (is_Some (chunk_annotation types axes) → e = NotImplementedError (length axes)).
Proof.
  intros Hdims. destruct (chunk_annotation types axes) as [annotation|] eqn:Hann.
  - eexists _, _. split.
    + apply run_scan_on_core_device_unsupported; [by rewrite Hann|done].
    + simpl. split_and!; [done|done|by left|done].
  - eexists _, _. split.
    + by apply run_scan_on_core_device_untyped.
    + simpl. split_and!; [done|done|by right|]. by intros [? ?].
Qed.

(** C8. On the core device path [scheduler.check_pause()] is throttled:
    over any run, the monitor [throttled] accepts what the run adds to the
    history. Every query comes right after a clock read that follows the
    completion of a point, with no point started in between, and only if
    that clock read is more than the interval past the reference time (the
    clock at the last query, or at kernel entry when the kernel has not
    queried yet). *)
Theorem C8_check_pause_is_throttled env types interval fuel
    (axes : list (ScanAxis Value)) sinks s o s' :
  _run_scan_on_core_device env types interval fuel axes sinks s = (o, s') →
  ∃ evs, history s' = history s ++ evs ∧ throttled interval evs = true.
Proof.
  unfold _run_scan_on_core_device, bind at 1, reset_chunk. intros Hrun.
  assert (monitored interval (history s) (history s)
            {| mon_phase := Running; mon_reference := 0 |}) as Hm0.
  { exists []. by rewrite app_nil_r. }
  assert (∃ m, monitored interval (history s) (history s') m) as (m & evs & Hh & Hm).
  { destruct (chunk_annotation types axes).
    2: { inversion Hrun; subst. eauto. }
    destruct (getattr_kscan_impl _ _ _ _ _ _) as [impl|] eqn:Himpl.
    2: { inversion Hrun; subst. eauto. }
    apply getattr_kscan_impl_Some in Himpl as [-> _].
    unfold suppress_ScanFinished, bind in Hrun.
    destruct (_kscan_update_host_param_stores axes _) as [o1 s1] eqn:Hupd.
    pose proof (update_host_param_stores_monitored interval (history s) _ _ _ _ _
                  Hupd Hm0) as Hm1.
    destruct o1 as [[]|e|].
    - destruct (kscan_host_loop _ _ _ s1) as [o2 s2] eqn:Hloop.
      destruct (kscan_host_loop_monitored env interval (history s) _ _ _ _ _ _ _ _ _
                  Hloop Hm1) as (m2 & Hm2).
      destruct o2 as [[]|e|]; [| |]; try destruct e; inversion Hrun; subst; eauto.
    - destruct e; inversion Hrun; subst; eauto.
    - inversion Hrun; subst; eauto. }
  exists evs. split; [done|]. unfold throttled. by rewrite Hm.
Qed.

(** ** The filter *)

Lemma filter_loop (keep : DefaultAnalysis → bool) (l result : list DefaultAnalysis) :
  foldl (fun result analysis =>
           if keep analysis then result ++ [analysis] else result) result l =
  result ++ List.filter keep l.
Proof.
  revert result. induction l as [|analysis l IH]; intros result; simpl.
  - by rewrite app_nil_r.
  - rewrite IH. destruct (keep analysis); [|done]. by rewrite <- app_assoc.
Qed.

Lemma axis_identities_Some (axes : list (ScanAxis Value)) identities :
  axis_identities axes = Some identities →
  Forall2 (fun axis identity =>
             param_schema axis !! "fqn"%string = Some identity.1 ∧
             path axis = identity.2) axes identities.
Proof.
  revert identities. induction axes as [|a axes IH]; intros identities Hids.
  - inversion Hids. constructor.
  - simpl in Hids. destruct (param_schema a !! "fqn"%string) as [fqn|] eqn:Hfqn; [|done].
    destruct (axis_identities axes) as [ids|]; [|done].
    inversion Hids; subst. constructor; [done|]. by apply IH.
Qed.

(** C9. [filter_default_analyses] is a filter: when every axis has an
    "fqn" in its schema, the result is the list of default analyses of the
    fragment restricted to those whose [has_data] holds of the axis
    identities, the ([fqn], [path]) pairs of the axes in axis order; the
    order of the list is kept. The function is a function of the fragment
    and the spec and returns nothing but the list. *)
Theorem C9_filter_default_analyses_is_a_filter fragment
    (spec : ScanSpec Value ScanGenerator ScanOptions) identities :
  axis_identities (axes spec) = Some identities →
  filter_default_analyses fragment spec =
    Returned (List.filter (fun analysis => has_data analysis identities)
                (get_default_analyses fragment)) ∧
  Forall2 (fun axis identity =>
             param_schema axis !! "fqn"%string = Some identity.1 ∧
             path axis = identity.2) (axes spec) identities.
Proof.
  intros Hids. split; [|by apply axis_identities_Some].
  unfold filter_default_analyses. rewrite Hids. f_equal. apply filter_loop.
Qed.

(** C10. On the core device path the kernel applies coerced values and
    the sinks record raw ones. A run delivers a prefix of its points, all
    of them if it returns and at least one if it is terminated, and the
    callback runs once for each. For every axis, the values written to
    its device store are the coerced values of that axis over the
    delivered points, the values pushed to its sink are the uncoerced
    values of the same points: point by point, the point number [i] with
    value [v] for the axis adds [coerce v] to the store and [v] to the
    sink, both at position [i]; and wherever coercion changes a value the
    two differ. *)
Theorem C10_device_applies_coerced_sink_records_raw env types interval fuel
    (axes : list (ScanAxis Value)) sinks s o s' :
  is_Some (chunk_annotation types axes) →
  points_match_axes axes (points s) →
  1 ≤ length axes ≤ 3 →
  NoDup sinks →
  distinct_stores axes →
  _run_scan_on_core_device env types interval fuel axes sinks s = (o, s') →
  ∃ delivered,
    points s = delivered ++ undelivered s' ∧
    callbacks_run (history s') = callbacks_run (history s) + length delivered ∧
    match o with
    | Returned _ => undelivered s' = []
    | Raised e => e = TerminationRequested ∧ delivered ≠ []
    | OutOfFuel => fuel ≤ length delivered
    end ∧
    ∀ j a sink, axes !! j = Some a → sinks !! j = Some sink →
      applied_to Device (store_id (param_store a)) (history s') =
        applied_to Device (store_id (param_store a)) (history s) ++
        (coerce (param_store a) <$> column j delivered) ∧
      pushed_to sink (history s') =
        pushed_to sink (history s) ++ column j delivered ∧
      (∀ i p v, delivered !! i = Some p → p !! j = Some v →
         applied_to Device (store_id (param_store a)) (history s') !!
           (length (applied_to Device (store_id (param_store a)) (history s)) + i) =
           Some (coerce (param_store a) v) ∧
         pushed_to sink (history s') !!
           (length (pushed_to sink (history s)) + i) = Some v) ∧
      ∀ i v, column j delivered !! i = Some v →
        coerce (param_store a) v ≠ v →
        (coerce (param_store a) <$> column j delivered) !! i ≠
        column j delivered !! i.
Proof.
  intros Hann Hwf Hdims Hnd Hst Hrun.
  destruct (run_scan_on_core_device_ok env types interval fuel axes sinks s
              Hann Hwf Hdims)
    as (o1 & s1 & dl & Hrun1 & Hpts & Hpe & Ho).
  rewrite Hrun in Hrun1. inversion Hrun1; subst o1 s1.
  assert (points_match_axes axes dl) as Hwf_dl.
  { unfold points_match_axes in *. rewrite Hpts in Hwf.
    by apply Forall_app in Hwf as [? _]. }
  exists dl. split; [done|]. split.
  { rewrite <- (callbacks_run_point_events (history s')), Hpe.
    by rewrite callbacks_run_app, callbacks_run_point_events,
      callbacks_run_device_points. }
  split.
  { destruct o as [[]|e|]; [done| |done]. by destruct Ho as (? & ? & _). }
  intros j a sink Hj Hsink.
  assert (applied_to Device (store_id (param_store a)) (history s') =
          applied_to Device (store_id (param_store a)) (history s) ++
          (coerce (param_store a) <$> column j dl)) as Happlied.
  { rewrite <- (applied_to_device_point_events _ (history s')), Hpe.
    rewrite applied_to_app, applied_to_device_point_events.
    by rewrite (device_points_applied axes sinks dl j a). }
  assert (pushed_to sink (history s') =
          pushed_to sink (history s) ++ column j dl) as Hpushed.
  { rewrite <- (pushed_to_point_events sink (history s')), Hpe.
    rewrite pushed_to_app, pushed_to_point_events.
    by erewrite device_points_pushed. }
  split_and!; [done|done| |].
  - intros i p v Hi Hv.
    assert (column j dl !! i = Some v) as Hcol.
    { rewrite (column_lookup axes j dl i Hwf_dl) by (by eapply lookup_lt_Some).
      rewrite Hi. done. }
    rewrite Happlied, Hpushed. split.
    + rewrite lookup_app_r by lia.
      replace (length (applied_to Device (store_id (param_store a)) (history s)) + i -
               length (applied_to Device (store_id (param_store a)) (history s)))
        with i by lia.
      by rewrite list_lookup_fmap, Hcol.
    + rewrite lookup_app_r by lia.
      replace (length (pushed_to sink (history s)) + i -
               length (pushed_to sink (history s))) with i by lia.
      done.
  - intros i v Hv Hne. rewrite list_lookup_fmap, Hv. simpl. congruence.
Qed.

End Properties.

(** * The properties on concrete scans *)

Import Examples.

Lemma C1_witness :
  ∃ s',
    run calm param_types cross 150 10 kernel_fragment spec_2d [7; 8] (start []) =
      (Returned tt, s') ∧
    pushed_to 7 (history s') = [0; 0; 1; 1]%Z ∧
    pushed_to 8 (history s') = [17; 25; 17; 25]%Z.
Proof.
  destruct (C1_completed_run_pushes_each_point_once
              calm param_types cross 150 10 kernel_fragment spec_2d [7; 8]
              (start []))
    as [Hsinks Hcompletes].
  - repeat constructor.
  - apply NoDup_cons. split; [|apply NoDup_singleton].
    apply not_elem_of_cons. split; [lia|apply not_elem_of_nil].
  - reflexivity.
  - destruct Hcompletes as [s' Hs'].
    + reflexivity.
    + simpl. lia.
    + intros _. split; [eexists; vm_compute; reflexivity|simpl; lia].
    + exists s'. split; [exact Hs'|]. split.
      * exact (Hsinks s' Hs' 0 7 eq_refl).
      * exact (Hsinks s' Hs' 1 8 eq_refl).
Defined.

Lemma C2_witness :
  ∃ s1 delivered,
    run (terminate_after 2) param_types cross 150 10 kernel_fragment spec_2d [7; 8] (start []) =
      (Raised TerminationRequested, s1) ∧
    cross (generators spec_2d) (options spec_2d) =
      delivered ++ remaining kernel_fragment s1 ∧
    delivered ≠ [] ∧
    pushed_to 8 (history s1) = column 1 delivered.
Proof.
  exists (snd (run (terminate_after 2) param_types cross 150 10 kernel_fragment spec_2d [7; 8]
                 (start []))).
  destruct (C2_cancelled_run_leaves_a_prefix
              (terminate_after 2) calm param_types cross 150 10 10
              kernel_fragment spec_2d
              [7; 8] (start [])
              (snd (run (terminate_after 2) param_types cross 150 10 kernel_fragment spec_2d
                      [7; 8] (start []))))
    as (delivered & Hpts & Hne & _ & Hpush & _).
  - repeat constructor.
  - apply NoDup_cons. split; [|apply NoDup_singleton].
    apply not_elem_of_cons. split; [lia|apply not_elem_of_nil].
  - reflexivity.
  - vm_compute. reflexivity.
  - exists delivered. split; [vm_compute; reflexivity|].
    split; [exact Hpts|]. split; [exact Hne|].
    exact (Hpush 1 8 eq_refl).
Defined.

Lemma C3_witness :
  ∃ s' new shadow,
    _kscan_point_completed [axis_a] [7] (mkRunner [[5%Z]] [[3%Z]; [4%Z]] []) =
      (Returned tt, s') ∧
    _kscan_current_chunk s' = [[4%Z]] ++ new ∧
    history s' = [] ++ EvPointCompleted :: [EvPush 7 3%Z] ++ shadow.
Proof.
  destruct (C3_chunk_is_a_fifo [axis_a] [7]) as (_ & _ & Hack & _ & _).
  destruct (Hack (mkRunner [[5%Z]] [[3%Z]; [4%Z]] [])
              (Returned tt)
              (snd (_kscan_point_completed [axis_a] [7]
                      (mkRunner [[5%Z]] [[3%Z]; [4%Z]] [])))
              [3%Z] [[4%Z]])
    as (new & shadow & Hchunk & _ & Hhistory & _).
  - reflexivity.
  - vm_compute. reflexivity.
  - eexists _, new, shadow. split; [vm_compute; reflexivity|].
    split; [exact Hchunk|exact Hhistory].
Defined.



Lemma C5_witness :
  (∃ s',
     _kscan_update_host_param_stores [axis_a; axis_b]
       (mkRunner [[2; 30]; [4; 50]]%Z [] []) = (Returned tt, s') ∧
     _kscan_current_chunk s' = [[2; 30]; [4; 50]]%Z ∧
     store_value Host 0 (history s') = Some 2%Z ∧
     store_value Host 1 (history s') = Some 30%Z) ∧
  ∃ after before later,
    history (snd (_run_scan_on_core_device calm param_types 150 10
                    [axis_a; axis_b] [7; 8]
                    (mkRunner [[2; 30]; [4; 50]]%Z [] []))) =
      [] ++ [EvSetValue Host 0 2%Z; EvSetValue Host 1 30%Z] ++ EvHostSetup :: after ∧
    history (snd (_run_scan_on_core_device calm param_types 150 10
                    [axis_a; axis_b] [7; 8]
                    (mkRunner [[2; 30]; [4; 50]]%Z [] []))) =
      before ++ [EvDeviceSetup; EvRunOnce; EvPointCompleted] ++ later ∧
    callbacks_run before = 0 + 1 ∧
    shadows [axis_a; axis_b] before [4; 50]%Z.
Proof.
  destruct (C5_host_stores_hold_the_next_point [axis_a; axis_b] [7; 8]
              (mkRunner [[2; 30]; [4; 50]]%Z [] []))
    as ((s' & Hupdate & _ & Hprimed & _ & _ & Hnext) & _ & Hrun).
  - split_and!; [simpl; lia|repeat constructor|simpl; lia].
  - apply NoDup_cons. split; [|apply NoDup_singleton].
    apply not_elem_of_cons. split; [simpl; lia|apply not_elem_of_nil].
  - split.
    + exists s'. split; [exact Hupdate|].
      destruct (Hprimed eq_refl) as [Hchunk _].
      destruct (Hnext [2; 30]%Z [[4; 50]%Z] eq_refl) as [_ Hstores].
      split; [exact Hchunk|]. split.
      * exact (Hstores 0 axis_a eq_refl).
      * exact (Hstores 1 axis_b eq_refl).
    + destruct (Hrun calm param_types 150%Z 10 (Returned tt)
                  (snd (_run_scan_on_core_device calm param_types 150 10
                          [axis_a; axis_b] [7; 8]
                          (mkRunner [[2; 30]; [4; 50]]%Z [] []))))
        as (delivered & Hpoints & Hfirst & Hcallbacks & _ & _ & Hends).
      * eexists. vm_compute. reflexivity.
      * simpl. lia.
      * vm_compute. reflexivity.
      * destruct (Hfirst [2; 30]%Z [[4; 50]%Z] eq_refl) as (after & Hstart & _);
          [lia|].
        simpl in Hends. rewrite Hends, app_nil_r in Hpoints. simpl in Hpoints.
        subst delivered.
        destruct (Hcallbacks 1 [4; 50]%Z eq_refl)
          as (before & later & Hhistory & Hcount & Hshadow).
        exists after, before, later. split; [exact Hstart|].
        split; [exact Hhistory|]. split; [exact Hcount|exact Hshadow].
Defined.

Lemma C6_witness :
  _kscan_param_values_chunk [axis_a] (start []) = (Raised ScanFinished, start []) ∧
  ∃ s',
    _run_scan_on_core_device restless param_types 150 10 [axis_a] [7]
      (start [[0%Z]; [1%Z]; [2%Z]]) = (Returned tt, s') ∧
    undelivered s' = [].
Proof.
  destruct (@C6_scan_finished_stays_inside_the_runner Z (list Z) unit)
    as (Hraise & _ & _ & Hreturns).
  split.
  - apply Hraise; [discriminate|reflexivity|reflexivity].
  - apply Hreturns.
    + eexists. vm_compute. reflexivity.
    + repeat constructor.
    + simpl. lia.
    + reflexivity.
    + simpl. lia.
Defined.

Lemma C7_witness :
  ∃ s',
    _run_scan_on_core_device calm param_types 150 10
      [axis_a; axis_b; axis_a; axis_b] [7; 8; 9; 10]
      (start [[0; 10; 0; 10]%Z]) = (Raised (NotImplementedError 4), s') ∧
    points s' = [[0; 10; 0; 10]%Z] ∧
    history s' = [].
Proof.
  destruct (C7_unsupported_dimensionality_fails_at_start calm param_types 150 10
              [axis_a; axis_b; axis_a; axis_b] [7; 8; 9; 10]
              (start [[0; 10; 0; 10]%Z]))
    as (e & s' & Hrun & Hpoints & Hhistory & _ & Herror).
  - simpl. lia.
  - exists s'. rewrite Hrun, Herror; [done|].
    eexists. vm_compute. reflexivity.
Defined.

Lemma C8_witness :
  ∃ evs,
    history (snd (_run_scan_on_core_device restless param_types 150 10 [axis_a] [7]
                    (start [[0%Z]; [1%Z]; [2%Z]]))) = [] ++ evs ∧
    throttled 150 evs = true.
Proof.
  apply (C8_check_pause_is_throttled restless param_types 150 10 [axis_a] [7]
           (start [[0%Z]; [1%Z]; [2%Z]]) (Returned tt)).
  vm_compute. reflexivity.
Defined.

Lemma C9_witness :
  filter_default_analyses two_analysis_fragment spec_1d =
  Returned
    (List.filter
       (fun analysis =>
          has_data analysis [("fixtures.AddOneFragment.value", "child")%string])
       (get_default_analyses two_analysis_fragment)).
Proof.
  apply (C9_filter_default_analyses_is_a_filter two_analysis_fragment spec_1d).
  vm_compute. reflexivity.
Defined.

Lemma C10_witness :
  applied_to Device 1
    (history (snd (_run_scan_on_core_device calm param_types 150 10 [axis_a; axis_b] [7; 8]
                     (start (cross (generators spec_2d) tt))))) =
    [] ++ ((fun v => (Z.quot v 10 * 10)%Z) <$> column 1 (cross (generators spec_2d) tt)) ∧
  pushed_to 8
    (history (snd (_run_scan_on_core_device calm param_types 150 10 [axis_a; axis_b] [7; 8]
                     (start (cross (generators spec_2d) tt))))) =
    [] ++ column 1 (cross (generators spec_2d) tt) ∧
  callbacks_run
    (history (snd (_run_scan_on_core_device calm param_types 150 10 [axis_a; axis_b] [7; 8]
                     (start (cross (generators spec_2d) tt))))) =
    0 + length (cross (generators spec_2d) tt).
Proof.
  destruct (C10_device_applies_coerced_sink_records_raw calm param_types 150 10
              [axis_a; axis_b] [7; 8] (start (cross (generators spec_2d) tt))
              (Returned tt)
              (snd (_run_scan_on_core_device calm param_types 150 10 [axis_a; axis_b] [7; 8]
                      (start (cross (generators spec_2d) tt)))))
    as (delivered & Hpts & Hruns & Hends & Hvalues).
  - eexists. vm_compute. reflexivity.
  - repeat constructor.
  - simpl. lia.
  - apply NoDup_cons. split; [|apply NoDup_singleton].
    apply not_elem_of_cons. split; [lia|apply not_elem_of_nil].
  - apply NoDup_cons. split; [|apply NoDup_singleton].
    apply not_elem_of_cons. split; [simpl; lia|apply not_elem_of_nil].
  - vm_compute. reflexivity.
  - cbv beta iota in Hends. rewrite Hends, app_nil_r in Hpts.
    change (points (start (cross (generators spec_2d) tt)))
      with (cross (generators spec_2d) tt) in Hpts.
    subst delivered.
    destruct (Hvalues 1 axis_b 8 eq_refl eq_refl) as (Happlied & Hpushed & _).
    split; [exact Happlied|]. split; [exact Hpushed|exact Hruns].
Defined.

(** The sink of the integer axis records 17 where the kernel applied 10. *)
Example coercion_is_visible :
  let h := history (snd (_run_scan_on_core_device calm param_types 150 10 [axis_a; axis_b] [7; 8]
                           (start (cross (generators spec_2d) tt)))) in
  applied_to Device 1 h = [10; 20; 10; 20]%Z ∧
  pushed_to 8 h = [17; 25; 17; 25]%Z.
Proof. vm_compute. done. Qed.

(** The test of the repository: one axis over 0, 1, 2, 3 gives those
    coordinates, on either path. *)
Example test_1d_coordinates :
  pushed_to 7 (history (snd (run calm param_types cross 150 10 host_fragment spec_1d [7]
                               (start [])))) = [0; 1; 2; 3]%Z ∧
  pushed_to 7 (history (snd (run calm param_types cross 150 10 kernel_fragment spec_1d [7]
                               (start [])))) = [0; 1; 2; 3]%Z.
Proof. vm_compute. done. Qed.

(** * Further properties of the scan loop *)

Section RunnerProperties.

Context {Value ScanGenerator ScanOptions : Type}.

Implicit Types (s : Runner Value) (h : list (Event Value))
  (p : Point Value) (pts : list (Point Value))
  (axes : list (ScanAxis Value)) (sinks : list nat).

Lemma run_scan_on_core_device_invariant env types interval fuel axes sinks s :
  is_Some (chunk_annotation types axes) →
  points_match_axes axes (points s) →
  1 ≤ length axes ≤ 3 →
  ∃ o s',
    _run_scan_on_core_device env types interval fuel axes sinks s = (o, s') ∧
    runner_ok axes s' ∧
    (o = Returned tt ∨ o = Raised TerminationRequested ∨
     (o = OutOfFuel ∧ fuel ≤ length (points s))).
Proof.
  intros [annotation Hann] Hwf Hdims.
  unfold _run_scan_on_core_device, bind at 1, reset_chunk. rewrite Hann.
  destruct (getattr_kscan_impl env axes sinks interval fuel (length axes))
    as [impl|] eqn:Himpl.
  2: { apply getattr_kscan_impl_None in Himpl. lia. }
  apply getattr_kscan_impl_Some in Himpl as [-> _].
  unfold suppress_ScanFinished, bind.
  match goal with
  | |- context [_kscan_update_host_param_stores axes ?s0] =>
      destruct (update_host_param_stores_ok axes s0)
        as (s1 & -> & Hok1 & Hu1 & _ & _ & _)
  end.
  { unfold runner_ok, undelivered. simpl. split_and!; [lia|done|lia]. }
  destruct (kscan_host_loop_ok env axes sinks interval fuel fuel s1 Hok1)
    as (o & s2 & dl & -> & Hok2 & Hu2 & _ & Ho).
  unfold undelivered at 2 in Hu1. simpl in Hu1.
  assert (length dl ≤ length (points s)) as Hdl.
  { rewrite <- Hu1, Hu2, length_app. lia. }
  destruct o as [[]|e|]; [done| |].
  - destruct Ho as [[-> _]|(-> & _ & _)]; eexists _, _; eauto.
  - eexists _, _. split_and!; [done..|]. right. right. split; [done|lia].
Qed.

(** A core device run on a well-formed scan (schemas of known type, one to
    three axes, one value per axis in every point) ends in one of two
    ways: it returns, or it passes on the scheduler's
    [TerminationRequested]. It never fails with an index, value, attribute
    or key error, and it leaves the chunk within [CHUNK_SIZE] and the
    points still to deliver intact. *)
Theorem core_device_run_never_fails env types interval fuel axes sinks s o s' :
  is_Some (chunk_annotation types axes) →
  points_match_axes axes (points s) →
  1 ≤ length axes ≤ 3 →
  length (points s) < fuel →
  _run_scan_on_core_device env types interval fuel axes sinks s = (o, s') →
  (o = Returned tt ∨ o = Raised TerminationRequested) ∧
  length (_kscan_current_chunk s') ≤ CHUNK_SIZE ∧
  points_match_axes axes (undelivered s').
Proof.
  intros Hann Hwf Hdims Hfuel Hrun.
  destruct (run_scan_on_core_device_invariant env types interval fuel axes sinks s
              Hann Hwf Hdims) as (o1 & s1 & Hrun1 & (Hlen & Hwf' & _) & Ho).
  rewrite Hrun in Hrun1. inversion Hrun1; subst o1 s1.
  split_and!; [|done..].
  destruct Ho as [?|[?|[_ ?]]]; [by left|by right|lia].
Qed.

(** A chunk request on a runner in order either finds nothing left and
    raises [ScanFinished], or returns one list per axis, all of the same
    length, between 1 and [CHUNK_SIZE]: the chunk topped up from the
    iterator, axis by axis and coerced. No other exception is possible. *)
Theorem chunk_request_is_bounded axes s o s' :
  runner_ok axes s →
  _kscan_param_values_chunk axes s = (o, s') →
  _kscan_current_chunk s' =
    _kscan_current_chunk s ++
    take (CHUNK_SIZE - length (_kscan_current_chunk s)) (points s) ∧
  match o with
  | Returned values =>
      length values = length axes ∧
      0 < length (_kscan_current_chunk s') ≤ CHUNK_SIZE ∧
      ∀ k a, axes !! k = Some a →
        ∃ column_k,
          values !! k = Some column_k ∧
          length column_k = length (_kscan_current_chunk s') ∧
          column_k = coerce (param_store a) <$> column k (_kscan_current_chunk s')
  | Raised e => e = ScanFinished ∧ undelivered s = [] ∧ undelivered s' = []
  | OutOfFuel => False
  end.
Proof.
  intros Hok Hrun. rewrite param_values_chunk_ok in Hrun by done.
  pose proof (runner_ok_primed axes s Hok) as (Hlen & Hwf & Hax).
  cbv zeta in *. inversion Hrun as [[Ho Hs]]. clear Hrun. simpl in *.
  split; [done|].
  set (chunk' := _kscan_current_chunk s ++
                 take (CHUNK_SIZE - length (_kscan_current_chunk s)) (points s)) in *.
  assert (points_match_axes axes chunk') as Hwf'.
  { unfold points_match_axes, undelivered in Hwf. simpl in Hwf.
    by apply Forall_app in Hwf as [? _]. }
  destruct chunk' as [|p c] eqn:Hchunk.
  - split; [done|].
    unfold chunk' in Hchunk. apply app_eq_nil in Hchunk as [Hc Htake].
    rewrite Hc in *. simpl in Htake.
    assert (points s = []) as Hp by (by destruct (points s)).
    unfold undelivered. simpl. by rewrite Hc, Hp.
  - split_and!.
    + by rewrite chunk_values_length, length_replicate.
    + simpl. lia.
    + done.
    + intros k a Ha. eexists. split; [by apply chunk_values_column|].
      split; [|done]. rewrite length_fmap.
      apply (column_length axes); [done|]. by eapply lookup_lt_Some.
Qed.

(** Runs of the same scan that complete leave the same coordinates in
    the sinks, whether the fragment runs on the host or on the core
    device, and whatever the scheduler and the clock did in between. *)
Theorem completed_runs_agree env1 env2 types
    (generate_points : list ScanGenerator → ScanOptions → list (Point Value))
    interval1 interval2 fuel1 fuel2 fragment1 fragment2
    (spec : ScanSpec Value ScanGenerator ScanOptions) sinks s r1 r2 :
  points_match_axes (axes spec) (generate_points (generators spec) (options spec)) →
  NoDup sinks →
  length sinks = length (axes spec) →
  run env1 types generate_points interval1 fuel1 fragment1 spec sinks s =
    (Returned tt, r1) →
  run env2 types generate_points interval2 fuel2 fragment2 spec sinks s =
    (Returned tt, r2) →
  ∀ sink, sink ∈ sinks →
    pushed_to sink (history r1) = pushed_to sink (history r2).
Proof.
  intros Hwf Hnd Hls Hrun1 Hrun2 sink Hsink.
  apply list_elem_of_lookup in Hsink as [j Hj].
  rewrite (completed_run_sinks _ _ _ _ _ _ _ _ _ _ Hwf Hnd Hls Hrun1 j sink Hj).
  by rewrite (completed_run_sinks _ _ _ _ _ _ _ _ _ _ Hwf Hnd Hls Hrun2 j sink Hj).
Qed.

(** A kernel launch makes progress: started on a runner in order, the
    kernel either finds the scan exhausted (it ends in [ScanFinished] with
    nothing left to deliver), or it returns to the host after a pause
    request, and then it has completed at least one point. *)
Theorem kernel_launch_makes_progress env axes sinks interval fuel s o s' :
  runner_ok axes s →
  length (undelivered s) < fuel →
  kscan_impl env axes sinks interval fuel (length axes) s = (o, s') →
  ∃ delivered,
    undelivered s = delivered ++ undelivered s' ∧
    callbacks_run (history s') = callbacks_run (history s) + length delivered ∧
    (o = Returned tt ∧ delivered ≠ [] ∨
     o = Raised ScanFinished ∧ undelivered s' = []).
Proof.
  intros Hok Hfuel Hrun.
  destruct (kscan_impl_ok env axes sinks interval fuel s Hok)
    as (o1 & s1 & dl & Hrun1 & _ & Hu & Hpe & Ho).
  rewrite Hrun in Hrun1. inversion Hrun1; subst o1 s1.
  exists dl. split_and!; [done| |].
  - rewrite <- (callbacks_run_point_events (history s')), Hpe.
    by rewrite callbacks_run_app, callbacks_run_point_events,
      callbacks_run_device_points.
  - destruct o as [[]|e|].
    + by left.
    + right. by destruct Ho as [-> ?].
    + rewrite Hu, length_app in Hfuel. lia.
Qed.

Lemma host_writes_absent axes p sinks store :
  store ∉ (fun axis => store_id (param_store axis)) <$> axes →
  applied_to Host store
    (concat (map (fun '(axis, (value, sink)) =>
                    [EvSetValue Host (store_id (param_store axis)) value;
                     EvPush sink value])
                 (zip axes (zip p sinks)))) = @nil Value.
Proof.
  revert p sinks. induction axes as [|a0 axes IH]; intros p sinks Hnot; [done|].
  destruct p as [|v p]; [done|]. destruct sinks as [|k sinks]; [done|].
  simpl in *. apply not_elem_of_cons in Hnot as [Hne Hnot].
  destruct (decide (store_id (param_store a0) = store)); [congruence|].
  by apply IH.
Qed.

Lemma host_writes_applied axes p sinks j a :
  distinct_stores axes → axes !! j = Some a →
  length p = length axes → length sinks = length axes →
  applied_to Host (store_id (param_store a))
    (concat (map (fun '(axis, (value, sink)) =>
                    [EvSetValue Host (store_id (param_store axis)) value;
                     EvPush sink value])
                 (zip axes (zip p sinks)))) = option_list (p !! j).
Proof.
  unfold distinct_stores. revert p sinks j.
  induction axes as [|a0 axes IH]; intros p sinks j Hnd Hj Hlp Hls; [done|].
  rewrite fmap_cons in Hnd. apply NoDup_cons in Hnd as [Hnot Hnd].
  destruct p as [|v p]; [done|]. destruct sinks as [|k sinks]; [done|].
  simpl in Hlp, Hls.
  destruct j as [|j]; simpl in *.
  - inversion Hj; subst.
    destruct (decide (store_id (param_store a) = store_id (param_store a))); [|done].
    by rewrite host_writes_absent.
  - destruct (decide (store_id (param_store a0) = store_id (param_store a)))
      as [Heq|Hne].
    + exfalso. apply Hnot. rewrite Heq.
      apply list_elem_of_fmap. exists a. split; [done|].
      by eapply list_elem_of_lookup_2.
    + apply IH; [done..|lia|lia].
Qed.

(** On the host path the callback sees the values of its point: at the
    moment [host_setup], [device_setup] and [run_once] are called for the
    point number [i] of the run, the host store of every axis holds the
    value that point has for the axis, as generated (not coerced). *)
Theorem host_callback_sees_its_point env fuel axes sinks s o s' :
  distinct_stores axes →
  length sinks = length axes →
  points_match_axes axes (points s) →
  _run_scan_on_host env fuel axes sinks s = (o, s') →
  ∃ delivered,
    points s = delivered ++ points s' ∧
    ∀ i p, delivered !! i = Some p →
      ∃ before after,
        history s' =
          before ++ [EvHostSetup; EvDeviceSetup; EvRunOnce; EvPause] ++ after ∧
        callbacks_run before = callbacks_run (history s) + i ∧
        ∀ j a, axes !! j = Some a →
          store_value Host (store_id (param_store a)) before = p !! j.
Proof.
  intros Hst Hls Hwf Hrun.
  apply run_scan_on_host_spec in Hrun as (dl & Hpts & _ & Hh & _).
  exists dl. split; [done|]. intros i p Hi.
  apply list_elem_of_split_length in Hi as (d1 & d2 & -> & ->).
  exists (history s ++ concat (map (host_point_events axes sinks) d1) ++
          concat (map (fun '(axis, (value, sink)) =>
                         [EvSetValue Host (store_id (param_store axis)) value;
                          EvPush sink value])
                      (zip axes (zip p sinks)))),
    (concat (map (host_point_events axes sinks) d2)).
  split_and!.
  - rewrite Hh, map_app, concat_app. cbn [map concat].
    unfold host_point_events at 2. by rewrite <- !app_assoc.
  - rewrite !callbacks_run_app, callbacks_run_host_points.
    match goal with
    | |- _ + (_ + callbacks_run ?l) = _ => assert (callbacks_run l = 0) as ->
    end.
    { induction (zip axes (zip p sinks)) as [|[a [v k]] l IH]; [done|]. apply IH. }
    lia.
  - intros j a Hj. unfold store_value.
    rewrite app_assoc, applied_to_app.
    assert (length p = length axes) as Hlp.
    { unfold points_match_axes in Hwf. rewrite Hpts in Hwf.
      apply Forall_app in Hwf as [Hwf _]. apply Forall_app in Hwf as [_ Hwf].
      by inversion Hwf. }
    rewrite (host_writes_applied axes p sinks j a Hst Hj Hlp Hls).
    destruct (lookup_lt_is_Some_2 p j) as [v Hv].
    { rewrite Hlp. by eapply lookup_lt_Some. }
    rewrite Hv. simpl. apply last_snoc.
Qed.

End RunnerProperties.

(** * Properties of [describe_scan] *)

Section DescribeProperties.

Context {Value ScanGenerator ScanOptions : Type}.
Context {ResultChannel ChannelDescription Annotation OnlineAnalysis Seed AxisLimit : Type}.

Abbreviation Describers' :=
  (Describers ScanGenerator ScanOptions ResultChannel ChannelDescription
     Annotation OnlineAnalysis Seed AxisLimit).

Lemma add_online_analyses_app (online : gmap string OnlineAnalysis) items1 items2 :
  add_online_analyses online (items1 ++ items2) =
  match add_online_analyses online items1 with
  | Returned online' => add_online_analyses online' items2
  | Raised e => Raised e
  | OutOfFuel => OutOfFuel
  end.
Proof.
  revert online. induction items1 as [|[name spec] items1 IH]; intros online; [done|].
  simpl. destruct (online !! name); [done|]. apply IH.
Qed.

(** The inner loop either finds a name that is already taken, or adds
    every item. *)
Lemma add_online_analyses_spec (items : list (string * OnlineAnalysis)) :
  ∀ online,
    (NoDup items.*1 ∧ (∀ name, name ∈ items.*1 → online !! name = None) ∧
     ∃ online',
       add_online_analyses online items = Returned online' ∧
       ∀ name spec, online' !! name = Some spec ↔
                    online !! name = Some spec ∨ (name, spec) ∈ items) ∨
    (¬ (NoDup items.*1 ∧ ∀ name, name ∈ items.*1 → online !! name = None) ∧
     add_online_analyses online items = Raised ValueError).
Proof.
  induction items as [|[name spec] items IH]; intros online.
  - left. split_and!; [constructor|by intros ? ?%elem_of_nil|].
    exists online. split; [done|].
    intros name spec. split; [by left|]. by intros [?|?%elem_of_nil].
  - simpl. destruct (online !! name) as [old|] eqn:Hname.
    + right. split; [|done]. intros [_ Hfree].
      specialize (Hfree name). rewrite Hname in Hfree.
      discriminate Hfree. left.
    + destruct (IH (<[name := spec]> online))
        as [(Hnd & Hfree & online' & Hadd & Hlookup)|[Hbad Hadd]].
      * left.
        assert (name ∉ items.*1) as Hfresh.
        { intros Hin. specialize (Hfree name Hin).
          by rewrite lookup_insert_eq in Hfree. }
        split_and!.
        -- by constructor.
        -- intros name' [->|Hin]%elem_of_cons; [done|].
           specialize (Hfree name' Hin).
           rewrite lookup_insert_ne in Hfree; [done|]. by intros ->.
        -- exists online'. split; [done|]. intros name' spec'.
           rewrite Hlookup, elem_of_cons.
           destruct (decide (name' = name)) as [->|Hne].
           ++ rewrite lookup_insert_eq, Hname. split.
              ** intros [Heq|Hin]; [inversion Heq; by right; left|by right; right].
              ** intros [?|[Heq|Hin]]; [done| |by right].
                 inversion Heq; subst. by left.
           ++ rewrite lookup_insert_ne by done. split.
              ** intros [?|?]; [by left|by right; right].
              ** intros [?|[Heq|?]]; [by left| |by right].
                 inversion Heq; by subst.
      * right. split; [|done]. intros [Hnd Hfree]. apply Hbad.
        apply NoDup_cons in Hnd as [Hfresh Hnd]. split; [done|].
        intros name' Hin. rewrite lookup_insert_ne.
        -- apply Hfree. by right.
        -- intros ->. done.
Qed.

Lemma describe_analyses_flat (D : Describers') identities
    (short_result_names : list (ResultChannel * string)) analyses :
  ∀ annotations online,
    describe_analyses D identities short_result_names analyses annotations online =
    match add_online_analyses online
            (concat (map (fun analysis =>
                            (describe_online_analyses D analysis identities
                               short_result_names).2) analyses)) with
    | Returned online' =>
        Returned
          (annotations ++
           concat (map (fun analysis =>
                          (describe_online_analyses D analysis identities
                             short_result_names).1) analyses),
           online')
    | Raised e => Raised e
    | OutOfFuel => OutOfFuel
    end.
Proof.
  induction analyses as [|analysis analyses IH]; intros annotations online.
  - simpl. by rewrite app_nil_r.
  - cbn [describe_analyses map concat].
    destruct (describe_online_analyses D analysis identities short_result_names)
      as [new items] eqn:Hdescribe.
    cbn [fst snd]. rewrite add_online_analyses_app.
    destruct (add_online_analyses online items) as [online'|e|]; [|done..].
    rewrite IH. destruct (add_online_analyses online' _); [|done..].
    by rewrite <- app_assoc.
Qed.

(** What [describe_scan] does with the analyses. Without an "fqn" in the
    schema of some axis it raises [KeyError]. Otherwise it asks every
    applicable analysis, in order, for its annotations and its online
    analyses: if two of the online analyses have the same name it raises
    [ValueError]; if not it returns, the annotations are those of the
    analyses one after the other, and every online analysis is found under
    its name, and nothing else is. *)
Theorem describe_scan_merges_the_analyses (D : Describers')
    (spec : ScanSpec Value ScanGenerator ScanOptions) fragment
    (short_result_names : list (ResultChannel * string)) :
  match axis_identities (axes spec) with
  | None => describe_scan D spec fragment short_result_names = Raised KeyError
  | Some identities =>
      let described :=
        map (fun analysis =>
               describe_online_analyses D analysis identities short_result_names)
            (List.filter (fun analysis => has_data analysis identities)
               (get_default_analyses fragment)) in
      let items := concat (map snd described) in
      (NoDup items.*1 →
       ∃ desc,
         describe_scan D spec fragment short_result_names = Returned desc ∧
         desc_annotations desc = concat (map fst described) ∧
         ∀ name online_analysis,
           desc_online_analyses desc !! name = Some online_analysis ↔
           (name, online_analysis) ∈ items) ∧
      (¬ NoDup items.*1 →
       describe_scan D spec fragment short_result_names = Raised ValueError)
  end.
Proof.
  unfold describe_scan, filter_default_analyses.
  destruct (axis_identities (axes spec)) as [identities|]; [|done].
  rewrite filter_loop. cbn [app]. rewrite describe_analyses_flat.
  rewrite !map_map. cbn zeta.
  set (items := concat (map _ _)).
  destruct (add_online_analyses_spec items ∅)
    as [(Hnd & _ & online' & Hadd & Hlookup)|[Hbad Hadd]].
  - split; [|done]. intros _. rewrite Hadd. eexists. split; [done|].
    split; [done|]. intros name online_analysis. simpl.
    rewrite Hlookup, lookup_empty. split; [by intros [?|?]|by right].
  - split.
    + intros Hnd. exfalso. apply Hbad. split; [done|].
      intros name _. apply lookup_empty.
    + intros _. by rewrite Hadd.
Qed.

Lemma describe_axes_length (D : Describers') axis_specs generators :
  length (describe_axes D axis_specs generators) = length axis_specs.
Proof.
  revert generators. induction axis_specs as [|ax axis_specs IH];
    intros [|gen generators]; simpl; try done. by rewrite IH.
Qed.

Lemma describe_axes_lookup (D : Describers') axis_specs generators i ax :
  axis_specs !! i = Some ax →
  describe_axes D axis_specs generators !! i =
  Some (match generators !! i with
        | Some gen => describe_limits D gen ax
        | None => ax
        end).
Proof.
  revert generators i. induction axis_specs as [|ax0 axis_specs IH];
    intros [|gen generators] [|i] Hi; simpl in *; try done.
  - by inversion Hi.
  - by apply IH.
Qed.

(** The description has one entry per axis of the spec, in axis order,
    however many generators there are: the entry of an axis that has a
    generator is what [describe_limits] makes of its "param" and "path",
    the entry of an axis without one is just these two. *)
Theorem describe_scan_lists_every_axis (D : Describers')
    (spec : ScanSpec Value ScanGenerator ScanOptions) fragment
    (short_result_names : list (ResultChannel * string)) desc :
  describe_scan D spec fragment short_result_names = Returned desc →
  length (desc_axes desc) = length (axes spec) ∧
  ∀ i ax, axes spec !! i = Some ax →
    desc_axes desc !! i =
    Some (match generators spec !! i with
          | Some gen => describe_limits D gen (axis_spec ax)
          | None => axis_spec ax
          end) ∧
    axis_spec (AxisLimit := AxisLimit) ax !! "param"%string =
      Some (ParamEntry (param_schema ax)) ∧
    axis_spec (AxisLimit := AxisLimit) ax !! "path"%string =
      Some (PathEntry (path ax)).
Proof.
  unfold describe_scan. intros Hdesc.
  destruct (axis_identities (axes spec)); [|done].
  destruct (filter_default_analyses fragment spec); [|done..].
  destruct (describe_analyses _ _ _ _ _ _) as [[annotations online]|e|]; [|done..].
  inversion Hdesc; subst. simpl. split.
  - by rewrite describe_axes_length, length_map.
  - intros i ax Hi. split_and!; [|done..].
    apply describe_axes_lookup. by rewrite list_lookup_fmap, Hi.
Qed.

Lemma describe_channels_lookup (D : Describers') name
    (short_result_names : list (ResultChannel * string)) :
  ∀ channels : gmap string ChannelDescription,
    foldl (fun channels '(channel, name) =>
             <[name := channel_describe D channel]> channels)
          channels short_result_names !! name =
    match last_channel_named name short_result_names with
    | Some channel => Some (channel_describe D channel)
    | None => channels !! name
    end.
Proof.
  unfold last_channel_named.
  induction short_result_names as [|[channel name'] l IH]; intros channels; [done|].
  cbn [foldl]. rewrite IH. simpl.
  destruct (decide (name' = name)) as [->|Hne]; simpl.
  - rewrite last_cons. unfold omap.
    destruct (last (list_omap _ _ _ l)); [done|]. by rewrite lookup_insert_eq.
  - unfold omap.
    destruct (last (list_omap _ _ _ l)); [done|]. by rewrite lookup_insert_ne.
Qed.

(** In the description a short name stands for one channel: when several
    channels have the same short name, the last of them silently takes
    the place of the others (where two online analyses of the same name
    are an error). A name no channel has is absent. *)
Theorem describe_scan_keeps_the_last_channel (D : Describers')
    (spec : ScanSpec Value ScanGenerator ScanOptions) fragment
    (short_result_names : list (ResultChannel * string)) desc :
  describe_scan D spec fragment short_result_names = Returned desc →
  ∀ name,
    desc_channels desc !! name =
    channel_describe D <$> last_channel_named name short_result_names.
Proof.
  unfold describe_scan. intros Hdesc name.
  destruct (axis_identities (axes spec)); [|done].
  destruct (filter_default_analyses fragment spec); [|done..].
  destruct (describe_analyses _ _ _ _ _ _) as [[annotations online]|e|]; [|done..].
  inversion Hdesc; subst. simpl. unfold describe_channels.
  rewrite describe_channels_lookup.
  by destruct (last_channel_named name short_result_names).
Qed.

End DescribeProperties.

(** * The further properties on concrete scans *)

Import DescribeExamples.

Lemma core_device_run_never_fails_witness :
  let r := _run_scan_on_core_device calm param_types 150 10 [axis_a] [7]
             (start [[0%Z]; [1%Z]; [2%Z]]) in
  (r.1 = Returned tt ∨ r.1 = Raised TerminationRequested) ∧
  length (_kscan_current_chunk r.2) ≤ CHUNK_SIZE ∧
  points_match_axes [axis_a] (undelivered r.2).
Proof.
  intros r.
  apply (core_device_run_never_fails calm param_types 150 10 [axis_a] [7]
           (start [[0%Z]; [1%Z]; [2%Z]]) r.1 r.2).
  - eexists. vm_compute. reflexivity.
  - repeat constructor.
  - simpl. lia.
  - simpl. lia.
  - vm_compute. reflexivity.
Defined.

Lemma chunk_request_is_bounded_witness :
  ∃ values s',
    _kscan_param_values_chunk [axis_a; axis_b] (start [[0; 17]; [1; 25]]%Z) =
      (Returned values, s') ∧
    length values = 2 ∧
    values !! 1 = Some ((fun v => (Z.quot v 10 * 10)%Z) <$>
                          column 1 (_kscan_current_chunk s')).
Proof.
  pose proof (chunk_request_is_bounded [axis_a; axis_b]
                (start [[0; 17]; [1; 25]]%Z)
                (Returned [[0; 1]; [10; 20]]%Z)
                (snd (_kscan_param_values_chunk [axis_a; axis_b]
                        (start [[0; 17]; [1; 25]]%Z)))) as H.
  destruct H as (_ & Hlen & _ & Hvalues).
  - split_and!; [simpl; lia|repeat constructor|simpl; lia].
  - vm_compute. reflexivity.
  - eexists _, _. split; [vm_compute; reflexivity|]. split; [exact Hlen|].
    destruct (Hvalues 1 axis_b eq_refl) as (column_k & Hk & _ & ->). exact Hk.
Defined.

Lemma completed_runs_agree_witness :
  pushed_to 8
    (history (snd (run calm param_types cross 150 10 kernel_fragment spec_2d [7; 8]
                     (start [])))) =
  pushed_to 8
    (history (snd (run restless param_types cross 70 10 host_fragment spec_2d [7; 8]
                     (start [])))).
Proof.
  apply (completed_runs_agree calm restless param_types cross 150 70 10 10
           kernel_fragment host_fragment spec_2d [7; 8] (start [])).
  - repeat constructor.
  - apply NoDup_cons. split; [|apply NoDup_singleton].
    apply not_elem_of_cons. split; [lia|apply not_elem_of_nil].
  - reflexivity.
  - vm_compute. reflexivity.
  - vm_compute. reflexivity.
  - apply list_elem_of_further, list_elem_of_here.
Defined.

Lemma kernel_launch_makes_progress_witness :
  ∃ delivered,
    [[0%Z]; [1%Z]; [2%Z]] =
      delivered ++
      undelivered (snd (kscan_impl restless [axis_a] [7] 150 10 1
                          (start [[0%Z]; [1%Z]; [2%Z]]))) ∧
    delivered ≠ [].
Proof.
  destruct (kernel_launch_makes_progress restless [axis_a] [7] 150 10
              (start [[0%Z]; [1%Z]; [2%Z]]) (Returned tt)
              (snd (kscan_impl restless [axis_a] [7] 150 10 1
                      (start [[0%Z]; [1%Z]; [2%Z]]))))
    as (delivered & Hpts & _ & Hends).
  - split_and!; [simpl; lia|repeat constructor|simpl; lia].
  - simpl. lia.
  - vm_compute. reflexivity.
  - exists delivered. split; [exact Hpts|].
    destruct Hends as [[_ Hne]|[Hfinished _]]; [exact Hne|discriminate].
Defined.

Lemma host_callback_sees_its_point_witness :
  ∃ delivered,
    cross (generators spec_2d) tt =
      delivered ++
      points (snd (_run_scan_on_host calm 10 [axis_a; axis_b] [7; 8]
                     (start (cross (generators spec_2d) tt)))) ∧
    ∀ i p, delivered !! i = Some p →
      ∃ before after,
        history (snd (_run_scan_on_host calm 10 [axis_a; axis_b] [7; 8]
                        (start (cross (generators spec_2d) tt)))) =
          before ++ [EvHostSetup; EvDeviceSetup; EvRunOnce; EvPause] ++ after ∧
        callbacks_run before = 0 + i ∧
        ∀ j a, [axis_a; axis_b] !! j = Some a →
          store_value Host (store_id (param_store a)) before = p !! j.
Proof.
  apply (host_callback_sees_its_point calm 10 [axis_a; axis_b] [7; 8]
           (start (cross (generators spec_2d) tt)) (Returned tt)).
  - apply NoDup_cons. split; [|apply NoDup_singleton].
    apply not_elem_of_cons. split; [simpl; lia|apply not_elem_of_nil].
  - reflexivity.
  - repeat constructor.
  - vm_compute. reflexivity.
Defined.

Lemma describe_scan_merges_the_analyses_witness :
  (∃ desc,
     describe_scan (describers 3) spec_1d three_analysis_fragment short_names =
       Returned desc ∧
     desc_annotations desc = ["annotation_0"; "annotation_1"; "annotation_2"]%string ∧
     desc_online_analyses desc !! "fit_1"%string = Some 1) ∧
  describe_scan (describers 2) spec_1d three_analysis_fragment short_names =
    Raised ValueError.
Proof.
  split.
  - pose proof (describe_scan_merges_the_analyses (describers 3) spec_1d
                  three_analysis_fragment short_names) as H.
    change (axis_identities (axes spec_1d))
      with (Some [("fixtures.AddOneFragment.value", "child")%string]) in H.
    destruct H as [Hmerged _].
    destruct Hmerged as (desc & Hrun & Hannotations & Honline).
    + apply (bool_decide_unpack _). vm_compute. exact I.
    + exists desc. split; [exact Hrun|]. split; [exact Hannotations|].
      apply Honline. apply list_elem_of_further, list_elem_of_here.
  - pose proof (describe_scan_merges_the_analyses (describers 2) spec_1d
                  three_analysis_fragment short_names) as H.
    change (axis_identities (axes spec_1d))
      with (Some [("fixtures.AddOneFragment.value", "child")%string]) in H.
    destruct H as [_ Hclash]. apply Hclash.
    intros Hnodup. apply (bool_decide_pack _) in Hnodup.
    vm_compute in Hnodup. exact Hnodup.
Defined.

Lemma describe_scan_lists_every_axis_witness :
  ∃ desc,
    describe_scan (describers 3) spec_2d three_analysis_fragment short_names =
      Returned desc ∧
    length (desc_axes desc) = 2 ∧
    desc_axes desc !! 1 =
      Some (describe_limits (describers 3) [17; 25]%Z (axis_spec axis_b)).
Proof.
  assert (∃ desc,
            describe_scan (describers 3) spec_2d three_analysis_fragment short_names =
            Returned desc) as [desc Hdesc]
    by (eexists; vm_compute; reflexivity).
  exists desc. split; [exact Hdesc|].
  destruct (describe_scan_lists_every_axis (describers 3) spec_2d
              three_analysis_fragment short_names desc Hdesc) as [Hlen Haxes].
  split; [exact Hlen|].
  destruct (Haxes 1 axis_b eq_refl) as [Hentry _]. exact Hentry.
Defined.

Lemma describe_scan_keeps_the_last_channel_witness :
  ∃ desc,
    describe_scan (describers 3) spec_1d three_analysis_fragment short_names =
      Returned desc ∧
    desc_channels desc !! "result"%string = Some "channel_2"%string ∧
    desc_channels desc !! "missing"%string = None.
Proof.
  assert (∃ desc,
            describe_scan (describers 3) spec_1d three_analysis_fragment short_names =
            Returned desc) as [desc Hdesc]
    by (eexists; vm_compute; reflexivity).
  exists desc. split; [exact Hdesc|].
  pose proof (describe_scan_keeps_the_last_channel (describers 3) spec_1d
                three_analysis_fragment short_names desc Hdesc) as Hchannels.
  split.
  - exact (Hchannels "result"%string).
  - exact (Hchannels "missing"%string).
Defined.

(** * Properties of the scan experiment *)

Module ExperimentProperties.

Import FragmentScanExperiment.

Section Properties.

Context {Value : Type}.

Implicit Types (s : Experiment Value) (l : list (Call Value))
  (axes : list (ScanAxis Value)).

Local Open Scope exp_scope.

Lemma appended_to_app key l1 l2 :
  appended_to key (l1 ++ l2) = appended_to key l1 ++ appended_to key l2.
Proof. apply omap_app. Qed.

Lemma appended_to_cons_append key k (v : Value) l :
  appended_to key (AppendToDataset k v :: l) =
  if decide (k = key) then v :: appended_to key l else appended_to key l.
Proof. unfold appended_to. cbn [omap list_omap]. by destruct (decide (k = key)). Qed.

Lemma appended_to_cons_set_value key side store (v : Value) l :
  appended_to key (SetValue side store v :: l) = appended_to key l.
Proof. done. Qed.

Lemma set_to_app key l1 l2 :
  set_to key (l1 ++ l2) = set_to key l1 ++ set_to key l2.
Proof. apply omap_app. Qed.

Lemma exp_callbacks_run_app l1 l2 :
  callbacks_run (l1 ++ l2) = callbacks_run l1 + callbacks_run l2.
Proof. unfold callbacks_run. by rewrite List.filter_app, length_app. Qed.

(** ** Running without axes *)

Lemma continuous_while_turns (scheduler : Scheduler Value) fuel :
  ∀ first s o s',
    continuous_while scheduler true fuel first s = (o, s') →
    ∃ n,
      _kscan_points s' = _kscan_points s ∧
      _kscan_current_chunk s' = _kscan_current_chunk s ∧
      _point_phase s' = Nat.iter n negb (_point_phase s) ∧
      match o with
      | Returned _ =>
          n < fuel ∧
          log s' = log s ++ continuous_turns n first (_point_phase s) ++
                   [CheckPause true]
      | Raised _ => False
      | OutOfFuel =>
          n = fuel ∧ log s' = log s ++ continuous_turns n first (_point_phase s)
      end.
Proof.
  induction fuel as [|fuel IH]; intros first s o s' Hrun.
  - inversion Hrun; subst. exists 0. simpl. by rewrite app_nil_r.
  - simpl in Hrun. unfold bind at 1, scheduler_check_pause in Hrun.
    destruct (should_pause scheduler (log s)) eqn:Hb.
    + inversion Hrun; subst. exists 0. simpl. split_and!; [done..|lia|done].
    + unfold bind at 1 in Hrun.
      assert (∀ s0 : Experiment Value,
                (if first then emit DeviceSetup else emit DeviceReset) s0 =
                emit (if first then DeviceSetup else DeviceReset) s0) as Hfirst
        by (by destruct first).
      rewrite Hfirst in Hrun. clear Hfirst.
      unfold emit at 1 in Hrun. unfold bind at 1, emit at 1 in Hrun.
      unfold bind at 1, _broadcast_point_phase in Hrun.
      cbn [_kscan_points _kscan_current_chunk _point_phase log] in Hrun.
      apply IH in Hrun as (n & Hp & Hc & Hphase & Ho).
      cbn [_kscan_points _kscan_current_chunk _point_phase log] in *.
      exists (S n). rewrite Nat.iter_succ_r. split_and!; [done..|].
      destruct o as [[]|e|]; [|done|].
      * destruct Ho as [Hn ->]. split; [lia|]. simpl. by rewrite <- !app_assoc.
      * destruct Ho as [-> ->]. split; [done|]. simpl. by rewrite <- !app_assoc.
Qed.

Lemma callbacks_run_continuous_turns n first phase :
  callbacks_run (continuous_turns (Value := Value) n first phase) = n.
Proof.
  revert first phase. induction n as [|n IH]; intros first phase; [done|].
  cbn [continuous_turns]. rewrite exp_callbacks_run_app, IH. by destruct first.
Qed.

(** The continuous loop, when it is left to repeat
    ([continuous_without_axes]), returns only once the scheduler asks to
    pause, after some number [n] of turns: the fragment has run [n] times,
    [device_setup] was called for the first of them only and
    [device_reset] for all the others, and the point phase was flipped and
    published at every turn. It never raises. *)
Theorem continuous_loop_sets_up_once (scheduler : Scheduler Value) fuel s o s' :
  _continuous_loop scheduler true fuel s = (o, s') →
  o ≠ OutOfFuel →
  ∃ n,
    o = Returned tt ∧
    log s' = log s ++ continuous_turns n true (_point_phase s) ++ [CheckPause true] ∧
    callbacks_run (log s') = callbacks_run (log s) + n ∧
    _point_phase s' = Nat.iter n negb (_point_phase s).
Proof.
  intros Hrun Hfuel. unfold _continuous_loop in Hrun.
  apply continuous_while_turns in Hrun as (n & _ & _ & Hphase & Ho).
  destruct o as [[]|e|]; [|done|by destruct Hfuel]. destruct Ho as [_ Hlog].
  exists n. split_and!; [done..| |done].
  rewrite Hlog, !exp_callbacks_run_app, callbacks_run_continuous_turns.
  assert (callbacks_run (Value := Value) [CheckPause true] = 0) as -> by done.
  lia.
Qed.

(** A single-shot experiment (no axes, [continuous_without_axes] off)
    always returns, and marks the run completed. It asks the scheduler
    once, before anything is measured: if the answer is to pause, the
    fragment is not run at all; otherwise it is set up and run exactly
    once. On a kernel the core is reset before and the connection closed
    after. *)
Theorem single_shot_may_skip_the_measurement (scheduler : Scheduler Value)
    fragment fuel s :
  0 < fuel →
  let kernel := run_once_is_kernel fragment in
  let start := log s ++ [HostSetup] ++ (if kernel then [CoreReset] else []) in
  ∃ s',
    _run_single scheduler fragment false fuel s = (Returned tt, s') ∧
    log s' =
      start ++
      (if should_pause scheduler start
       then [CheckPause true]
       else [CheckPause false; DeviceSetup; RunOnce;
             SetDataset "ndscan.point_phase" (DBool true)]) ++
      (if kernel then [CommClose] else []) ++
      [SetDataset "ndscan.completed" (DBool true)].
Proof.
  intros Hfuel. destruct fuel as [|fuel]; [lia|]. cbv zeta.
  unfold _run_single, try_finally, suppress_TerminationRequested.
  cbn [run_single_while]. unfold bind at 1, emit at 1. unfold bind at 1, reset_point_phase.
  cbn [_kscan_points _kscan_current_chunk _point_phase log].
  destruct (run_once_is_kernel fragment).
  - unfold bind at 1. unfold bind at 1.
    unfold _run_continuous_kernel, bind at 1, emit at 1, _continuous_loop.
    cbn [continuous_while _kscan_points _kscan_current_chunk _point_phase log].
    unfold bind at 1, scheduler_check_pause.
    cbn [_kscan_points _kscan_current_chunk _point_phase log].
    rewrite <- !app_assoc. cbn [app].
    destruct (should_pause scheduler (log s ++ [HostSetup; CoreReset])).
    + eexists. split; [reflexivity|]. simpl. by rewrite <- !app_assoc.
    + eexists. split; [reflexivity|]. simpl. by rewrite <- !app_assoc.
  - unfold bind at 1. unfold _continuous_loop.
    cbn [continuous_while _kscan_points _kscan_current_chunk _point_phase log].
    unfold bind at 1, scheduler_check_pause.
    cbn [_kscan_points _kscan_current_chunk _point_phase log].
    rewrite app_nil_r.
    destruct (should_pause scheduler (log s ++ [HostSetup])).
    + eexists. split; [reflexivity|]. simpl. by rewrite <- !app_assoc.
    + eexists. split; [reflexivity|]. simpl. by rewrite <- !app_assoc.
Qed.

Lemma continuous_block_returns (scheduler : Scheduler Value) fragment loop_fuel
    s o s' :
  (if run_once_is_kernel fragment
   then _run_continuous_kernel scheduler true loop_fuel ;; emit CommClose
   else _continuous_loop scheduler true loop_fuel) s = (o, s') →
  match o with Raised _ => False | _ => True end.
Proof.
  destruct (run_once_is_kernel fragment).
  - unfold bind at 1, _run_continuous_kernel, bind at 1, emit at 1, _continuous_loop.
    match goal with
    | |- context [continuous_while scheduler true loop_fuel true ?s0] =>
        destruct (continuous_while scheduler true loop_fuel true s0)
          as [o1 s1] eqn:Hloop
    end.
    apply continuous_while_turns in Hloop as (n & _ & _ & _ & Ho).
    destruct o1 as [[]|e|]; [|done|]; intros Hrun; by inversion Hrun.
  - unfold _continuous_loop. intros Hloop.
    apply continuous_while_turns in Hloop as (n & _ & _ & _ & Ho).
    by destruct o.
Qed.

Lemma run_single_while_continuous (scheduler : Scheduler Value) fragment
    loop_fuel fuel :
  ∀ s o s',
    run_single_while scheduler fragment true fuel loop_fuel s = (o, s') →
    match o with
    | Returned _ => False
    | Raised e =>
        e = TerminationRequested ∧
        (∃ h, pause_raises scheduler h = true) ∧
        last (log s') = Some Pause
    | OutOfFuel => True
    end.
Proof.
  induction fuel as [|fuel IH]; intros s o s' Hrun.
  - by inversion Hrun.
  - cbn [run_single_while] in Hrun.
    unfold bind at 1, emit at 1 in Hrun.
    unfold bind at 1, reset_point_phase in Hrun.
    cbn [_kscan_points _kscan_current_chunk _point_phase log] in Hrun.
    unfold bind at 1 in Hrun.
    match type of Hrun with
    | context [(if run_once_is_kernel fragment then ?a else ?b) ?s0] =>
        destruct ((if run_once_is_kernel fragment then a else b) s0)
          as [o1 s1] eqn:Hblock
    end.
    apply continuous_block_returns in Hblock.
    destruct o1 as [[]|e|]; [|done|by inversion Hrun; subst].
    unfold bind at 1, scheduler_pause in Hrun.
    destruct (pause_raises scheduler (log s1)) eqn:Hraise.
    + inversion Hrun; subst. cbn [log]. split_and!; [done|by eauto|].
      by rewrite last_snoc.
    + by apply IH in Hrun.
Qed.

(** A continuous experiment (no axes, [continuous_without_axes] on) has
    one way to end: the scheduler terminates it at a [pause()]. The
    [TerminationRequested] is not passed on, and the run is marked
    completed right after that [pause()]. *)
Theorem continuous_run_ends_by_termination (scheduler : Scheduler Value)
    fragment fuel s o s' :
  _run_single scheduler fragment true fuel s = (o, s') →
  o ≠ OutOfFuel →
  o = Returned tt ∧
  (∃ h, pause_raises scheduler h = true) ∧
  ∃ before,
    log s' = before ++ [Pause; SetDataset "ndscan.completed" (DBool true)].
Proof.
  intros Hrun Hfuel.
  unfold _run_single, try_finally, suppress_TerminationRequested in Hrun.
  destruct (run_single_while scheduler fragment true fuel fuel s)
    as [o1 s1] eqn:Hloop.
  apply run_single_while_continuous in Hloop.
  destruct o1 as [[]|e|]; [done| |by inversion Hrun; subst].
  destruct Hloop as (-> & Hraises & Hlast).
  unfold _set_completed, emit in Hrun. inversion Hrun; subst o s'.
  cbn [log]. split_and!; [done|done|].
  destruct (log s1) as [|c l] eqn:Hlog using rev_ind; [done|].
  rewrite last_snoc in Hlast. inversion Hlast; subst c.
  exists l. by rewrite <- app_assoc.
Qed.

(** ** The scan loop on the host *)

Lemma axis_key_inj i j : axis_key i = axis_key j → i = j.
Proof.
  unfold axis_key. intros H. apply (inj _) in H. by apply (inj pretty) in H.
Qed.

Lemma host_set_axes_spec (l : list (ScanAxis Value * Value)) :
  ∀ i s,
    host_set_axes i l s =
    (Returned tt,
     mkExperiment (_kscan_points s) (_kscan_current_chunk s) (_point_phase s)
       (log s ++ host_axis_calls i l)).
Proof.
  induction l as [|[a v] l IH]; intros i [pts ch ph lg].
  - simpl. unfold ret. by rewrite app_nil_r.
  - cbn [host_set_axes host_axis_calls]. unfold bind at 1, emit at 1.
    unfold bind at 1, emit at 1. rewrite IH.
    cbn [_kscan_points _kscan_current_chunk _point_phase log].
    by rewrite <- !app_assoc.
Qed.

Lemma host_scan_while_spec (scheduler : Scheduler Value) axes fuel :
  ∀ s o s',
    host_scan_while scheduler axes fuel s = (o, s') →
    ∃ delivered,
      _kscan_points s = delivered ++ _kscan_points s' ∧
      _kscan_current_chunk s' = _kscan_current_chunk s ∧
      _point_phase s' = _point_phase s ∧
      log s' = log s ++ concat (map (host_point_calls axes) delivered) ∧
      match o with
      | Returned _ => _kscan_points s' = []
      | Raised e =>
          e = TerminationRequested ∧ delivered ≠ [] ∧
          ∃ h, pause_raises scheduler h = true
      | OutOfFuel => length delivered = fuel
      end.
Proof.
  induction fuel as [|fuel IH]; intros s o s' Hrun.
  - inversion Hrun; subst. exists []. simpl. by rewrite app_nil_r.
  - cbn [host_scan_while] in Hrun. unfold bind at 1, next_point in Hrun.
    destruct (_kscan_points s) as [|p rest] eqn:Hpts.
    + inversion Hrun; subst. exists []. simpl. by rewrite app_nil_r.
    + unfold bind at 1 in Hrun. rewrite host_set_axes_spec in Hrun.
      unfold bind at 1, emit at 1 in Hrun. unfold bind at 1, emit at 1 in Hrun.
      unfold bind at 1, scheduler_pause in Hrun.
      cbn [_kscan_points _kscan_current_chunk _point_phase log] in Hrun.
      match type of Hrun with
      | context [pause_raises scheduler ?h] =>
          destruct (pause_raises scheduler h) eqn:Hraise
      end.
      * inversion Hrun; subst. exists [p]. simpl.
        rewrite app_nil_r. unfold host_point_calls.
        rewrite <- !app_assoc. split_and!; [done..|by eauto].
      * apply IH in Hrun as (delivered & Hp & Hc & Hph & Hlog & Ho).
        cbn [_kscan_points _kscan_current_chunk _point_phase log] in *.
        exists (p :: delivered). rewrite Hp. split_and!; [done..| |].
        -- rewrite Hlog. cbn [map concat]. unfold host_point_calls at 2.
           by rewrite <- !app_assoc.
        -- destruct o as [[]|e|]; [done| |simpl; lia].
           destruct Ho as (-> & _ & Hh). done.
Qed.

(** The host loop as a whole: it returns (given enough fuel), whatever the
    scheduler does. *)
Lemma run_scan_on_host_returns (scheduler : Scheduler Value) axes fuel s :
  length (_kscan_points s) < fuel →
  ∃ s' delivered,
    _run_scan_on_host scheduler axes fuel s = (Returned tt, s') ∧
    _kscan_points s = delivered ++ _kscan_points s' ∧
    ((_kscan_points s' = [] ∧
      log s' = log s ++ concat (map (host_point_calls axes) delivered) ++
               [SetDataset "ndscan.completed" (DBool true)]) ∨
     (delivered ≠ [] ∧ (∃ h, pause_raises scheduler h = true) ∧
      log s' = log s ++ concat (map (host_point_calls axes) delivered))).
Proof.
  intros Hfuel. unfold _run_scan_on_host, suppress_TerminationRequested.
  unfold bind at 1.
  destruct (host_scan_while scheduler axes fuel s) as [o s1] eqn:Hrun.
  apply host_scan_while_spec in Hrun as (delivered & Hp & _ & _ & Hlog & Ho).
  destruct o as [[]|e|].
  - unfold _set_completed, emit. eexists _, delivered. split; [done|].
    cbn [_kscan_points log]. split; [done|]. left. split; [done|].
    by rewrite Hlog, <- app_assoc.
  - destruct Ho as (-> & Hne & Hh). exists s1, delivered. by eauto 10.
  - exfalso. rewrite Hp, length_app in Hfuel. lia.
Qed.

Lemma appended_host_axis_calls (l : list (ScanAxis Value * Value)) :
  ∀ i j,
    appended_to (axis_key j) (host_axis_calls i l) =
    if decide (i ≤ j) then option_list (snd <$> l !! (j - i)) else [].
Proof.
  induction l as [|[a v] l IH]; intros i j.
  - simpl. by destruct (decide (i ≤ j)).
  - cbn [host_axis_calls].
    rewrite appended_to_cons_set_value, appended_to_cons_append, IH.
    destruct (decide (axis_key i = axis_key j)) as [Heq|Hne].
    + apply axis_key_inj in Heq as ->.
      rewrite decide_False by lia. rewrite decide_True by lia.
      by rewrite Nat.sub_diag.
    + assert (i ≠ j) by (by intros ->).
      destruct (decide (S i ≤ j)) as [Hle|Hgt].
      * rewrite decide_True by lia.
        replace (j - i) with (S (j - S i)) by lia. done.
      * by rewrite decide_False by lia.
Qed.

Lemma appended_host_point_calls axes j (p : list Value) :
  j < length axes →
  appended_to (axis_key j) (host_point_calls axes p) = option_list (p !! j).
Proof.
  intros Hj. unfold host_point_calls. rewrite appended_to_app.
  rewrite appended_host_axis_calls, decide_True by lia.
  rewrite Nat.sub_0_r. cbn [appended_to omap list_omap]. rewrite app_nil_r.
  apply lookup_lt_is_Some_2 in Hj as [a Ha].
  assert (zip axes p !! j = (x ← axes !! j; y ← p !! j; Some (x, y))) as ->
    by apply lookup_zip_with.
  rewrite Ha. simpl. by destruct (p !! j).
Qed.

Lemma appended_host_points axes j (pts : list (list Value)) :
  j < length axes →
  appended_to (axis_key j) (concat (map (host_point_calls axes) pts)) =
  column j pts.
Proof.
  intros Hj. induction pts as [|p pts IH]; [done|].
  cbn [map concat]. rewrite appended_to_app, IH, appended_host_point_calls by done.
  unfold column. cbn [omap list_omap]. by destruct (p !! j).
Qed.

Lemma callbacks_run_host_axis_calls (l : list (ScanAxis Value * Value)) i :
  callbacks_run (host_axis_calls i l) = 0.
Proof. revert i. induction l as [|[a v] l IH]; intros i; [done|]. apply IH. Qed.

Lemma exp_callbacks_run_host_points axes (pts : list (list Value)) :
  callbacks_run (concat (map (host_point_calls axes) pts)) = length pts.
Proof.
  induction pts as [|p pts IH]; [done|].
  cbn [map concat]. rewrite exp_callbacks_run_app, IH. unfold host_point_calls.
  by rewrite exp_callbacks_run_app, callbacks_run_host_axis_calls.
Qed.

(** A scan on the host, started through [run], always returns: a
    [TerminationRequested] of the scheduler ends the loop and is not
    passed on. The points that were taken are a prefix of the scan, each
    leaving its calls in the order of the loop body, and the run is
    marked completed in either case: twice after the last point, once
    after a termination, however many points are left. *)
Theorem terminated_host_scan_is_marked_completed (scheduler : Scheduler Value)
    fragment metadata axes cwa types fuel s :
  axes ≠ [] →
  run_once_is_kernel fragment = false →
  length (_kscan_points s) < fuel →
  ∃ s' delivered,
    run scheduler fragment metadata axes cwa types fuel s = (Returned tt, s') ∧
    _kscan_points s = delivered ++ _kscan_points s' ∧
    last (set_to "ndscan.completed" (log s')) = Some (DBool true) ∧
    ((_kscan_points s' = [] ∧
      log s' = log s ++ metadata_calls metadata ++ [HostSetup] ++
               concat (map (host_point_calls axes) delivered) ++
               [SetDataset "ndscan.completed" (DBool true);
                SetDataset "ndscan.completed" (DBool true)]) ∨
     (delivered ≠ [] ∧ (∃ h, pause_raises scheduler h = true) ∧
      log s' = log s ++ metadata_calls metadata ++ [HostSetup] ++
               concat (map (host_point_calls axes) delivered) ++
               [SetDataset "ndscan.completed" (DBool true)])).
Proof.
  intros Haxes Hhost Hfuel. unfold run.
  destruct axes as [|a axes']; [done|]. set (axes := a :: axes').
  unfold _broadcast_metadata, _issue_ccb, _run_scan.
  repeat (unfold bind at 1, emit at 1;
          cbn [_kscan_points _kscan_current_chunk _point_phase log]).
  rewrite Hhost. unfold bind at 1.
  match goal with
  | |- context [_run_scan_on_host scheduler axes fuel ?s0] =>
      destruct (run_scan_on_host_returns scheduler axes fuel s0)
        as (s1 & delivered & -> & Hp & Hlog); [done|]
  end.
  cbn [_kscan_points log] in Hp, Hlog.
  unfold _set_completed, emit. eexists _, delivered. split; [done|].
  cbn [_kscan_points log]. split; [done|]. split.
  { rewrite set_to_app. cbn [set_to omap list_omap].
    rewrite decide_True by done. by rewrite last_snoc. }
  destruct Hlog as [[Hend Hlog]|(Hne & Hh & Hlog)]; [left|right];
    (split_and!; [done..|]); rewrite Hlog; unfold metadata_calls;
    by rewrite <- !app_assoc.
Qed.

(** What a scan on the host leaves behind: for every axis, its dataset
    [ndscan.points.axis_j] has grown by the values of that axis over the
    points that were taken, in order, and the fragment has run once per
    point taken. A point with fewer values than there are axes leaves the
    datasets of the missing axes untouched. *)
Theorem host_scan_records_the_coordinates (scheduler : Scheduler Value)
    axes fuel s :
  length (_kscan_points s) < fuel →
  ∃ s' delivered,
    _run_scan_on_host scheduler axes fuel s = (Returned tt, s') ∧
    _kscan_points s = delivered ++ _kscan_points s' ∧
    callbacks_run (log s') = callbacks_run (log s) + length delivered ∧
    ∀ j, j < length axes →
      appended_to (axis_key j) (log s') =
      appended_to (axis_key j) (log s) ++ column j delivered.
Proof.
  intros Hfuel.
  destruct (run_scan_on_host_returns scheduler axes fuel s Hfuel)
    as (s' & delivered & Hrun & Hp & Hlog).
  exists s', delivered. split_and!; [done..| |].
  - destruct Hlog as [[_ ->]|(_ & _ & ->)];
      rewrite ?app_assoc, !exp_callbacks_run_app, ?exp_callbacks_run_host_points;
      rewrite ?exp_callbacks_run_app, ?exp_callbacks_run_host_points;
      change (callbacks_run (Value := Value) [SetDataset _ _]) with 0; lia.
  - intros j Hj.
    destruct Hlog as [[_ ->]|(_ & _ & ->)];
      rewrite !appended_to_app, appended_host_points by done; [|done].
    cbn [appended_to omap list_omap]. by rewrite app_nil_r.
Qed.

(** ** The scan loop on the core device *)


Lemma record_point_spec n (p : list Value) :
  ∀ i cell s,
    i + length p ≤ n →
    record_point n i p cell s =
    (Returned (cell ++ p),
     mkExperiment (_kscan_points s) (_kscan_current_chunk s) (_point_phase s)
       (log s ++ point_appends i p)).
Proof.
  induction p as [|v p IH]; intros i cell [pts ch ph lg] Hlen.
  - simpl. unfold ret. by rewrite !app_nil_r.
  - cbn [length] in Hlen. cbn [record_point point_appends].
    unfold bind at 1, emit at 1. rewrite decide_True by lia.
    rewrite IH by lia. cbn [_kscan_points _kscan_current_chunk _point_phase log].
    by rewrite <- !app_assoc.
Qed.

Lemma record_chunk_spec n (chunk : list (list Value)) :
  ∀ cell s,
    Forall (λ p, length p ≤ n) chunk →
    record_chunk n chunk cell s =
    (Returned (cell ++ concat chunk),
     mkExperiment (_kscan_points s) (_kscan_current_chunk s) (_point_phase s)
       (log s ++ concat (map (point_appends 0) chunk))).
Proof.
  induction chunk as [|p chunk IH]; intros cell [pts ch ph lg] Hall.
  - simpl. unfold ret. by rewrite !app_nil_r.
  - inversion Hall as [|? ? Hp Hall']; subst.
    cbn [record_chunk map concat]. unfold bind at 1.
    rewrite record_point_spec by (simpl; lia). rewrite IH by done.
    cbn [_kscan_points _kscan_current_chunk _point_phase log].
    by rewrite <- !app_assoc.
Qed.

Lemma param_values_chunk_spec axes s :
  length (_kscan_current_chunk s) ≤ CHUNK_SIZE →
  Forall (λ p : list Value, length p ≤ length axes)
    (_kscan_current_chunk s ++ _kscan_points s) →
  let n := CHUNK_SIZE - length (_kscan_current_chunk s) in
  let chunk' := _kscan_current_chunk s ++ take n (_kscan_points s) in
  _kscan_param_values_chunk axes s =
  (Returned (replicate (length axes) (concat chunk')),
   mkExperiment (drop n (_kscan_points s)) chunk' (_point_phase s)
     (log s ++ concat (map (point_appends 0) chunk'))).
Proof.
  intros Hlen Hall n chunk'. unfold _kscan_param_values_chunk.
  rewrite decide_False by lia. unfold bind. fold n. fold chunk'.
  rewrite record_chunk_spec; [done|].
  apply Forall_app in Hall as [Hc Hp]. apply Forall_app. split; [done|].
  by apply Forall_take.
Qed.

Lemma appended_point_appends (p : list Value) :
  ∀ i j,
    appended_to (axis_key j) (point_appends i p) =
    if decide (i ≤ j) then option_list (p !! (j - i)) else [].
Proof.
  induction p as [|v p IH]; intros i j.
  - simpl. by destruct (decide (i ≤ j)).
  - cbn [point_appends]. rewrite appended_to_cons_append, IH.
    destruct (decide (axis_key i = axis_key j)) as [Heq|Hne].
    + apply axis_key_inj in Heq as ->.
      rewrite decide_False by lia. rewrite decide_True by lia.
      by rewrite Nat.sub_diag.
    + assert (i ≠ j) by (by intros ->).
      destruct (decide (S i ≤ j)) as [Hle|Hgt].
      * rewrite decide_True by lia.
        replace (j - i) with (S (j - S i)) by lia. done.
      * by rewrite decide_False by lia.
Qed.

Lemma appended_chunk_appends j (chunk : list (list Value)) :
  appended_to (axis_key j) (concat (map (point_appends 0) chunk)) =
  column j chunk.
Proof.
  induction chunk as [|p chunk IH]; [done|].
  cbn [map concat]. rewrite appended_to_app, IH, appended_point_appends.
  rewrite decide_True by lia. rewrite Nat.sub_0_r.
  unfold column. cbn [omap list_omap]. by destruct (p !! j).
Qed.

Lemma length_concat_uniform n (l : list (list Value)) :
  Forall (λ p, length p = n) l → length (concat l) = n * length l.
Proof.
  induction 1 as [|p l Hp _ IH]; simpl; [lia|]. rewrite length_app, IH, Hp. lia.
Qed.

(** The tuple [_kscan_param_values_chunk] hands to the kernel does not
    hold one list per axis: all its entries are one and the same list, to
    which the values of every point of the chunk were appended in turn.
    For a scan over [n] axes each entry therefore has [n] values per point
    of the chunk. The chunk is filled up to [CHUNK_SIZE] points from the
    points left, and the dataset of each axis grows by the coordinates of
    the whole chunk, the points carried over included. *)
Theorem chunk_tuple_repeats_one_list axes s :
  length (_kscan_current_chunk s) ≤ CHUNK_SIZE →
  points_match_axes axes (_kscan_current_chunk s ++ _kscan_points s) →
  let n := CHUNK_SIZE - length (_kscan_current_chunk s) in
  ∃ values s',
    _kscan_param_values_chunk axes s = (Returned values, s') ∧
    _kscan_current_chunk s' = _kscan_current_chunk s ++ take n (_kscan_points s) ∧
    _kscan_points s' = drop n (_kscan_points s) ∧
    length values = length axes ∧
    (∀ k row, values !! k = Some row → row = concat (_kscan_current_chunk s')) ∧
    length (concat (_kscan_current_chunk s')) =
      length axes * length (_kscan_current_chunk s') ∧
    ∀ j, j < length axes →
      appended_to (axis_key j) (log s') =
      appended_to (axis_key j) (log s) ++ column j (_kscan_current_chunk s').
Proof.
  intros Hlen Hall n. eexists _, _. split.
  { apply param_values_chunk_spec; [done|].
    eapply Forall_impl; [exact Hall|]. simpl. intros p ->. done. }
  cbn [_kscan_points _kscan_current_chunk log]. fold n.
  split_and!; [done|done|by rewrite length_replicate| | |].
  - intros k row Hk. by apply lookup_replicate in Hk as [-> _].
  - apply length_concat_uniform.
    unfold points_match_axes in Hall. apply Forall_app in Hall as [Hc Hp].
    apply Forall_app. split; [done|]. by apply Forall_take.
  - intros j Hj. by rewrite appended_to_app, appended_chunk_appends.
Qed.














(** The scan experiment has kernels for one and for two axes only. A
    scan over three or more axes on the core device is refused with
    [NotImplementedError] ([KeyError] if the schema of an axis has no
    known type) once the metadata are published, the applet is requested
    and the fragment has done its host setup: nothing is measured, and
    the datasets say the run is not completed. *)
Theorem kernel_scan_over_three_axes_is_refused (scheduler : Scheduler Value)
    fragment metadata axes cwa types fuel s :
  run_once_is_kernel fragment = true →
  3 ≤ length axes →
  ∃ s',
    run scheduler fragment metadata axes cwa types fuel s =
      (Raised (match chunk_annotation types axes with
               | None => KeyError
               | Some _ => NotImplementedError (length axes)
               end), s') ∧
    _kscan_points s' = _kscan_points s ∧
    log s' = log s ++ metadata_calls metadata ++ [HostSetup] ∧
    last (set_to "ndscan.completed" (log s')) = Some (DBool false).
Proof.
  intros Hkernel Hlen. unfold run.
  destruct axes as [|a axes']; [simpl in Hlen; lia|]. set (axes := a :: axes') in *.
  unfold _broadcast_metadata, _issue_ccb, _run_scan.
  repeat (unfold bind at 1, emit at 1;
          cbn [_kscan_points _kscan_current_chunk _point_phase log]).
  rewrite Hkernel. unfold bind at 1, _run_scan_on_kernel, bind at 1, reset_chunk.
  cbn [_kscan_points _kscan_current_chunk _point_phase log].
  assert (getattr_kscan_impl scheduler axes fuel (length axes) = None) as ->.
  { destruct (length axes) as [|[|[|n]]]; [lia..|done]. }
  eexists. split.
  { destruct (chunk_annotation types axes); reflexivity. }
  cbn [_kscan_points log]. split; [done|]. split.
  { unfold metadata_calls. by rewrite <- !app_assoc. }
  rewrite !set_to_app. cbn [set_to omap list_omap].
  rewrite !decide_False by done. rewrite decide_True by done.
  rewrite !app_nil_r. by rewrite last_snoc.
Qed.

End Properties.

(** ** The properties on concrete experiments *)

Import ExperimentExamples.

Lemma continuous_loop_sets_up_once_witness :
  ∃ n,
    log (snd (_continuous_loop (pause_after 2) true 5 (fresh []))) =
      [] ++ continuous_turns n true false ++ [CheckPause true] ∧
    callbacks_run (log (snd (_continuous_loop (pause_after 2) true 5 (fresh [])))) =
      0 + n.
Proof.
  destruct (continuous_loop_sets_up_once (pause_after 2) 5 (fresh [])
              (Returned tt)
              (snd (_continuous_loop (pause_after 2) true 5 (fresh []))))
    as (n & _ & Hlog & Hruns & _).
  - vm_compute. reflexivity.
  - discriminate.
  - exists n. split; [exact Hlog|exact Hruns].
Defined.

Lemma single_shot_may_skip_the_measurement_witness :
  ∃ s',
    _run_single (pause_after 0) kernel_fragment false 3 (fresh []) =
      (Returned tt, s') ∧
    log s' =
      [HostSetup; CoreReset; CheckPause true; CommClose;
       SetDataset "ndscan.completed" (DBool true)].
Proof.
  assert (0 < 3) as Hfuel by lia.
  pose proof (single_shot_may_skip_the_measurement (pause_after 0) kernel_fragment
                3 (fresh []) Hfuel) as H.
  cbv zeta in H. destruct H as (s' & Hrun & Hlog).
  exists s'. split; [exact Hrun|]. rewrite Hlog. vm_compute. reflexivity.
Defined.

Lemma continuous_run_ends_by_termination_witness :
  ∃ before,
    log (snd (_run_single (stop_when_paused 2) host_fragment true 5 (fresh []))) =
      before ++ [Pause; SetDataset "ndscan.completed" (DBool true)].
Proof.
  destruct (continuous_run_ends_by_termination (stop_when_paused 2) host_fragment 5
              (fresh []) (Returned tt)
              (snd (_run_single (stop_when_paused 2) host_fragment true 5 (fresh []))))
    as (_ & _ & Hlog).
  - vm_compute. reflexivity.
  - discriminate.
  - exact Hlog.
Defined.

Lemma terminated_host_scan_is_marked_completed_witness :
  ∃ s' delivered,
    run (stop_after 2) host_fragment (metadata_of "7") [axis_a] false param_types 10
      (fresh (ramp 4)) = (Returned tt, s') ∧
    ramp 4 = delivered ++ _kscan_points s' ∧
    last (set_to "ndscan.completed" (log s')) = Some (DBool true).
Proof.
  destruct (terminated_host_scan_is_marked_completed (stop_after 2) host_fragment
              (metadata_of "7") [axis_a] false param_types 10 (fresh (ramp 4)))
    as (s' & delivered & Hrun & Hpoints & Hcompleted & _).
  - discriminate.
  - reflexivity.
  - vm_compute. lia.
  - exists s', delivered. split; [exact Hrun|]. split; [exact Hpoints|exact Hcompleted].
Defined.

Lemma host_scan_records_the_coordinates_witness :
  ∃ s' delivered,
    _run_scan_on_host (stop_after 2) [axis_a; axis_b] 10
      (fresh [[0; 17]; [1; 25]; [2; 30]]%Z) = (Returned tt, s') ∧
    [[0; 17]; [1; 25]; [2; 30]]%Z = delivered ++ _kscan_points s' ∧
    appended_to (axis_key 1) (log s') = [] ++ column 1 delivered.
Proof.
  destruct (host_scan_records_the_coordinates (stop_after 2) [axis_a; axis_b] 10
              (fresh [[0; 17]; [1; 25]; [2; 30]]%Z))
    as (s' & delivered & Hrun & Hpoints & _ & Hcolumns).
  - simpl. lia.
  - exists s', delivered. split; [exact Hrun|]. split; [exact Hpoints|].
    apply (Hcolumns 1). simpl. lia.
Defined.

Lemma chunk_tuple_repeats_one_list_witness :
  ∃ values s',
    _kscan_param_values_chunk [axis_a; axis_b]
      (mkExperiment [[1; 25]; [2; 30]]%Z [[0; 17]]%Z false []) =
      (Returned values, s') ∧
    length values = 2 ∧
    (∀ k row, values !! k = Some row → row = concat (_kscan_current_chunk s')) ∧
    length (concat (_kscan_current_chunk s')) = 2 * length (_kscan_current_chunk s').
Proof.
  pose proof (chunk_tuple_repeats_one_list [axis_a; axis_b]
                (mkExperiment [[1; 25]; [2; 30]]%Z [[0; 17]]%Z false [])) as H.
  cbv zeta in H.
  destruct H as (values & s' & Hrun & _ & _ & Hlen & Hrows & Hsize & _).
  - simpl. unfold CHUNK_SIZE. lia.
  - repeat constructor.
  - exists values, s'. split; [exact Hrun|]. split; [exact Hlen|].
    split; [exact Hrows|exact Hsize].
Defined.



Lemma kernel_scan_over_three_axes_is_refused_witness :
  ∃ s',
    run patient kernel_fragment (metadata_of "7") [axis_a; axis_b; axis_a] false
      param_types 5 (fresh [[0; 17; 0]]%Z) = (Raised (NotImplementedError 3), s') ∧
    _kscan_points s' = [[0; 17; 0]]%Z ∧
    last (set_to "ndscan.completed" (log s')) = Some (DBool false).
Proof.
  destruct (kernel_scan_over_three_axes_is_refused patient kernel_fragment
              (metadata_of "7") [axis_a; axis_b; axis_a] false param_types 5
              (fresh [[0; 17; 0]]%Z))
    as (s' & Hrun & Hpoints & _ & Hcompleted).
  - reflexivity.
  - simpl. lia.
  - exists s'. split; [|split; [exact Hpoints|exact Hcompleted]].
    rewrite Hrun. vm_compute. reflexivity.
Defined.

End ExperimentProperties.
